(** * The approval workflow of the request portal

    A shallow embedding of the TypeScript sources of the portal:
    - [types.ts]: the data model;
    - [context/RequestContext.tsx]: [updateRequestStatus], [updateRequest],
      [updateItemRequestStatus] and the error formatting helpers;
    - [components/requests/RequestDetailsModal.tsx]: the approver conditions
      [isCurrentUserApprover], [isHOD], [isAuditor] and [handleAction];
    - [components/dashboard/Dashboard.tsx]: the notification derivation;
    - [components/dashboard/RequestList.tsx]: [renderWorkflowStatus].

    The database procedures the client calls ([handle_request_action],
    [resubmit_request_as_admin], [update_item_request_status_as_admin]) are
    not part of the TypeScript sources.  The client is therefore embedded
    as a program that performs remote calls, parametric in the server; the
    server side is modelled separately, from the specification, in the
    part headed "Workflow service". *)

From stdpp Require Import base tactics option list numbers gmap sorting strings.
From Stdlib Require Import ZArith Lia Ascii String.

Local Open Scope N_scope.

(** ** JavaScript strings

    A JavaScript string is a sequence of UTF-16 code units. *)

Abbreviation str := (list N).

Definition lit (s : string) : str := N_of_ascii <$> list_ascii_of_string s.

(** Only the empty string is falsy. *)
Definition truthy_str (s : str) : bool :=
  match s with [] => false | _ :: _ => true end.

(** [a || b] where [a] may be [undefined]/[null] ([None]) or a string. *)
Definition or_else (a b : option str) : option str :=
  match a with
  | Some s => if truthy_str s then Some s else b
  | None => b
  end.

(** [a || 'text']: the right operand is a literal, the result a string. *)
Definition or_default (a : option str) (d : str) : str :=
  match a with
  | Some s => if truthy_str s then s else d
  | None => d
  end.

(** The code units removed by [String.prototype.trim]: WhiteSpace (TAB, VT,
    FF, SP, NBSP, ZWNBSP and category Zs) and LineTerminator (LF, CR, LS,
    PS). *)
Definition is_js_whitespace (c : N) : bool :=
  bool_decide (c ∈ [9; 10; 11; 12; 13; 32; 160; 5760; 8232; 8233; 8239; 8287;
                    12288; 65279])
  || ((8192 <=? c) && (c <=? 8202)).

Fixpoint trimStart (s : str) : str :=
  match s with
  | c :: s' => if is_js_whitespace c then trimStart s' else s
  | [] => []
  end.

Definition trim (s : str) : str := reverse (trimStart (reverse (trimStart s))).

(** [s.split(sep)[0]] for a one-unit separator: the part before its first
    occurrence, the whole string when there is none. *)
Fixpoint split_first (sep : N) (s : str) : str :=
  match s with
  | [] => []
  | c :: s' => if bool_decide (c = sep) then [] else c :: split_first sep s'
  end.

(** [s.substring(0, n)]. *)
Definition substring0 (n : nat) (s : str) : str := take n s.

Fixpoint startsWith (p s : str) : bool :=
  match p, s with
  | [], _ => true
  | _ :: _, [] => false
  | a :: p', b :: s' => bool_decide (a = b) && startsWith p' s'
  end.

(** [s.includes(needle)]. *)
Fixpoint includes (s needle : str) : bool :=
  startsWith needle s
  || match s with [] => false | _ :: s' => includes s' needle end.

(** ** JavaScript numbers

    Only what the portal does with the auditor's amount matters here: it is
    read with [parseFloat], tested with [isNaN] and for truthiness.  A
    finite number is kept as an exact decimal [m * 10^e]; rounding to
    binary64 is not modelled. *)

Inductive number : Type :=
| NaN
| Infinity (negative : bool)
| Dec (m e : Z).

Definition isNaN (x : number) : bool :=
  match x with NaN => true | _ => false end.

(** [0], [-0] and [NaN] are the falsy numbers. *)
Definition truthy_num (x : number) : bool :=
  match x with
  | NaN => false
  | Infinity _ => true
  | Dec m _ => negb (m =? 0)%Z
  end.

Definition digit_of (c : N) : option Z :=
  if (48 <=? c) && (c <=? 57) then Some (Z.of_N c - 48)%Z else None.

(** Reads a run of decimal digits onto [acc]; returns the value, the number
    of digits read and the rest of the input. *)
Fixpoint read_digits (s : str) (acc count : Z) : Z * Z * str :=
  match s with
  | c :: s' =>
      match digit_of c with
      | Some d => read_digits s' (10 * acc + d)%Z (count + 1)%Z
      | None => (acc, count, s)
      end
  | [] => (acc, count, [])
  end.

Definition read_sign (s : str) : bool * str :=
  match s with
  | 45 :: r => (true, r)
  | 43 :: r => (false, r)
  | _ => (false, s)
  end.

Definition read_exponent (s : str) : Z :=
  match s with
  | c :: r =>
      if bool_decide (c = 101) || bool_decide (c = 69) then
        let '(neg, r1) := read_sign r in
        let '(v, k, _) := read_digits r1 0 0 in
        if (k =? 0)%Z then 0%Z else if neg then (- v)%Z else v
      else 0%Z
  | [] => 0%Z
  end.

(** [parseFloat] on the decimal literals of the language: leading white
    space, a sign, then [Infinity] or digits with an optional fraction and
    exponent; the longest such prefix is read, [NaN] when there is none. *)
Definition parseFloat_dec (s : str) : number :=
  let '(neg, s2) := read_sign (trimStart s) in
  if startsWith (lit "Infinity") s2 then Infinity neg else
  let '(ip, ni, s3) := read_digits s2 0 0 in
  let '(m, nf, s4) :=
    match s3 with
    | 46 :: r => read_digits r ip 0
    | _ => (ip, 0%Z, s3)
    end in
  if (ni + nf =? 0)%Z then NaN
  else Dec (if neg then - m else m)%Z (read_exponent s4 - nf)%Z.

(** [arr[i]] for a numeric index: [undefined] outside the array. *)
Definition js_index {A} (l : list A) (i : Z) : option A :=
  if (i <? 0)%Z then None else l !! Z.to_nat i.

(** [arr.length <= i] *)
Definition length_le {A} (l : list A) (i : Z) : bool :=
  (Z.of_nat (List.length l) <=? i)%Z.

(** [arr.find(p)] *)
Definition js_find {A} (p : A → bool) (l : list A) : option A :=
  List.find p l.

(** ** The data model ([types.ts]) *)

Inductive UserRole : Type := ADMIN | APPROVER.

Record User : Type := mkUser {
  u_id : str;
  u_email : str;
  u_role : UserRole;
  u_fullName : option str
}.

Inductive RequestType : Type := DIESEL | PROCUREMENT | LEAVE | ITEM | STORE.

Inductive ApprovalStatus : Type :=
  PENDING | APPROVED | REJECTED | SENT_BACK | COMPLETED.

#[global] Instance UserRole_eq_dec : EqDecision UserRole.
Proof. solve_decision. Defined.
#[global] Instance RequestType_eq_dec : EqDecision RequestType.
Proof. solve_decision. Defined.
#[global] Instance ApprovalStatus_eq_dec : EqDecision ApprovalStatus.
Proof. solve_decision. Defined.

(** The string value of each member of the enum. *)
Definition ApprovalStatus_value (s : ApprovalStatus) : str :=
  match s with
  | PENDING => lit "Pending"
  | APPROVED => lit "Approved"
  | REJECTED => lit "Rejected"
  | SENT_BACK => lit "Sent Back for Correction"
  | COMPLETED => lit "Completed"
  end.

Record Approver : Type := mkApprover {
  a_userId : str;
  a_userEmail : option str;
  a_status : ApprovalStatus;
  a_comments : option str;
  a_approvedAt : option str;
  a_signature : option str;
  a_hodComments : option str;
  a_internalAuditComments : option str;
  a_finalAmount : option number
}.

Record PdfComment : Type := mkPdfComment {
  c_id : option Z;
  c_requestId : str;
  c_userId : str;
  c_userEmail : option str;
  c_comment : option str;
  c_createdAt : str
}.

(** A value of the open [details] mapping. *)
Inductive any : Type :=
| AnyString (s : str)
| AnyNumber (x : number)
| AnyOther.

(** The fields of [Request] the workflow reads or forwards; the transient
    [file] and the [annotations] of the viewer are left out. *)
Record Request : Type := mkRequest {
  r_id : str;
  r_requesterId : str;
  r_requesterName : str;
  r_type : RequestType;
  r_details : gmap str any;
  r_status : ApprovalStatus;
  r_approvalQueue : list Approver;
  r_currentApproverIndex : Z;
  r_createdAt : str;
  r_fileName : option str;
  r_fileURL : option str;
  r_pdfComments : list PdfComment;
  r_requesterSignature : option str;
  r_vendorId : option str
}.

Record Notification : Type := mkNotification {
  n_id : str;
  n_message : str;
  n_requestId : str;
  n_isRead : bool;
  n_createdAt : str
}.

(** [currentUser?.id === x] where [x] may be missing: true only for a
    signed-in user whose id is the string [x]. *)
Definition id_is (currentUser : option User) (x : option str) : bool :=
  match currentUser, x with
  | Some u, Some i => bool_decide (u_id u = i)
  | _, _ => false
  end.

(** [request.details?.selectedHODId] as far as [===] with a string can
    tell: a string, or nothing. *)
Definition selectedHODId (request : Request) : option str :=
  match r_details request !! lit "selectedHODId" with
  | Some (AnyString s) => Some s
  | _ => None
  end.

(** ** Remote calls

    The client talks to the database through [supabase.rpc], table inserts
    and storage uploads.  Each one is awaited and answers with an [error]
    field, or throws. *)

Record SupabaseError : Type := mkError { message : str }.

Record File : Type := mkFile { file_name : str }.

Record ApproverForDb : Type := mkApproverForDb {
  user_id : str;
  user_email : option str;
  status : ApprovalStatus
}.

Record HandleRequestActionArgs : Type := mkHandleArgs {
  p_request_id : str;
  p_action : ApprovalStatus;
  p_comments : option str;
  p_signature : str;
  p_hod_comments : option str;
  p_internal_audit_comments : option str;
  p_final_amount : option number
}.

Record ResubmitArgs : Type := mkResubmitArgs {
  rs_request_id : str;
  rs_requester_name : str;
  rs_details : gmap str any;
  rs_approval_queue : list ApproverForDb;
  rs_vendor_id : option str;
  rs_file_url : option str;
  rs_file_name : option str;
  rs_requester_signature : option str
}.

Record RequestForDb : Type := mkRequestForDb {
  requester_id : str;
  requester_name : str;
  db_type : RequestType;
  db_details : gmap str any;
  db_status : ApprovalStatus;
  approval_queue : list ApproverForDb;
  current_approver_index : Z;
  file_url : str;
  db_file_name : str;
  requester_signature : option str;
  vendor_id : option str
}.

Inductive Call : Type :=
| rpc_handle_request_action (args : HandleRequestActionArgs)
| rpc_resubmit_request_as_admin (args : ResubmitArgs)
| rpc_update_item_request_status_as_admin (request_id : str)
    (new_status : ApprovalStatus)
| insert_request (row : RequestForDb)
| storage_upload (path : str) (file : File).

Inductive Outcome : Type :=
| Answered (error : option SupabaseError)
| Thrown (e : SupabaseError).

(** A client computation: it returns, or awaits a call and goes on with
    its outcome. *)
Inductive Client (A : Type) : Type :=
| Ret (a : A)
| Await (c : Call) (k : Outcome → Client A).

Arguments Ret {A} a.
Arguments Await {A} c k.

(** Runs a client computation against a server holding a state [Db]. *)
Fixpoint run {Db A} (server : Call → Db → Db * Outcome) (c : Client A)
    (db : Db) : Db * A :=
  match c with
  | Ret a => (db, a)
  | Await call k =>
      let '(db', o) := server call db in run server (k o) db'
  end.

(** The calls a client computation makes against a given server, in
    order. *)
Fixpoint calls {Db A} (server : Call → Db → Db * Outcome) (c : Client A)
    (db : Db) : list Call :=
  match c with
  | Ret _ => []
  | Await call k =>
      let '(db', o) := server call db in call :: calls server (k o) db'
  end.

(** The call a client computation is waiting for, if it has not returned. *)
Definition awaited {A} (c : Client A) : option Call :=
  match c with
  | Ret _ => None
  | Await call _ => Some call
  end.

Record Result : Type := mkResult { success : bool; error : option str }.

(** ** [RequestContext.tsx] *)

Definition parseSupabaseError (error : SupabaseError) (context : str) : str :=
  if includes (message error) (lit "security violation")
     || includes (message error) (lit "permission denied")
  then lit "Permission Denied: You do not have the required permissions to perform this action. Please contact an administrator. (Context: "
         ++ context ++ lit ")"
  else lit "A database error occurred. Please try again. (Details: "
         ++ message error ++ lit ")".

(** [offline] stands for [typeof navigator !== 'undefined' &&
    !navigator.onLine]. *)
Definition parseNetworkError (offline : bool) (error : SupabaseError)
    (context : str) : str :=
  if bool_decide (message error = lit "Failed to fetch") && offline
  then lit "You appear to be offline. Please check your internet connection. (Context: "
         ++ context ++ lit ")"
  else lit "A network error occurred. Please check your internet connection or browser extensions. (Context: "
         ++ context ++ lit ", Details: " ++ message error ++ lit ")".

(** The tail every operation of the context shares: report the error of
    the call, or success. [refreshData] only schedules a new fetch. *)
Definition report (offline : bool) (context : str) (o : Outcome) : Result :=
  match o with
  | Answered (Some e) => mkResult false (Some (parseSupabaseError e context))
  | Answered None => mkResult true None
  | Thrown e => mkResult false (Some (parseNetworkError offline e context))
  end.

Definition getUserById (users : list User) (id : str) : option User :=
  js_find (λ u, bool_decide (u_id u = id)) users.

Record AuditDetails : Type := mkAuditDetails {
  internalAuditComments : option str;
  finalAmount : option number
}.

(** [x || null] for an optional number. *)
Definition num_or_null (x : option number) : option number :=
  match x with
  | Some v => if truthy_num v then Some v else None
  | None => None
  end.

Definition updateRequestStatus (offline : bool) (requestId approverId : str)
    (action : ApprovalStatus) (comments signature : str)
    (hodComments : option str) (auditDetails : option AuditDetails)
    : Client Result :=
  Await
    (rpc_handle_request_action {|
       p_request_id := requestId;
       p_action := action;
       p_comments := or_else (Some comments) None;
       p_signature := signature;
       p_hod_comments := or_else hodComments None;
       p_internal_audit_comments :=
         or_else (auditDetails ≫= internalAuditComments) None;
       p_final_amount := num_or_null (auditDetails ≫= finalAmount) |})
    (λ o, Ret (report offline (lit "update request status") o)).

Definition updateItemRequestStatus (offline : bool) (requestId : str)
    (newStatus : ApprovalStatus) : Client Result :=
  Await (rpc_update_item_request_status_as_admin requestId newStatus)
    (λ o, Ret (report offline (lit "update item request status") o)).

(** The optional upload both [addRequest] and [updateRequest] start with.
    [now] is [Date.now()] as text, [getPublicUrl] the storage's URL scheme;
    [k] receives the URL and name to store. *)
Definition with_upload {A} (getPublicUrl : str → str) (now : str)
    (currentUser : User) (file : option File) (fileURL fileName : str)
    (on_upload_error : SupabaseError → A) (on_throw : SupabaseError → A)
    (k : str → str → Client A) : Client A :=
  match file with
  | Some f =>
      let filePath := u_id currentUser ++ lit "/" ++ now ++ lit "_" ++ file_name f in
      Await (storage_upload filePath f) (λ o,
        match o with
        | Answered (Some uploadError) => Ret (on_upload_error uploadError)
        | Answered None => k (getPublicUrl filePath) (file_name f)
        | Thrown e => Ret (on_throw e)
        end)
  | None => k fileURL fileName
  end.

(** The draft [addRequest] receives: a [Request] without [id],
    [createdAt], [status], [currentApproverIndex] and [pdfComments]. *)
Definition addRequest (offline : bool) (getPublicUrl : str → str) (now : str)
    (currentUser : option User) (users : list User)
    (newRequestData : Request) (file : option File) : Client Result :=
  match currentUser with
  | None => Ret (mkResult false (Some (lit "User not authenticated")))
  | Some cu =>
      with_upload getPublicUrl now cu file [] []
        (λ e, mkResult false (Some (parseSupabaseError e (lit "file upload"))))
        (λ e, mkResult false (Some (parseNetworkError offline e (lit "add request"))))
        (λ fileURL fileName,
          let approvalQueueForDb :=
            (λ approver,
               let user := getUserById users (a_userId approver) in
               {| user_id := a_userId approver;
                  user_email := or_else (a_userEmail approver) (u_email <$> user);
                  status := a_status approver |})
            <$> r_approvalQueue newRequestData in
          Await
            (insert_request {|
               requester_id := r_requesterId newRequestData;
               requester_name := r_requesterName newRequestData;
               db_type := r_type newRequestData;
               db_details := r_details newRequestData;
               db_status := PENDING;
               approval_queue := approvalQueueForDb;
               current_approver_index := 0;
               file_url := fileURL;
               db_file_name := fileName;
               requester_signature := r_requesterSignature newRequestData;
               vendor_id := r_vendorId newRequestData |})
            (λ o, Ret (report offline (lit "add request") o)))
  end.

Definition updateRequest (offline : bool) (getPublicUrl : str → str) (now : str)
    (currentUser : option User) (users : list User)
    (updatedRequestData : Request) (file : option File) : Client Result :=
  match currentUser with
  | None => Ret (mkResult false (Some (lit "User not authenticated")))
  | Some cu =>
      with_upload getPublicUrl now cu file
        (or_default (r_fileURL updatedRequestData) [])
        (or_default (r_fileName updatedRequestData) [])
        (λ e, mkResult false (Some (parseSupabaseError e (lit "file upload on update"))))
        (λ e, mkResult false (Some (parseNetworkError offline e (lit "update request"))))
        (λ fileURL fileName,
          let approvalQueueForDb :=
            (λ approver,
               let user := getUserById users (a_userId approver) in
               {| user_id := a_userId approver;
                  user_email := or_else (u_email <$> user) (a_userEmail approver);
                  status := PENDING |})
            <$> r_approvalQueue updatedRequestData in
          Await
            (rpc_resubmit_request_as_admin {|
               rs_request_id := r_id updatedRequestData;
               rs_requester_name := r_requesterName updatedRequestData;
               rs_details := r_details updatedRequestData;
               rs_approval_queue := approvalQueueForDb;
               rs_vendor_id := or_else (r_vendorId updatedRequestData) None;
               rs_file_url := or_else (Some fileURL) None;
               rs_file_name := or_else (Some fileName) None;
               rs_requester_signature := r_requesterSignature updatedRequestData |})
            (λ o, Ret (report offline (lit "update request") o)))
  end.

Fixpoint bind {A B} (c : Client A) (f : A → Client B) : Client B :=
  match c with
  | Ret a => f a
  | Await call k => Await call (λ o, bind (k o) f)
  end.

(** ** [RequestDetailsModal.tsx] *)

Definition AUDITOR_EMAIL : str := lit "auditorzankli@gmail.com".

Definition isAdmin (currentUser : option User) : bool :=
  match currentUser with
  | Some cu => bool_decide (u_role cu = ADMIN)
  | None => false
  end.

Definition AUDITOR_ID (users : list User) : option str :=
  u_id <$> js_find (λ u, bool_decide (u_email u = AUDITOR_EMAIL)) users.

Definition isCurrentUserApprover (currentUser : option User)
    (request : Request) : bool :=
  match currentUser with
  | None => false
  | Some cu =>
      if negb (bool_decide (r_status request = PENDING)) then false
      else if bool_decide (r_type request = ITEM) then false
      else if length_le (r_approvalQueue request)
                (r_currentApproverIndex request) then false
      else
        match js_index (r_approvalQueue request)
                (r_currentApproverIndex request) with
        | Some currentApprover =>
            bool_decide (a_userId currentApprover = u_id cu)
        | None => false
        end
  end.

Definition isHOD (currentUser : option User) (request : Request) : bool :=
  bool_decide (r_type request = LEAVE)
  && isCurrentUserApprover currentUser request
  && id_is currentUser (selectedHODId request).

Definition isAuditor (currentUser : option User) (users : list User)
    (request : Request) : bool :=
  isCurrentUserApprover currentUser request
  && id_is currentUser (AUDITOR_ID users).

(** The state of the modal [handleAction] reads: the four text inputs and
    what [signaturePadRef.current?.getSignature()] answers. *)
Record ModalState : Type := mkModalState {
  st_comments : str;
  st_hodComments : str;
  st_internalAuditComments : str;
  st_finalAmount : str;
  st_signature : option str
}.

Inductive ActionOutcome : Type :=
| Ignored
| ActionError (actionError : option str)
| Closed.

(** The [auditDetails] object [handleAction] builds. *)
Definition handleAction_auditDetails (parseFloat : str → number)
    (isAuditor : bool) (st : ModalState) : option AuditDetails :=
  let parsedFinalAmount := parseFloat (st_finalAmount st) in
  if isAuditor then
    Some {| internalAuditComments := Some (st_internalAuditComments st);
            finalAmount :=
              if negb (truthy_str (st_finalAmount st))
                 || isNaN parsedFinalAmount
              then None else Some parsedFinalAmount |}
  else None.

Definition handleAction (parseFloat : str → number) (offline : bool)
    (currentUser : option User) (users : list User) (request : Request)
    (st : ModalState) (status : ApprovalStatus) : Client ActionOutcome :=
  match currentUser with
  | None => Ret Ignored
  | Some cu =>
      match st_signature st with
      | Some (c :: s) =>
          let signature := c :: s in
          if bool_decide (status = SENT_BACK)
             && negb (truthy_str (trim (st_comments st)))
          then Ret (ActionError (Some (lit
                 "Comments are required when sending a request back for correction.")))
          else
            let auditDetails :=
              handleAction_auditDetails parseFloat
                (isAuditor currentUser users request) st in
            bind
              (updateRequestStatus offline (r_id request) (u_id cu) status
                 (st_comments st) signature
                 (if isHOD currentUser request
                  then Some (st_hodComments st) else None)
                 auditDetails)
              (λ result,
                 if success result then Ret Closed
                 else Ret (ActionError (error result)))
      | _ => Ret (ActionError (Some (lit
               "Please provide your signature to complete this action.")))
      end
  end.

(** The conditions under which the modal renders its three footers. *)
Definition showsTakeAction (currentUser : option User) (request : Request)
    : bool :=
  isCurrentUserApprover currentUser request
  && bool_decide (r_status request = PENDING).

Definition showsEditRequest (currentUser : option User) (request : Request)
    (onEdit : bool) : bool :=
  isAdmin currentUser && bool_decide (r_status request = SENT_BACK) && onEdit.

Definition showsCreateProcurement (currentUser : option User)
    (request : Request) (onCreateProcurement : bool) : bool :=
  isAdmin currentUser && bool_decide (r_type request = ITEM)
  && bool_decide (r_status request = PENDING) && onCreateProcurement.

(** ** [RequestForm.tsx]: the request [handleSubmit] passes to
    [updateRequest] in edit mode, once the form has been validated. *)
Definition handleSubmit_updatedRequest (requestToEdit : Request)
    (requestType : RequestType) (requesterName : str)
    (requestDetails : gmap str any) (approvalQueue : list User)
    (signature vendorId : str) : Request :=
  {| r_id := r_id requestToEdit;
     r_requesterId := r_requesterId requestToEdit;
     r_requesterName := requesterName;
     r_type := r_type requestToEdit;
     r_details := requestDetails;
     r_status := r_status requestToEdit;
     r_approvalQueue :=
       (λ u, mkApprover (u_id u) (Some (u_email u)) PENDING
               None None None None None None) <$> approvalQueue;
     r_currentApproverIndex := r_currentApproverIndex requestToEdit;
     r_createdAt := r_createdAt requestToEdit;
     r_fileName := r_fileName requestToEdit;
     r_fileURL := r_fileURL requestToEdit;
     r_pdfComments := r_pdfComments requestToEdit;
     r_requesterSignature := Some signature;
     r_vendorId :=
       if bool_decide (requestType ∈ [DIESEL; PROCUREMENT])
       then Some vendorId else None |}.

(** ** [Dashboard.tsx]: the notifications effect *)

(** [Array.prototype.sort] with a comparator is stable; for a comparator
    that orders the array consistently its result is the stable sorted
    arrangement, computed here by insertion from the right.  [x] moves
    behind [y] only when [cmp x y > 0]. *)
Fixpoint sort_insert {A} (cmp : A → A → Z) (x : A) (l : list A) : list A :=
  match l with
  | [] => [x]
  | y :: l' => if (0 <? cmp x y)%Z then y :: sort_insert cmp x l' else x :: l
  end.

Definition js_sort {A} (cmp : A → A → Z) (l : list A) : list A :=
  foldr (sort_insert cmp) [] l.

(** [new Date(b.createdAt).getTime() - new Date(a.createdAt).getTime()];
    [getTime] answers [None] for [NaN], and a [NaN] difference counts as
    [+0] in a sort. *)
Definition byCreatedAtDesc (getTime : str → option Z) (a b : Notification)
    : Z :=
  match getTime (n_createdAt b), getTime (n_createdAt a) with
  | Some tb, Some ta => (tb - ta)%Z
  | _, _ => 0%Z
  end.

Definition commentNotification (currentUser : User) (users : list User)
    (readNotifIds : list str) (req : Request) (comment : PdfComment)
    : list Notification :=
  if bool_decide (c_userId comment = u_id currentUser) then []
  else
    let notifId :=
      lit "notif-comment-" ++ r_id req ++ lit "-" ++ c_createdAt comment in
    let commenterName :=
      or_default
        (or_else (split_first 64 <$> c_userEmail comment)
           (split_first 64 <$> (u_email <$> getUserById users (c_userId comment))))
        (lit "a user") in
    let message :=
      lit "New comment on " ++ r_id req ++ lit " from " ++ commenterName
      ++ lit ": " ++ [34]
      ++ or_default (substring0 40 <$> c_comment comment) []
      ++ lit "..." ++ [34] in
    [ {| n_id := notifId;
         n_requestId := r_id req;
         n_message := message;
         n_isRead := bool_decide (notifId ∈ readNotifIds);
         n_createdAt := c_createdAt comment |} ].

(** What one iteration of [requests.forEach] pushes. *)
Definition requestNotifications (currentUser : User) (users : list User)
    (readNotifIds : list str) (req : Request) : list Notification :=
  let baseNotifId :=
    lit "notif-" ++ r_id req ++ lit "-" ++ ApprovalStatus_value (r_status req) in
  (if bool_decide (u_role currentUser = APPROVER)
      && bool_decide (r_status req = PENDING)
      && (r_currentApproverIndex req <? Z.of_nat (List.length (r_approvalQueue req)))%Z
   then
     let isTheirTurn :=
       match js_index (r_approvalQueue req) (r_currentApproverIndex req) with
       | Some a => bool_decide (a_userId a = u_id currentUser)
       | None => false
       end in
     if isTheirTurn then
       let notifId := baseNotifId ++ lit "-" ++ u_id currentUser in
       [ {| n_id := notifId;
            n_requestId := r_id req;
            n_message := lit "New request awaiting your approval: " ++ r_id req;
            n_isRead := bool_decide (notifId ∈ readNotifIds);
            n_createdAt := r_createdAt req |} ]
     else []
   else [])
  ++
  (if bool_decide (u_role currentUser = ADMIN) then
     (if bool_decide (r_status req ∈ [SENT_BACK; REJECTED; COMPLETED]) then
        [ {| n_id := baseNotifId;
             n_requestId := r_id req;
             n_message := lit "Request " ++ r_id req ++ lit " has been "
                          ++ ApprovalStatus_value (r_status req) ++ lit ".";
             n_isRead := bool_decide (baseNotifId ∈ readNotifIds);
             n_createdAt := r_createdAt req |} ]
      else [])
     ++ (r_pdfComments req ≫= commentNotification currentUser users readNotifIds req)
   else []).

Definition generatedNotifs (currentUser : User) (users : list User)
    (readNotifIds : list str) (requests : list Request) : list Notification :=
  requests ≫= requestNotifications currentUser users readNotifIds.

(** [JSON.parse(localStorage.getItem(`zmc-read-notifs-${currentUser.id}`)
    || '[]')]: the stored array of the viewer, empty when there is none. *)
Definition readNotifIds (localStorage : gmap str (list str))
    (currentUser : User) : list str :=
  default [] (localStorage !! (lit "zmc-read-notifs-" ++ u_id currentUser)).

(** What the effect hands to [setNotifications]. *)
Definition sortedNotifs (getTime : str → option Z) (currentUser : User)
    (users : list User) (readIds : list str) (requests : list Request)
    : list Notification :=
  js_sort (byCreatedAtDesc getTime)
    (generatedNotifs currentUser users readIds requests).

(** The state the effect works on: the [notifications] of the component
    and the browser's [localStorage]. *)
Record DashboardState : Type := mkDashboardState {
  notifications : list Notification;
  localStorage : gmap str (list str)
}.

(** The effect: without a signed-in user it returns at once; otherwise the
    sorted list replaces [notifications]. *)
Definition notificationsEffect (getTime : str → option Z)
    (currentUser : option User) (users : list User)
    (requests : list Request) (st : DashboardState) : DashboardState :=
  match currentUser with
  | None => st
  | Some cu =>
      {| notifications :=
           sortedNotifs getTime cu users
             (readNotifIds (localStorage st) cu) requests;
         localStorage := localStorage st |}
  end.

(** ** [RequestList.tsx] *)

(** The label and the address [renderWorkflowStatus] displays, if any. *)
Definition renderWorkflowStatus (request : Request) : option (str * str) :=
  let approvalQueue := r_approvalQueue request in
  match approvalQueue with
  | [] => None
  | _ :: _ =>
      let chosen :=
        match r_status request with
        | PENDING =>
            Some (js_index approvalQueue (r_currentApproverIndex request),
                  lit "Next Approver")
        | APPROVED => Some (last approvalQueue, lit "Final Approver")
        | REJECTED =>
            Some (js_find (λ a, bool_decide (a_status a = REJECTED)) approvalQueue,
                  lit "Rejected By")
        | SENT_BACK =>
            Some (js_find (λ a, bool_decide (a_status a = SENT_BACK)) approvalQueue,
                  lit "Sent Back By")
        | COMPLETED => None
        end in
      match chosen with
      | Some (Some approverAction, label) =>
          Some (label, or_default (a_userEmail approverAction) (lit "N/A"))
      | _ => None
      end
  end.

(** * Workflow service

    The procedures behind the remote calls are not in the TypeScript
    sources; the definitions of this part follow the specification of the
    approval engine and of the workflow service. *)

(** Modelled from the spec: the three actions of the approval engine (the
    server side of [handle_request_action] is missing). *)
Inductive Action : Type := Approve | Reject | SendBack.

#[global] Instance Action_eq_dec : EqDecision Action.
Proof. solve_decision. Defined.

(** Modelled from the spec: the error kinds of the engine and the service
    (raised by the missing database procedures). *)
Inductive ErrorKind : Type :=
  NotAuthorized | InvalidTransition | StaleState | NotFound | Unavailable.

#[global] Instance ErrorKind_eq_dec : EqDecision ErrorKind.
Proof. solve_decision. Defined.

(** Modelled from the spec: the payload of an action (the server side of
    [handle_request_action] is missing).  [timestamp] is the action's
    timestamp. *)
Record Payload : Type := mkPayload {
  comments : str;
  signature : str;
  hodComments : option str;
  auditComments : option str;
  auditAmount : option number;
  timestamp : str
}.

(** Modelled from the spec: the two readings the specification leaves open
    for a role-conditioned field sent by an actor who is not entitled to it
    (the policy of the missing [handle_request_action]). *)
Inductive FieldPolicy : Type := IgnoreField | RejectAction.

(** Modelled from the spec: the caller's authenticated identity, from which
    the service takes the actor (session handling is missing). *)
Record Session : Type := mkSession { session_user : User }.

Definition actorId (s : Session) : str := u_id (session_user s).

(** Modelled from the spec: the status an action gives the acting entry
    (transition table of the missing [handle_request_action]). *)
Definition entry_status (action : Action) : ApprovalStatus :=
  match action with
  | Approve => APPROVED
  | Reject => REJECTED
  | SendBack => SENT_BACK
  end.

(** Modelled from the spec: who may set [hodComments] (the actor named by
    the designated-HOD reference of a Leave request) and who may set the
    audit fields (the directory-resolved auditor identity), for the missing
    [handle_request_action]. *)
Definition entitled_hod (request : Request) (actor : str) : bool :=
  bool_decide (r_type request = LEAVE)
  && bool_decide (selectedHODId request = Some actor).

(** Modelled from the spec: the audit fields belong to the
    directory-resolved auditor identity (checked by the missing
    [handle_request_action]). *)
Definition entitled_auditor (auditor : option str) (actor : str) : bool :=
  bool_decide (auditor = Some actor).

(** Modelled from the spec: precondition 6 of the missing
    [handle_request_action]; a field from an actor not entitled to it is
    dropped or makes the action fail, by policy. *)
Definition role_field {A} (policy : FieldPolicy) (entitled : bool)
    (field : option A) : ErrorKind + option A :=
  match field with
  | None => inr None
  | Some v =>
      if entitled then inr (Some v)
      else match policy with
           | IgnoreField => inr None
           | RejectAction => inl NotAuthorized
           end
  end.

(** Modelled from the spec: the approval engine's pure function
    [transition(request, actorId, action, payload)] (the missing
    [handle_request_action]).  Preconditions 1 to 6 are checked in the
    order the specification lists them, before anything is built; an index
    outside the queue is reported as [InvalidTransition]. *)
Definition transition (policy : FieldPolicy) (auditor : option str)
    (request : Request) (actor : str) (action : Action) (payload : Payload)
    : ErrorKind + Request :=
  if negb (bool_decide (r_status request = PENDING)) then inl InvalidTransition
  else
    match js_index (r_approvalQueue request) (r_currentApproverIndex request) with
    | None => inl InvalidTransition
    | Some entry =>
        if negb (bool_decide (actor = a_userId entry)) then inl NotAuthorized
        else if negb (truthy_str (signature payload)) then inl InvalidTransition
        else if bool_decide (action = SendBack)
                && negb (truthy_str (comments payload))
        then inl InvalidTransition
        else
          match role_field policy (entitled_hod request actor) (hodComments payload),
                role_field policy (entitled_auditor auditor actor) (auditComments payload),
                role_field policy (entitled_auditor auditor actor) (auditAmount payload)
          with
          | inr hod, inr ac, inr am =>
              let index := r_currentApproverIndex request in
              let entry' :=
                {| a_userId := a_userId entry;
                   a_userEmail := a_userEmail entry;
                   a_status := entry_status action;
                   a_comments := Some (comments payload);
                   a_approvedAt := Some (timestamp payload);
                   a_signature := Some (signature payload);
                   a_hodComments := hod;
                   a_internalAuditComments := ac;
                   a_finalAmount := am |} in
              let queue' := <[Z.to_nat index := entry']> (r_approvalQueue request) in
              let index' :=
                match action with Approve => (index + 1)%Z | _ => index end in
              let status' :=
                match action with
                | Approve =>
                    if (index + 1 =? Z.of_nat (List.length (r_approvalQueue request)))%Z
                    then APPROVED else PENDING
                | Reject => REJECTED
                | SendBack => SENT_BACK
                end in
              inr {| r_id := r_id request;
                     r_requesterId := r_requesterId request;
                     r_requesterName := r_requesterName request;
                     r_type := r_type request;
                     r_details := r_details request;
                     r_status := status';
                     r_approvalQueue := queue';
                     r_currentApproverIndex := index';
                     r_createdAt := r_createdAt request;
                     r_fileName := r_fileName request;
                     r_fileURL := r_fileURL request;
                     r_pdfComments := r_pdfComments request;
                     r_requesterSignature := r_requesterSignature request;
                     r_vendorId := r_vendorId request |}
          | inl e, _, _ => inl e
          | _, inl e, _ => inl e
          | _, _, inl e => inl e
          end
    end.

(** Modelled from the spec: the Request Store's
    [conditionalUpdate(requestId, expectedIndex, expectedStatus, mutator)]
    (the store behind the missing procedures): one atomic write, refused
    when the stored index or status is not the expected one. *)
Definition conditionalUpdate (store : gmap str Request) (requestId : str)
    (expectedIndex : Z) (expectedStatus : ApprovalStatus)
    (mutator : Request → Request) : gmap str Request * (ErrorKind + Request) :=
  match store !! requestId with
  | None => (store, inl NotFound)
  | Some current =>
      if bool_decide (r_currentApproverIndex current = expectedIndex)
         && bool_decide (r_status current = expectedStatus)
      then let updated := mutator current in
           (<[requestId := updated]> store, inr updated)
      else (store, inl StaleState)
  end.

(** Modelled from the spec: one call of the Workflow Service's
    [apply(requestId, actorId, action)] (the missing
    [handle_request_action]); the actor is the session's user. *)
Record ApplyCall : Type := mkApplyCall {
  call_session : Session;
  call_requestId : str;
  call_action : Action;
  call_payload : Payload
}.

(** Modelled from the spec: the first half of [apply], loading the request
    (missing [handle_request_action]). *)
Definition load (store : gmap str Request) (call : ApplyCall)
    : option Request :=
  store !! call_requestId call.

(** Modelled from the spec: the second half of [apply] (missing
    [handle_request_action]).  The new state is computed from the loaded
    request, entirely before the single conditional write, which is keyed
    on the request id and the index and status that were loaded. *)
Definition commit (policy : FieldPolicy) (auditor : option str)
    (call : ApplyCall) (loaded : option Request) (store : gmap str Request)
    : gmap str Request * (ErrorKind + Request) :=
  match loaded with
  | None => (store, inl NotFound)
  | Some request =>
      match transition policy auditor request (actorId (call_session call))
              (call_action call) (call_payload call) with
      | inl e => (store, inl e)
      | inr request' =>
          conditionalUpdate store (call_requestId call)
            (r_currentApproverIndex request) (r_status request)
            (λ _, request')
      end
  end.

(** Modelled from the spec: [apply] run without interference, load then
    commit (missing [handle_request_action]). *)
Definition apply (policy : FieldPolicy) (auditor : option str)
    (call : ApplyCall) (store : gmap str Request)
    : gmap str Request * (ErrorKind + Request) :=
  commit policy auditor call (load store call) store.

(** Modelled from the spec: a queue entry as created or reset, with status
    Pending and nothing else recorded (missing [resubmit_request_as_admin]
    and the insert behind [addRequest]). *)
Definition fresh_entry (a : ApproverForDb) : Approver :=
  mkApprover (user_id a) (user_email a) PENDING None None None None None None.

(** Modelled from the spec: [submit(newRequestDraft, attachment?)] (the
    insert is performed by the database, which is missing).  The service
    assigns [newId] and [createdAt]; an id already in use is reported as
    [Unavailable]. *)
Definition submit (newId createdAt : str) (draft : RequestForDb)
    (store : gmap str Request) : gmap str Request * (ErrorKind + Request) :=
  match store !! newId with
  | Some _ => (store, inl Unavailable)
  | None =>
      let request :=
        {| r_id := newId;
           r_requesterId := requester_id draft;
           r_requesterName := requester_name draft;
           r_type := db_type draft;
           r_details := db_details draft;
           r_status := PENDING;
           r_approvalQueue :=
             if bool_decide (db_type draft = ITEM) then []
             else fresh_entry <$> approval_queue draft;
           r_currentApproverIndex := 0;
           r_createdAt := createdAt;
           r_fileName := Some (db_file_name draft);
           r_fileURL := Some (file_url draft);
           r_pdfComments := [];
           r_requesterSignature := requester_signature draft;
           r_vendorId := vendor_id draft |} in
      (<[newId := request]> store, inr request)
  end.

(** Modelled from the spec: [resubmit(requestId, updatedDraft, actorId)]
    (the missing [resubmit_request_as_admin]).  The authorization check
    comes first, then the status check. *)
Definition resubmit (session : Session) (draft : ResubmitArgs)
    (store : gmap str Request) : gmap str Request * (ErrorKind + Request) :=
  match store !! rs_request_id draft with
  | None => (store, inl NotFound)
  | Some current =>
      if negb (bool_decide (u_role (session_user session) = ADMIN))
      then (store, inl NotAuthorized)
      else if negb (bool_decide (r_status current = SENT_BACK))
      then (store, inl InvalidTransition)
      else
        conditionalUpdate store (rs_request_id draft)
          (r_currentApproverIndex current) SENT_BACK
          (λ stored,
             {| r_id := r_id stored;
                r_requesterId := r_requesterId stored;
                r_requesterName := rs_requester_name draft;
                r_type := r_type stored;
                r_details := rs_details draft;
                r_status := PENDING;
                r_approvalQueue := fresh_entry <$> rs_approval_queue draft;
                r_currentApproverIndex := 0;
                r_createdAt := r_createdAt stored;
                r_fileName := rs_file_name draft;
                r_fileURL := rs_file_url draft;
                r_pdfComments := r_pdfComments stored;
                r_requesterSignature := rs_requester_signature draft;
                r_vendorId := rs_vendor_id draft |})
  end.

(** Modelled from the spec: [resolveAdHocItem(requestId, newStatus,
    actorId)] (the missing [update_item_request_status_as_admin]):
    administrators only, the status becomes Completed and the queue is not
    touched; another target status is an [InvalidTransition]. *)
Definition resolveAdHocItem (session : Session) (requestId : str)
    (newStatus : ApprovalStatus) (store : gmap str Request)
    : gmap str Request * (ErrorKind + Request) :=
  match store !! requestId with
  | None => (store, inl NotFound)
  | Some current =>
      if negb (bool_decide (u_role (session_user session) = ADMIN))
      then (store, inl NotAuthorized)
      else if negb (bool_decide (newStatus = COMPLETED))
      then (store, inl InvalidTransition)
      else
        conditionalUpdate store requestId
          (r_currentApproverIndex current) (r_status current)
          (λ stored,
             {| r_id := r_id stored;
                r_requesterId := r_requesterId stored;
                r_requesterName := r_requesterName stored;
                r_type := r_type stored;
                r_details := r_details stored;
                r_status := COMPLETED;
                r_approvalQueue := r_approvalQueue stored;
                r_currentApproverIndex := r_currentApproverIndex stored;
                r_createdAt := r_createdAt stored;
                r_fileName := r_fileName stored;
                r_fileURL := r_fileURL stored;
                r_pdfComments := r_pdfComments stored;
                r_requesterSignature := r_requesterSignature stored;
                r_vendorId := r_vendorId stored |})
  end.

(** Modelled from the spec: the operations of the Workflow Service (the
    missing database procedures), each run without interference. *)
Inductive Operation : Type :=
| OpSubmit (newId createdAt : str) (draft : RequestForDb)
| OpApply (call : ApplyCall)
| OpResubmit (session : Session) (draft : ResubmitArgs)
| OpResolveAdHocItem (session : Session) (requestId : str)
    (newStatus : ApprovalStatus).

(** Modelled from the spec: running one operation of the service (the
    missing database procedures). *)
Definition exec (policy : FieldPolicy) (auditor : option str)
    (op : Operation) (store : gmap str Request)
    : gmap str Request * (ErrorKind + Request) :=
  match op with
  | OpSubmit newId createdAt draft => submit newId createdAt draft store
  | OpApply call => apply policy auditor call store
  | OpResubmit session draft => resubmit session draft store
  | OpResolveAdHocItem session requestId newStatus =>
      resolveAdHocItem session requestId newStatus store
  end.

(** Modelled from the spec: the request an operation of the service works
    on (the database procedures are missing). *)
Definition target (op : Operation) : str :=
  match op with
  | OpSubmit newId _ _ => newId
  | OpApply call => call_requestId call
  | OpResubmit _ draft => rs_request_id draft
  | OpResolveAdHocItem _ requestId _ => requestId
  end.

(** Modelled from the spec: the optimistic-concurrency token of a request,
    its index and status (kept by the store behind the missing
    procedures). *)
Definition token (request : Request) : Z * ApprovalStatus :=
  (r_currentApproverIndex request, r_status request).

(** Modelled from the spec: what a resubmission writes over the stored
    request (the mutator of the missing [resubmit_request_as_admin]). *)
Definition resubmitted (draft : ResubmitArgs) (stored : Request) : Request :=
  {| r_id := r_id stored;
     r_requesterId := r_requesterId stored;
     r_requesterName := rs_requester_name draft;
     r_type := r_type stored;
     r_details := rs_details draft;
     r_status := PENDING;
     r_approvalQueue := fresh_entry <$> rs_approval_queue draft;
     r_currentApproverIndex := 0;
     r_createdAt := r_createdAt stored;
     r_fileName := rs_file_name draft;
     r_fileURL := rs_file_url draft;
     r_pdfComments := r_pdfComments stored;
     r_requesterSignature := rs_requester_signature draft;
     r_vendorId := rs_vendor_id draft |}.

(** Modelled from the spec: what resolving an item request writes over
    the stored request (the mutator of the missing
    [update_item_request_status_as_admin]). *)
Definition resolved (stored : Request) : Request :=
  {| r_id := r_id stored;
     r_requesterId := r_requesterId stored;
     r_requesterName := r_requesterName stored;
     r_type := r_type stored;
     r_details := r_details stored;
     r_status := COMPLETED;
     r_approvalQueue := r_approvalQueue stored;
     r_currentApproverIndex := r_currentApproverIndex stored;
     r_createdAt := r_createdAt stored;
     r_fileName := r_fileName stored;
     r_fileURL := r_fileURL stored;
     r_pdfComments := r_pdfComments stored;
     r_requesterSignature := r_requesterSignature stored;
     r_vendorId := r_vendorId stored |}.

(** Modelled from the spec: the second half of a mutating operation (the
    database procedures are missing).  The operation has loaded the
    request earlier; its checks are made on what it loaded, and its one
    conditional write is keyed on the request id and on the index and
    status it loaded.  Run on what the store holds now, this is [exec].
    A submission creates a request and has no key. *)
Definition finish (policy : FieldPolicy) (auditor : option str)
    (op : Operation) (loaded : option Request) (store : gmap str Request)
    : gmap str Request * (ErrorKind + Request) :=
  match op with
  | OpSubmit newId createdAt draft => submit newId createdAt draft store
  | OpApply call => commit policy auditor call loaded store
  | OpResubmit session draft =>
      match loaded with
      | None => (store, inl NotFound)
      | Some snapshot =>
          if negb (bool_decide (u_role (session_user session) = ADMIN))
          then (store, inl NotAuthorized)
          else if negb (bool_decide (r_status snapshot = SENT_BACK))
          then (store, inl InvalidTransition)
          else
            conditionalUpdate store (rs_request_id draft)
              (r_currentApproverIndex snapshot) SENT_BACK (resubmitted draft)
      end
  | OpResolveAdHocItem session requestId newStatus =>
      match loaded with
      | None => (store, inl NotFound)
      | Some snapshot =>
          if negb (bool_decide (u_role (session_user session) = ADMIN))
          then (store, inl NotAuthorized)
          else if negb (bool_decide (newStatus = COMPLETED))
          then (store, inl InvalidTransition)
          else
            conditionalUpdate store requestId
              (r_currentApproverIndex snapshot) (r_status snapshot) resolved
      end
  end.

(** Modelled from the spec: operations running concurrently (the database
    procedures are missing).  Every call takes two atomic steps: it begins
    by loading the request it works on, and it finishes with its
    conditional write.  Any number of callers may be between the two
    steps, and the steps of different callers come in any order. *)
Inductive Event : Type :=
| Begin (caller : nat) (op : Operation)
| Finish (caller : nat).

(** Modelled from the spec: the answer a caller receives, kept with the
    operation and with what it had loaded (the service's replies are
    missing). *)
Record Answer : Type := mkAnswer {
  ans_caller : nat;
  ans_op : Operation;
  ans_loaded : option Request;
  ans_result : ErrorKind + Request
}.

(** Modelled from the spec: the service with calls in flight: the store,
    what each caller between its two steps has loaded, and the answers
    given so far, oldest first (the service itself is missing). *)
Record Service : Type := mkService {
  sv_store : gmap str Request;
  sv_inflight : gmap nat (Operation * option Request);
  sv_answers : list Answer
}.

(** Modelled from the spec: one atomic step of the service (missing
    database procedures).  A caller that finishes without having begun
    does nothing. *)
Definition event_step (policy : FieldPolicy) (auditor : option str)
    (s : Service) (e : Event) : Service :=
  match e with
  | Begin caller op =>
      {| sv_store := sv_store s;
         sv_inflight :=
           <[caller := (op, sv_store s !! target op)]> (sv_inflight s);
         sv_answers := sv_answers s |}
  | Finish caller =>
      match sv_inflight s !! caller with
      | None => s
      | Some (op, loaded) =>
          let '(store', result) :=
            finish policy auditor op loaded (sv_store s) in
          {| sv_store := store';
             sv_inflight := delete caller (sv_inflight s);
             sv_answers :=
               sv_answers s ++ [mkAnswer caller op loaded result] |}
      end
  end.

(** Modelled from the spec: the service run under a schedule of events
    (missing database procedures). *)
Definition run_events (policy : FieldPolicy) (auditor : option str)
    (events : list Event) (s : Service) : Service :=
  foldl (event_step policy auditor) s events.

(** Modelled from the spec: an accepted transition of request [id] at
    queue position [index]: an accepted action, or an accepted direct
    resolution, of a caller that had loaded the request Pending at that
    index (read off the answers of the missing service). *)
Definition accepted_at (id : str) (index : Z) (a : Answer) : bool :=
  match ans_op a, ans_loaded a, ans_result a with
  | OpApply _, Some snapshot, inr _
  | OpResolveAdHocItem _ _ _, Some snapshot, inr _ =>
      bool_decide (target (ans_op a) = id)
      && bool_decide (r_currentApproverIndex snapshot = index)
      && bool_decide (r_status snapshot = PENDING)
  | _, _, _ => false
  end.

(** Modelled from the spec: an accepted resubmission of request [id],
    which starts a new round of its workflow (read off the answers of the
    missing service). *)
Definition resubmission_of (id : str) (a : Answer) : bool :=
  match ans_op a, ans_result a with
  | OpResubmit _ draft, inr _ => bool_decide (rs_request_id draft = id)
  | _, _ => false
  end.

(** Modelled from the spec: how many of the answers of the service (which
    is missing) satisfy [p]. *)
Definition count_answers (p : Answer → bool) (answers : list Answer) : nat :=
  List.length (filter (λ a, p a = true) answers).

(** Modelled from the spec: whether queue position [index] of a request in
    the store (behind the missing procedures) lies behind it: 0 while the
    request is Pending with its index at or before the position, 1 once
    the index has passed it or the request is no longer Pending. *)
Definition position_spent (current : option Request) (index : Z) : nat :=
  match current with
  | Some request =>
      if bool_decide (r_status request = PENDING)
         && (r_currentApproverIndex request <=? index)%Z
      then 0%nat else 1%nat
  | None => 0%nat
  end.

(** Modelled from the spec: what each caller was answered by the service
    (which is missing), oldest first. *)
Definition results (s : Service) : list (nat * (ErrorKind + Request)) :=
  (λ a, (ans_caller a, ans_result a)) <$> sv_answers s.



(** The queue's composition: who is in it, in order. *)
Definition composition (request : Request) : list str :=
  a_userId <$> r_approvalQueue request.

(** ** Order and dates of notifications *)

(** [a] is not older than [b]: both timestamps parse and [a]'s is not the
    earlier one. *)
Definition not_older (getTime : str → option Z) (a b : Notification) : Prop :=
  ∃ ta tb,
    getTime (n_createdAt a) = Some ta
    ∧ getTime (n_createdAt b) = Some tb
    ∧ (tb ≤ ta)%Z.

(** Every timestamp of the collection parses, those of the requests and
    those of their comments. *)
Definition well_dated (getTime : str → option Z) (requests : list Request)
    : Prop :=
  Forall (λ r, is_Some (getTime (r_createdAt r))
               ∧ Forall (λ c, is_Some (getTime (c_createdAt c)))
                   (r_pdfComments r))
    requests.

(** * Further parts of the client

    In the [details] of a request, [null] and [undefined] are an absent
    key, and [AnyOther] stands for an array or an object (the item list of
    a store requisition); the portal stores no other kind of value
    there. *)

(** Truthiness of [details.key]. *)
Definition truthy_detail (v : option any) : bool :=
  match v with
  | Some (AnyString s) => truthy_str s
  | Some (AnyNumber x) => truthy_num x
  | Some AnyOther => true
  | None => false
  end.

(** [x < 0] and [x >= 0] on numbers; both are false for [NaN]. *)
Definition num_lt0 (x : number) : bool :=
  match x with
  | NaN => false
  | Infinity negative => negative
  | Dec m _ => (m <? 0)%Z
  end.

Definition num_ge0 (x : number) : bool :=
  match x with
  | NaN => false
  | Infinity negative => negb negative
  | Dec m _ => (0 <=? m)%Z
  end.

(** ** [RequestContext.tsx]: what [fetchData] makes of the fetched rows *)

Record PdfCommentRow : Type := mkPdfCommentRow {
  pc_id : option Z;
  pc_request_id : str;
  pc_user_id : str;
  pc_user_email : option str;
  pc_comment : option str;
  pc_created_at : str
}.

(** The [reduce] over the fetched comments: each one is pushed onto the
    array kept under its request id.  The accumulator is an object used as
    a map; request ids are not names of members of [Object.prototype]. *)
Definition commentsByRequestId (rows : list PdfCommentRow)
    : gmap str (list PdfComment) :=
  foldl
    (λ acc c,
       let comment :=
         {| c_id := pc_id c; c_requestId := pc_request_id c;
            c_userId := pc_user_id c; c_userEmail := pc_user_email c;
            c_comment := pc_comment c; c_createdAt := pc_created_at c |} in
       <[pc_request_id c := default [] (acc !! pc_request_id c) ++ [comment]]> acc)
    ∅ rows.

(** [commentsByRequestId[req.id] || []], the [pdfComments] of a formatted
    request. *)
Definition fetched_pdfComments (rows : list PdfCommentRow) (id : str)
    : list PdfComment :=
  default [] (commentsByRequestId rows !! id).

(** [users.filter(u => u.role === UserRole.APPROVER)] *)
Definition approvers (users : list User) : list User :=
  filter (λ u, u_role u = APPROVER) users.

(** ** [ApprovalQueueSelector.tsx] *)

Definition availableApprovers (approvers selectedApprovers : list User)
    : list User :=
  filter
    (λ approver,
       existsb (λ selected, bool_decide (u_id selected = u_id approver))
         selectedApprovers = false)
    approvers.

Definition addApprover (approver : User) (prevSelected : list User)
    : list User :=
  prevSelected ++ [approver].

Definition removeApprover (approverId : str) (prevSelected : list User)
    : list User :=
  filter (λ approver, u_id approver ≠ approverId) prevSelected.

(** ** [RequestForm.tsx] *)

(** [selectedStoreItems] is an object from item id to quantity. *)
Definition handleStoreItemQuantityChange (parseInt : str → number)
    (itemId quantity : str) (prev : gmap str number) : gmap str number :=
  let numQuantity := parseInt quantity in
  if isNaN numQuantity || num_lt0 numQuantity
  then <[itemId := Dec 0 0]> prev
  else <[itemId := numQuantity]> prev.

Definition handleAddStoreItems (itemIds : list str)
    (selectedStoreItems : gmap str number) : gmap str number :=
  foldl
    (λ newSelections id,
       match newSelections !! id with
       | Some _ => newSelections
       | None => <[id := Dec 1 0]> newSelections
       end)
    selectedStoreItems itemIds.

Definition handleRemoveStoreItem (itemId : str)
    (selectedStoreItems : gmap str number) : gmap str number :=
  delete itemId selectedStoreItems.

(** The state of the form [handleSubmit] reads; [f_signature] is what
    [signaturePadRef.current?.getSignature()] answers. *)
Record FormState : Type := mkFormState {
  f_details : gmap str any;
  f_requesterName : str;
  f_approvalQueue : list User;
  f_selectedHODId : str;
  f_vendorId : str;
  f_file : option File;
  f_leaveDays : option number;
  f_dateError : str;
  f_selectedStoreItems : gmap str number;
  f_signature : option str
}.

Inductive SubmitOutcome : Type :=
| SubmitIgnored
| SubmissionError (submissionError : option str)
| FormSubmitted.

(** The [requestDetails] object.  [grandTotal] is the memoised sum of the
    component; the item list it stores is an array. *)
Definition handleSubmit_requestDetails (requestType : RequestType)
    (grandTotal : number) (f : FormState) : gmap str any :=
  let spread :=
    if bool_decide (requestType = LEAVE) then
      let withHOD :=
        <[lit "selectedHODId" := AnyString (f_selectedHODId f)]> (f_details f) in
      match f_leaveDays f with
      | Some n => <[lit "leaveDays" := AnyNumber n]> withHOD
      | None => delete (lit "leaveDays") withHOD
      end
    else f_details f in
  if bool_decide (requestType = STORE) then
    <[lit "grandTotal" := AnyNumber grandTotal]>
      (<[lit "items" := AnyOther]> spread)
  else spread.

(** The draft [handleSubmit] passes to [addRequest]; the fields a draft
    does not have are left empty. *)
Definition handleSubmit_newRequest (currentUser : User)
    (requestType : RequestType) (requesterName : str)
    (requestDetails : gmap str any) (approvalQueue : list User)
    (signature vendorId : str) : Request :=
  {| r_id := [];
     r_requesterId := u_id currentUser;
     r_requesterName := requesterName;
     r_type := requestType;
     r_details := requestDetails;
     r_status := PENDING;
     r_approvalQueue :=
       if bool_decide (requestType = ITEM) then []
       else (λ u, mkApprover (u_id u) (Some (u_email u)) PENDING
                    None None None None None None) <$> approvalQueue;
     r_currentApproverIndex := 0;
     r_createdAt := [];
     r_fileName := None;
     r_fileURL := None;
     r_pdfComments := [];
     r_requesterSignature := Some signature;
     r_vendorId :=
       if bool_decide (requestType ∈ [DIESEL; PROCUREMENT])
       then Some vendorId else None |}.

Definition handleSubmit (offline : bool) (getPublicUrl : str → str)
    (now : str) (currentUser : option User) (users : list User)
    (requestType : RequestType) (requestToEdit : option Request)
    (grandTotal : number) (f : FormState) : Client SubmitOutcome :=
  match currentUser with
  | None => Ret SubmitIgnored
  | Some cu =>
      if truthy_str (f_dateError f)
      then Ret (SubmissionError (Some (f_dateError f)))
      else if negb (bool_decide (requestType = ITEM))
              && bool_decide (f_approvalQueue f = [])
      then Ret (SubmissionError (Some (lit
             "Please select at least one approver.")))
      else if bool_decide (requestType = STORE)
              && bool_decide (f_selectedStoreItems f = ∅)
      then Ret (SubmissionError (Some (lit
             "Please select at least one item and specify a quantity.")))
      else if bool_decide (requestType = LEAVE)
              && negb (truthy_str (f_selectedHODId f))
      then Ret (SubmissionError (Some (lit
             "Please select a Head of Department from the approval queue.")))
      else if bool_decide (requestType = LEAVE)
              && negb (truthy_detail (f_details f !! lit "daysRemaining"))
      then Ret (SubmissionError (Some (lit
             "Please enter the remaining leave days.")))
      else
        match f_signature f with
        | Some (c :: s) =>
            let signature := c :: s in
            let requestDetails :=
              handleSubmit_requestDetails requestType grandTotal f in
            bind
              (match requestToEdit with
               | Some toEdit =>
                   updateRequest offline getPublicUrl now currentUser users
                     (handleSubmit_updatedRequest toEdit requestType
                        (f_requesterName f) requestDetails
                        (f_approvalQueue f) signature (f_vendorId f))
                     (f_file f)
               | None =>
                   addRequest offline getPublicUrl now currentUser users
                     (handleSubmit_newRequest cu requestType
                        (f_requesterName f) requestDetails
                        (f_approvalQueue f) signature (f_vendorId f))
                     (f_file f)
               end)
              (λ result,
                 if success result then Ret FormSubmitted
                 else Ret (SubmissionError (error result)))
        | _ => Ret (SubmissionError (Some (lit
                 "Please provide your signature to submit the request.")))
        end
  end.

(** ** [RequestList.tsx]: the requests a tab shows *)

Inductive Tab : Type := TabAll | TabStatus (status : ApprovalStatus).

(** [filter] with a predicate that may throw: the first throw ends it. *)
Fixpoint filter_throwing {A} (p : A → option bool) (l : list A)
    : option (list A) :=
  match l with
  | [] => Some []
  | x :: l' =>
      b ← p x;
      rest ← filter_throwing p l';
      Some (if b : bool then x :: rest else rest)
  end.

(** The search predicate.  [None] is the [TypeError] of calling
    [toLowerCase] on a subject that is neither a string nor missing. *)
Definition matchesSearch (toLowerCase : str → str) (searchQuery : str)
    (req : Request) : option bool :=
  let query := trim (toLowerCase searchQuery) in
  if negb (truthy_str query) then Some true
  else
    let idMatch := includes (toLowerCase (r_id req)) query in
    let requesterMatch := includes (toLowerCase (r_requesterName req)) query in
    match r_details req !! lit "subject" with
    | Some (AnyString subject) =>
        Some (idMatch || includes (toLowerCase subject) query || requesterMatch)
    | None => Some (idMatch || false || requesterMatch)
    | Some _ => None
    end.

Definition filteredRequests (toLowerCase : str → str)
    (requests : list Request) (currentUser : option User) (activeTab : Tab)
    (searchQuery : str) : option (list Request) :=
  let nonItemRequests :=
    filter (λ req, r_type req ≠ ITEM) requests in
  searchedRequests ← filter_throwing (matchesSearch toLowerCase searchQuery)
                        nonItemRequests;
  match currentUser with
  | Some cu =>
      match u_role cu with
      | ADMIN =>
          match activeTab with
          | TabAll => Some searchedRequests
          | TabStatus tab =>
              Some (filter (λ req, r_status req = tab) searchedRequests)
          end
      | APPROVER =>
          match activeTab with
          | TabAll =>
              Some (filter
                      (λ req, existsb (λ a, bool_decide (a_userId a = u_id cu))
                                (r_approvalQueue req) = true)
                      searchedRequests)
          | TabStatus PENDING =>
              Some (filter
                      (λ req, r_status req = PENDING
                              ∧ a_userId <$> js_index (r_approvalQueue req)
                                               (r_currentApproverIndex req)
                                = Some (u_id cu))
                      searchedRequests)
          | TabStatus tab =>
              Some (filter
                      (λ req, existsb
                                (λ a, bool_decide (a_userId a = u_id cu)
                                      && bool_decide (a_status a = tab))
                                (r_approvalQueue req) = true)
                      searchedRequests)
          end
      end
  | None => Some []
  end.

(** ** [ItemRequestInbox.tsx] *)

Definition itemRequests (requests : list Request) : list Request :=
  filter (λ req, r_type req = ITEM) requests.

Definition inbox_filteredRequests (requests : list Request)
    (activeTab : ApprovalStatus) : list Request :=
  filter (λ req, r_status req = activeTab) (itemRequests requests).

(** The tabs of the inbox. *)
Definition inbox_tabs : list ApprovalStatus := [PENDING; COMPLETED].

(** ** [PdfViewerWithComments.tsx] *)

(** [a === b] where each side may be [undefined]. *)
Definition canComment (currentUser : option User) (request : Request) : bool :=
  (isAdmin currentUser && bool_decide (r_status request = PENDING))
  || (bool_decide (r_status request = PENDING)
      && bool_decide
           (a_userId <$> js_index (r_approvalQueue request)
                           (r_currentApproverIndex request)
            = u_id <$> currentUser)).

(** The arguments [handleAddComment] passes to [addPdfComment] (request
    id, user id, user address, comment), or nothing when it returns at
    once. *)
Definition handleAddComment (currentUser : option User) (request : Request)
    (newComment : str) : option (str * str * str * str) :=
  if negb (truthy_str (trim newComment)) then None
  else
    match currentUser with
    | None => None
    | Some cu => Some (r_id request, u_id cu, u_email cu, newComment)
    end.

(** ** [Dashboard.tsx]: reading a notification *)

(** The state [handleNotificationClick] works on. *)
Record DashboardView : Type := mkDashboardView {
  view_state : DashboardState;
  requestInModal : option Request;
  isNotificationsOpen : bool
}.

Definition markRead (id : str) (n : Notification) : Notification :=
  if bool_decide (n_id n = id)
  then {| n_id := n_id n; n_message := n_message n;
          n_requestId := n_requestId n; n_isRead := true;
          n_createdAt := n_createdAt n |}
  else n.

Definition handleNotificationClick (currentUser : option User)
    (requests : list Request) (notification : Notification)
    (view : DashboardView) : DashboardView :=
  match currentUser with
  | None => view
  | Some cu =>
      let st := view_state view in
      let readIds := readNotifIds (localStorage st) cu in
      {| view_state :=
           if bool_decide (n_id notification ∈ readIds) then st
           else
             {| notifications :=
                  markRead (n_id notification) <$> notifications st;
                localStorage :=
                  <[lit "zmc-read-notifs-" ++ u_id cu :=
                      readIds ++ [n_id notification]]> (localStorage st) |};
         requestInModal :=
           match js_find (λ r, bool_decide (r_id r = n_requestId notification))
                   requests with
           | Some requestToView => Some requestToView
           | None => requestInModal view
           end;
         isNotificationsOpen := false |}
  end.

(** [notifications.filter(n => !n.isRead).length] *)
Definition unreadCount (notifs : list Notification) : nat :=
  List.length (filter (λ n, n_isRead n = false) notifs).

(** The request types the sidebar offers a user for creation. *)
Definition canCreate (currentUser : option User) (type : RequestType) : bool :=
  let canAdminCreate :=
    isAdmin currentUser
    && bool_decide (type ∈ [DIESEL; PROCUREMENT; LEAVE; STORE]) in
  let canApproverCreate :=
    match currentUser with
    | Some cu => bool_decide (u_role cu = APPROVER)
    | None => false
    end && bool_decide (type = ITEM) in
  canAdminCreate || canApproverCreate.


(** * Sample data

    A small directory and two requests, used to run the definitions. *)

Definition alice : User :=
  mkUser (lit "u-alice") (lit "alice@zankli.example") APPROVER None.
Definition bola : User :=
  mkUser (lit "u-bola") (lit "bola@zankli.example") APPROVER None.
Definition chidi : User :=
  mkUser (lit "u-chidi") AUDITOR_EMAIL APPROVER None.
Definition dayo : User :=
  mkUser (lit "u-dayo") (lit "dayo@zankli.example") ADMIN None.

Definition directory : list User := [alice; bola; chidi; dayo].

Definition pending_entry (u : User) : Approver :=
  mkApprover (u_id u) (Some (u_email u)) PENDING None None None None None None.

Definition procurement : Request :=
  {| r_id := lit "req-1";
     r_requesterId := u_id dayo;
     r_requesterName := lit "Dayo";
     r_type := PROCUREMENT;
     r_details := ∅;
     r_status := PENDING;
     r_approvalQueue := [pending_entry alice; pending_entry bola; pending_entry chidi];
     r_currentApproverIndex := 0;
     r_createdAt := lit "2024-03-01T09:00:00Z";
     r_fileName := None;
     r_fileURL := None;
     r_pdfComments := [];
     r_requesterSignature := Some (lit "data:image/png;base64,AAAA");
     r_vendorId := None |}.

Definition leave : Request :=
  {| r_id := lit "req-2";
     r_requesterId := u_id dayo;
     r_requesterName := lit "Dayo";
     r_type := LEAVE;
     r_details := {[ lit "selectedHODId" := AnyString (u_id bola) ]};
     r_status := PENDING;
     r_approvalQueue := [pending_entry bola; pending_entry chidi];
     r_currentApproverIndex := 0;
     r_createdAt := lit "2024-03-02T09:00:00Z";
     r_fileName := None;
     r_fileURL := None;
     r_pdfComments := [];
     r_requesterSignature := Some (lit "data:image/png;base64,AAAA");
     r_vendorId := None |}.

Definition drawn : option str := Some (lit "data:image/png;base64,BBBB").

(** Time in the sample data: the timestamps are compared by their hour
    digits, which is all that varies in them. *)
Definition sample_getTime (s : str) : option Z :=
  match drop 11 s with
  | h1 :: h2 :: _ =>
      match digit_of h1, digit_of h2 with
      | Some a, Some b => Some (10 * a + b)%Z
      | _, _ => None
      end
  | _ => None
  end.

Definition comment1 : PdfComment :=
  mkPdfComment (Some 1%Z) (lit "req-1") (u_id alice) (Some (u_email alice))
    (Some (lit "the total on page 2 is wrong")) (lit "2024-03-01T10:00:00Z").

Definition comment2 : PdfComment :=
  mkPdfComment (Some 2%Z) (lit "req-1") (u_id bola) (Some (u_email bola))
    (Some (lit "please attach the invoice")) (lit "2024-03-01T10:00:00Z").

Definition commented : Request :=
  {| r_id := r_id procurement;
     r_requesterId := r_requesterId procurement;
     r_requesterName := r_requesterName procurement;
     r_type := r_type procurement;
     r_details := r_details procurement;
     r_status := r_status procurement;
     r_approvalQueue := r_approvalQueue procurement;
     r_currentApproverIndex := r_currentApproverIndex procurement;
     r_createdAt := r_createdAt procurement;
     r_fileName := Some (lit "quote.pdf");
     r_fileURL := Some (lit "https://files.example/quote.pdf");
     r_pdfComments := [comment1; comment2];
     r_requesterSignature := r_requesterSignature procurement;
     r_vendorId := r_vendorId procurement |}.

Definition sample_store : gmap str Request :=
  {[ r_id procurement := procurement ]}.

Definition signed (text : string) : Payload :=
  mkPayload (lit text) (lit "data:image/png;base64,BBBB") None None None
    (lit "2024-03-01T12:00:00Z").

Definition approval_by (u : User) : ApplyCall :=
  mkApplyCall (mkSession u) (r_id procurement) Approve (signed "").

(** [procurement] once its first approver has approved. *)
Definition approved_once : Request :=
  match transition IgnoreField (AUDITOR_ID directory) procurement
          (u_id alice) Approve (signed "") with
  | inr request' => request'
  | inl _ => procurement
  end.

(** [procurement] sent back by its first approver. *)
Definition sent_back : Request :=
  match transition IgnoreField (AUDITOR_ID directory) procurement
          (u_id alice) SendBack (signed "fix budget") with
  | inr request' => request'
  | inl _ => procurement
  end.

(** The corrected request the administrator resubmits, with the queue
    reduced to two approvers. *)
Definition corrected : ResubmitArgs :=
  {| rs_request_id := r_id procurement;
     rs_requester_name := lit "Dayo";
     rs_details := ∅;
     rs_approval_queue :=
       [mkApproverForDb (u_id alice) (Some (u_email alice)) PENDING;
        mkApproverForDb (u_id chidi) (Some (u_email chidi)) PENDING];
     rs_vendor_id := None;
     rs_file_url := None;
     rs_file_name := None;
     rs_requester_signature := Some (lit "data:image/png;base64,AAAA") |}.

Definition sent_back_store : gmap str Request :=
  {[ r_id procurement := sent_back ]}.

(** Runs operations one after the other and keeps each answer. *)
Fixpoint exec_all (policy : FieldPolicy) (auditor : option str)
    (ops : list Operation) (store : gmap str Request)
    : gmap str Request * list (ErrorKind + Request) :=
  match ops with
  | [] => (store, [])
  | op :: ops' =>
      let '(store', answer) := exec policy auditor op store in
      let '(final, answers) := exec_all policy auditor ops' store' in
      (final, answer :: answers)
  end.

(** How far a request has got: status, index, and the status of each
    entry with its user. *)
Definition progress (request : Request)
    : ApprovalStatus * Z * list (str * ApprovalStatus) :=
  (r_status request, r_currentApproverIndex request,
   (λ a, (a_userId a, a_status a)) <$> r_approvalQueue request).

Definition act (u : User) (action : Action) (text : string) : Operation :=
  OpApply (mkApplyCall (mkSession u) (r_id procurement) action (signed text)).

(** ** Sample data for concurrent calls and role-conditioned fields *)

(** The first approver approves from a window opened before the same
    approver sent the request back from another window and the
    administrator resubmitted it: the approval begins first and finishes
    last. *)
Definition late_approval : list Event :=
  [ Begin 1 (act alice Approve "");
    Begin 2 (act alice SendBack "fix budget");
    Finish 2;
    Begin 3 (OpResubmit (mkSession dayo) corrected);
    Finish 3;
    Finish 1 ].

Definition late_approval_outcome : Service :=
  run_events IgnoreField (AUDITOR_ID directory) late_approval
    (mkService sample_store ∅ []).

(** Two approvals of the first approver, sent twice. *)
Definition racing_approvals : list (nat * ApplyCall) :=
  [ (1%nat, approval_by alice); (2%nat, approval_by alice) ].


(** An approval that carries comments of the head of department and an
    audited amount. *)
Definition approval_with_role_fields (u : User) (request : Request)
    : ApplyCall :=
  mkApplyCall (mkSession u) (r_id request) Approve
    (mkPayload [] (lit "data:image/png;base64,BBBB")
       (Some (lit "cover arranged")) None (Some (Dec 500 0))
       (lit "2024-03-02T12:00:00Z")).

(** ** Sample data for the form, the list and the dashboard *)

(** A service that answers every call without an error and counts the
    calls. *)
Definition sample_server (_ : Call) (n : nat) : nat * Outcome :=
  (S n, Answered None).

Definition sample_getPublicUrl (path : str) : str :=
  lit "https://files.example/" ++ path.

(** [toLowerCase] on the letters A to Z, the only ones in the sample
    data that have a lower case. *)
Definition sample_toLowerCase (s : str) : str :=
  (λ c, if (65 <=? c) && (c <=? 90) then c + 32 else c) <$> s.

(** [parseInt(s, 10)]: leading white space, a sign, then the longest run
    of decimal digits, [NaN] when there is none. *)
Definition sample_parseInt (s : str) : number :=
  let '(neg, digits) := read_sign (trimStart s) in
  let '(v, k, _) := read_digits digits 0 0 in
  if (k =? 0)%Z then NaN else Dec (if neg then - v else v)%Z 0.

(** A store selection: two of the first item. *)
Definition sample_selection : gmap str number :=
  {[ lit "item-1" := Dec 2 0 ]}.

Definition procurement_form : FormState :=
  {| f_details := {[ lit "subject" := AnyString (lit "Generator parts") ]};
     f_requesterName := lit "Dayo";
     f_approvalQueue := [alice; chidi];
     f_selectedHODId := [];
     f_vendorId := lit "vendor-7";
     f_file := None;
     f_leaveDays := None;
     f_dateError := [];
     f_selectedStoreItems := ∅;
     f_signature := drawn |}.

Definition leave_form : FormState :=
  {| f_details := {[ lit "daysRemaining" := AnyNumber (Dec 12 0) ]};
     f_requesterName := lit "Dayo";
     f_approvalQueue := [bola; chidi];
     f_selectedHODId := u_id bola;
     f_vendorId := [];
     f_file := Some (mkFile (lit "handover.pdf"));
     f_leaveDays := Some (Dec 5 0);
     f_dateError := [];
     f_selectedStoreItems := ∅;
     f_signature := drawn |}.

(** A leave request whose head of department was taken out of the queue
    after being chosen. *)
Definition leave_without_hod : Request :=
  {| r_id := lit "req-3";
     r_requesterId := u_id dayo;
     r_requesterName := lit "Dayo";
     r_type := LEAVE;
     r_details := {[ lit "selectedHODId" := AnyString (u_id alice) ]};
     r_status := PENDING;
     r_approvalQueue := [pending_entry bola; pending_entry chidi];
     r_currentApproverIndex := 0;
     r_createdAt := lit "2024-03-03T09:00:00Z";
     r_fileName := None;
     r_fileURL := None;
     r_pdfComments := [];
     r_requesterSignature := Some (lit "data:image/png;base64,AAAA");
     r_vendorId := None |}.

(** An item request, as an approver files it. *)
Definition item : Request :=
  {| r_id := lit "req-4";
     r_requesterId := u_id alice;
     r_requesterName := lit "Alice";
     r_type := ITEM;
     r_details := {[ lit "subject" := AnyString (lit "Printer toner") ]};
     r_status := PENDING;
     r_approvalQueue := [];
     r_currentApproverIndex := 0;
     r_createdAt := lit "2024-03-04T09:00:00Z";
     r_fileName := None;
     r_fileURL := None;
     r_pdfComments := [];
     r_requesterSignature := Some (lit "data:image/png;base64,AAAA");
     r_vendorId := None |}.

(** What the first approver sees on the dashboard, and the notification
    that tells them that [procurement] awaits them. *)
Definition alice_view : DashboardView :=
  {| view_state :=
       notificationsEffect sample_getTime (Some alice) directory
         [procurement; leave] (mkDashboardState [] ∅);
     requestInModal := None;
     isNotificationsOpen := true |}.

Definition alice_notification : Notification :=
  {| n_id := lit "notif-req-1-Pending-u-alice";
     n_requestId := lit "req-1";
     n_message := lit "New request awaiting your approval: req-1";
     n_isRead := false;
     n_createdAt := r_createdAt procurement |}.

(** * Properties of the client *)

Section Strings.

Lemma trimStart_nil_iff (s : str) :
  trimStart s = [] ↔ Forall (λ c, is_js_whitespace c = true) s.
Proof.
  induction s as [|c s IH]; simpl.
  - split; [constructor | done].
  - destruct (is_js_whitespace c) eqn:Hc.
    + rewrite IH. split; [by constructor | by inversion 1].
    + split; [done | inversion 1; congruence].
Qed.

Lemma trimStart_head (s : str) c r :
  trimStart s = c :: r → is_js_whitespace c = false.
Proof.
  induction s as [|a s IH]; simpl; [done |].
  destruct (is_js_whitespace a) eqn:Ha; [done | congruence].
Qed.

(** [!comments.trim()] holds exactly for the strings made of white space
    only. *)
Lemma trim_nil_iff (s : str) :
  trim s = [] ↔ Forall (λ c, is_js_whitespace c = true) s.
Proof.
  unfold trim. split.
  - intros H. apply (f_equal reverse) in H. rewrite reverse_involutive in H.
    change (reverse []) with (@nil N) in H.
    apply trimStart_nil_iff in H. apply Forall_reverse in H.
    rewrite reverse_involutive in H.
    destruct (trimStart s) as [|c r] eqn:Hs.
    + by apply trimStart_nil_iff.
    + apply trimStart_head in Hs. inversion H; congruence.
  - intros H. apply trimStart_nil_iff in H. by rewrite H.
Qed.

Lemma truthy_trim (s : str) :
  truthy_str (trim s) = false ↔ Forall (λ c, is_js_whitespace c = true) s.
Proof.
  rewrite <- trim_nil_iff. destruct (trim s); simpl; split; congruence.
Qed.

End Strings.

(** ** What [updateRequestStatus] transmits *)

(** C8. [updateRequestStatus] never uses its [approverId] argument: with
    all other inputs equal, two values of [approverId] give the same
    client computation, hence, against every server and database state,
    the same calls, the same resulting database and the same result.  The
    acting identity can only come from the session of the call. *)
Theorem updateRequestStatus_ignores_approverId :
  ∀ (Db : Type) (server : Call → Db → Db * Outcome) (db : Db)
    (offline : bool) (requestId approverId1 approverId2 : str)
    (action : ApprovalStatus) (comments signature : str)
    (hodComments : option str) (auditDetails : option AuditDetails),
    updateRequestStatus offline requestId approverId1 action comments
      signature hodComments auditDetails
    = updateRequestStatus offline requestId approverId2 action comments
        signature hodComments auditDetails
    ∧ calls server
        (updateRequestStatus offline requestId approverId1 action comments
           signature hodComments auditDetails) db
      = calls server
          (updateRequestStatus offline requestId approverId2 action comments
             signature hodComments auditDetails) db
    ∧ run server
        (updateRequestStatus offline requestId approverId1 action comments
           signature hodComments auditDetails) db
      = run server
          (updateRequestStatus offline requestId approverId2 action comments
             signature hodComments auditDetails) db.
Proof. intros. repeat split. Qed.

(** C10, as stated, fails in its last clause: for the input ["0"] the
    [auditDetails] object carries the number 0, not [undefined]. *)
Lemma auditDetails_keeps_zero :
  (handleAction_auditDetails parseFloat_dec true
     (mkModalState [] [] [] (lit "0") drawn) ≫= finalAmount)
  = Some (Dec 0 0)
  ∧ (handleAction_auditDetails parseFloat_dec true
       (mkModalState [] [] [] (lit "0") drawn) ≫= finalAmount)
    ≠ None.
Proof. split; [reflexivity | discriminate]. Qed.

(** C10, amended.  [updateRequestStatus] sends falsy optional fields as
    [null]: a final amount of 0 gives the same computation as no amount,
    with [p_final_amount] null, and empty comments give [p_comments] null.
    The [auditDetails] object of [handleAction] has no amount when the
    input is empty or does not parse; for a non-empty input that parses to
    0 it carries the number 0, which [updateRequestStatus] then sends as
    null. *)
Theorem falsy_fields_are_sent_as_null :
  ∀ (parseFloat : str → number) (offline : bool)
    (requestId approverId : str) (action : ApprovalStatus)
    (comments signature : str) (hodComments audit : option str) (e : Z)
    (st : ModalState),
    updateRequestStatus offline requestId approverId action comments
      signature hodComments (Some (mkAuditDetails audit (Some (Dec 0 e))))
    = updateRequestStatus offline requestId approverId action comments
        signature hodComments (Some (mkAuditDetails audit None))
    ∧ (∃ args,
         awaited (updateRequestStatus offline requestId approverId action []
                    signature hodComments
                    (Some (mkAuditDetails audit (Some (Dec 0 e)))))
         = Some (rpc_handle_request_action args)
         ∧ p_final_amount args = None ∧ p_comments args = None)
    ∧ (st_finalAmount st = [] ∨ isNaN (parseFloat (st_finalAmount st)) = true →
       handleAction_auditDetails parseFloat true st ≫= finalAmount = None)
    ∧ (st_finalAmount st ≠ [] → parseFloat (st_finalAmount st) = Dec 0 e →
       handleAction_auditDetails parseFloat true st ≫= finalAmount
       = Some (Dec 0 e)
       ∧ num_or_null (handleAction_auditDetails parseFloat true st
                        ≫= finalAmount) = None).
Proof.
  intros. split; [reflexivity |]. split.
  { eexists. split; [reflexivity |]. by split. }
  unfold handleAction_auditDetails; simpl. split.
  - intros [-> | ->]; [done |]. by rewrite orb_true_r.
  - intros Hne ->. destruct (st_finalAmount st); [done |]. by simpl.
Qed.

Lemma falsy_fields_are_sent_as_null_witness :
  st_finalAmount (mkModalState [] [] [] (lit "0.00") drawn) ≠ []
  ∧ parseFloat_dec (st_finalAmount (mkModalState [] [] [] (lit "0.00") drawn))
    = Dec 0 (-2)
  ∧ handleAction_auditDetails parseFloat_dec true
      (mkModalState [] [] [] (lit "0.00") drawn) ≫= finalAmount
    = Some (Dec 0 (-2))
  ∧ num_or_null (handleAction_auditDetails parseFloat_dec true
                   (mkModalState [] [] [] (lit "0.00") drawn)
                   ≫= finalAmount) = None.
Proof.
  split; [discriminate |]. split; [reflexivity |].
  apply (falsy_fields_are_sent_as_null parseFloat_dec false (lit "req-1")
           (u_id chidi) APPROVED [] (lit "sig") None None (-2)
           (mkModalState [] [] [] (lit "0.00") drawn));
    [discriminate | reflexivity].
Defined.

(** ** The conditions of the modal *)

Lemma isCurrentUserApprover_spec (cu : User) (request : Request) :
  isCurrentUserApprover (Some cu) request = true →
  r_status request = PENDING
  ∧ r_type request ≠ ITEM
  ∧ ∃ entry,
      js_index (r_approvalQueue request) (r_currentApproverIndex request)
      = Some entry
      ∧ a_userId entry = u_id cu.
Proof.
  unfold isCurrentUserApprover.
  case_bool_decide as Hs; simpl; [| done].
  case_bool_decide as Ht; simpl; [done |].
  destruct (length_le _ _); [done |].
  destruct (js_index _ _) as [entry|]; [| done].
  intros He. apply bool_decide_eq_true in He. eauto.
Qed.

Lemma id_is_spec (cu : User) (x : option str) :
  id_is (Some cu) x = true → x = Some (u_id cu).
Proof.
  destruct x as [i|]; simpl; [| done].
  intros H. apply bool_decide_eq_true in H. by subst.
Qed.

Lemma isHOD_spec (cu : User) (request : Request) :
  isHOD (Some cu) request = true →
  r_type request = LEAVE
  ∧ selectedHODId request = Some (u_id cu)
  ∧ isCurrentUserApprover (Some cu) request = true.
Proof.
  unfold isHOD. rewrite !andb_true_iff, bool_decide_eq_true.
  intros [[? ?] ?]. auto using id_is_spec.
Qed.


(** [handleAction] either returns without calling, or awaits exactly the
    call [updateRequestStatus] builds from the state of the modal. *)
Lemma handleAction_awaited (parseFloat : str → number) (offline : bool)
    (currentUser : option User) (users : list User) (request : Request)
    (st : ModalState) (status : ApprovalStatus) (call : Call) :
  awaited (handleAction parseFloat offline currentUser users request st status)
  = Some call →
  ∃ cu signature,
    currentUser = Some cu
    ∧ st_signature st = Some signature ∧ signature ≠ []
    ∧ (status = SENT_BACK → truthy_str (trim (st_comments st)) = true)
    ∧ call = rpc_handle_request_action {|
        p_request_id := r_id request;
        p_action := status;
        p_comments := or_else (Some (st_comments st)) None;
        p_signature := signature;
        p_hod_comments :=
          or_else (if isHOD currentUser request
                   then Some (st_hodComments st) else None) None;
        p_internal_audit_comments :=
          or_else (handleAction_auditDetails parseFloat
                     (isAuditor currentUser users request) st
                   ≫= internalAuditComments) None;
        p_final_amount :=
          num_or_null (handleAction_auditDetails parseFloat
                         (isAuditor currentUser users request) st
                       ≫= finalAmount) |}.
Proof.
  unfold handleAction. destruct currentUser as [cu|]; [| done].
  destruct (st_signature st) as [[|c s]|] eqn:Hsig; [done | | done].
  case_bool_decide as Hst; simpl.
  - destruct (truthy_str (trim (st_comments st))) eqn:Htrim; simpl; [| done].
    intros [= <-]. exists cu, (c :: s). by repeat split.
  - intros [= <-]. exists cu, (c :: s). by repeat split.
Qed.


(** ** Validation in [handleAction] *)

(** C5, as stated, fails in its last clause: comments that are not empty
    but hold white space only are refused, although a signature is
    there; no call is made. *)
Lemma sendBack_blank_comments_refused :
  st_comments (mkModalState (lit "  ") [] [] [] drawn) ≠ []
  ∧ handleAction parseFloat_dec false (Some alice) directory procurement
      (mkModalState (lit "  ") [] [] [] drawn) SENT_BACK
    = Ret (ActionError (Some (lit
        "Comments are required when sending a request back for correction."))).
Proof. split; [discriminate | reflexivity]. Qed.

(** C5, amended.  [handleAction] validates before it calls anything.  For
    a signed-in user: without a non-empty signature it stops with the
    signature message; a send-back whose comments are empty or white space
    only stops with the comments message; in both cases no call is made, so
    nothing is changed whatever the server is.  A send-back with a
    signature and comments holding something other than white space is
    submitted as one [handle_request_action] call carrying them, and the
    modal closes exactly when the server answers without error. *)
Theorem handleAction_validates_before_calling :
  ∀ (Db : Type) (server : Call → Db → Db * Outcome) (db : Db)
    (parseFloat : str → number) (offline : bool) (cu : User)
    (users : list User) (request : Request) (st : ModalState)
    (status : ApprovalStatus),
    (st_signature st = None ∨ st_signature st = Some [] →
     handleAction parseFloat offline (Some cu) users request st status
     = Ret (ActionError (Some (lit
         "Please provide your signature to complete this action.")))
     ∧ run server
         (handleAction parseFloat offline (Some cu) users request st status) db
       = (db, ActionError (Some (lit
           "Please provide your signature to complete this action.")))
     ∧ calls server
         (handleAction parseFloat offline (Some cu) users request st status) db
       = [])
    ∧ (∀ signature,
         st_signature st = Some signature → signature ≠ [] →
         Forall (λ c, is_js_whitespace c = true) (st_comments st) →
         handleAction parseFloat offline (Some cu) users request st SENT_BACK
         = Ret (ActionError (Some (lit
             "Comments are required when sending a request back for correction.")))
         ∧ run server
             (handleAction parseFloat offline (Some cu) users request st SENT_BACK) db
           = (db, ActionError (Some (lit
               "Comments are required when sending a request back for correction.")))
         ∧ calls server
             (handleAction parseFloat offline (Some cu) users request st SENT_BACK) db
           = [])
    ∧ (∀ signature,
         st_signature st = Some signature → signature ≠ [] →
         ¬ Forall (λ c, is_js_whitespace c = true) (st_comments st) →
         ∃ args,
           calls server
             (handleAction parseFloat offline (Some cu) users request st SENT_BACK) db
           = [rpc_handle_request_action args]
           ∧ p_request_id args = r_id request
           ∧ p_action args = SENT_BACK
           ∧ p_comments args = Some (st_comments st)
           ∧ p_signature args = signature
           ∧ (run server
                (handleAction parseFloat offline (Some cu) users request st SENT_BACK) db).2
             = match (server (rpc_handle_request_action args) db).2 with
               | Answered None => Closed
               | o => ActionError
                        (error (report offline (lit "update request status") o))
               end).
Proof.
  intros. split; [| split].
  - intros Hsig. unfold handleAction.
    destruct Hsig as [-> | ->]; done.
  - intros signature Hsig Hne Hblank. unfold handleAction. rewrite Hsig.
    destruct signature as [|c s]; [done |].
    apply truthy_trim in Hblank. rewrite Hblank.
    rewrite bool_decide_eq_true_2 by done. done.
  - intros signature Hsig Hne Hblank. unfold handleAction. rewrite Hsig.
    destruct signature as [|c s]; [done |].
    rewrite <- truthy_trim in Hblank.
    apply not_false_is_true in Hblank. rewrite Hblank.
    rewrite andb_false_r.
    eexists. split; [| split; [| split; [| split; [| split]]]].
    + unfold updateRequestStatus. simpl.
      destruct (server _ db) as [db' [[e|]|e]]; reflexivity.
    + reflexivity.
    + reflexivity.
    + simpl. destruct (st_comments st); [by vm_compute in Hblank |].
      reflexivity.
    + reflexivity.
    + unfold updateRequestStatus. simpl.
      destruct (server _ db) as [db' [[e|]|e]]; reflexivity.
Qed.

Lemma handleAction_validates_before_calling_witness :
  st_signature (mkModalState (lit "fix budget") [] [] [] drawn)
  = Some (lit "data:image/png;base64,BBBB")
  ∧ lit "data:image/png;base64,BBBB" ≠ []
  ∧ ¬ Forall (λ c, is_js_whitespace c = true)
        (st_comments (mkModalState (lit "fix budget") [] [] [] drawn))
  ∧ ∃ args,
      calls (λ (_ : Call) (n : nat), (S n, Answered None))
        (handleAction parseFloat_dec false (Some alice) directory procurement
           (mkModalState (lit "fix budget") [] [] [] drawn) SENT_BACK) 0%nat
      = [rpc_handle_request_action args]
      ∧ p_request_id args = r_id procurement
      ∧ p_action args = SENT_BACK
      ∧ p_comments args
        = Some (st_comments (mkModalState (lit "fix budget") [] [] [] drawn))
      ∧ p_signature args = lit "data:image/png;base64,BBBB"
      ∧ (run (λ (_ : Call) (n : nat), (S n, Answered None))
           (handleAction parseFloat_dec false (Some alice) directory procurement
              (mkModalState (lit "fix budget") [] [] [] drawn) SENT_BACK) 0%nat).2
        = match ((λ (_ : Call) (n : nat), (S n, Answered None))
                   (rpc_handle_request_action args) 0%nat).2 with
          | Answered None => Closed
          | o => ActionError
                   (error (report false (lit "update request status") o))
          end.
Proof.
  split; [reflexivity |]. split; [discriminate |].
  assert (Hblank : ¬ Forall (λ c, is_js_whitespace c = true)
             (st_comments (mkModalState (lit "fix budget") [] [] [] drawn))).
  { intros H. apply Forall_inv in H. vm_compute in H. discriminate. }
  split; [exact Hblank |].
  destruct (handleAction_validates_before_calling nat
              (λ (_ : Call) (n : nat), (S n, Answered None)) 0%nat
              parseFloat_dec false alice directory procurement
              (mkModalState (lit "fix budget") [] [] [] drawn) SENT_BACK)
    as (_ & _ & Hsubmitted).
  apply (Hsubmitted (lit "data:image/png;base64,BBBB"));
    [reflexivity | discriminate | exact Hblank].
Defined.

(** ** Notifications *)

Section Sorting.

Context {A : Type} (cmp : A → A → Z).

Lemma sort_insert_perm (x : A) (l : list A) : sort_insert cmp x l ≡ₚ x :: l.
Proof.
  induction l as [|y l IH]; simpl; [done |].
  destruct (0 <? cmp x y)%Z; [| done].
  rewrite IH. apply Permutation_swap.
Qed.

Lemma js_sort_perm (l : list A) : js_sort cmp l ≡ₚ l.
Proof.
  induction l as [|x l IH]; simpl; [done |].
  fold (js_sort cmp l). by rewrite sort_insert_perm, IH.
Qed.

(** Insertion never moves [x] past an element [P] holds of together with
    [x], when [cmp] does not put such elements after one another: the
    elements satisfying [P] keep their relative order. *)
Lemma sort_insert_filter (P : A → Prop) `{!∀ a, Decision (P a)}
    (x : A) (l : list A) :
  (∀ y, P x → P y → (cmp x y ≤ 0)%Z) →
  filter P (sort_insert cmp x l) = filter P (x :: l).
Proof.
  intros Hties. induction l as [|y l IH]; simpl; [done |].
  destruct (0 <? cmp x y)%Z eqn:Hlt; [| done].
  apply Z.ltb_lt in Hlt.
  rewrite !filter_cons. rewrite filter_cons in IH. rewrite IH.
  destruct (decide (P x)) as [Hx|Hx], (decide (P y)) as [Hy|Hy]; try done.
  specialize (Hties y Hx Hy). lia.
Qed.

Lemma js_sort_filter (P : A → Prop) `{!∀ a, Decision (P a)} (l : list A) :
  (∀ x y, P x → P y → (cmp x y ≤ 0)%Z) →
  filter P (js_sort cmp l) = filter P l.
Proof.
  intros Hties. induction l as [|x l IH]; simpl; [done |].
  fold (js_sort cmp l).
  rewrite sort_insert_filter by eauto.
  by rewrite !filter_cons, IH.
Qed.

End Sorting.

Section Dated.

Context (getTime : str → option Z).

Lemma not_older_trans (a b c : Notification) :
  not_older getTime a b → not_older getTime b c → not_older getTime a c.
Proof.
  intros (ta & tb & Ha & Hb & Hab) (tb' & tc & Hb' & Hc & Hbc).
  exists ta, tc. repeat split; [done.. |].
  rewrite Hb in Hb'. injection Hb' as <-. lia.
Qed.

Lemma sort_insert_sorted (x : Notification) (l : list Notification) :
  is_Some (getTime (n_createdAt x)) →
  Forall (λ n, is_Some (getTime (n_createdAt n))) l →
  StronglySorted (not_older getTime) l →
  StronglySorted (not_older getTime) (sort_insert (byCreatedAtDesc getTime) x l).
Proof.
  intros [tx Hx] Hl Hs. induction Hs as [|y l Hs IH Hy]; simpl.
  - repeat constructor.
  - apply Forall_cons in Hl as [[ty Hty] Hl].
    unfold byCreatedAtDesc at 1. rewrite Hty, Hx.
    destruct (0 <? ty - tx)%Z eqn:Hlt.
    + apply Z.ltb_lt in Hlt. constructor; [by apply IH |].
      rewrite sort_insert_perm. constructor; [| done].
      exists ty, tx. repeat split; [done.. | lia].
    + apply Z.ltb_ge in Hlt.
      assert (Hxy : not_older getTime x y).
      { exists tx, ty. repeat split; [done.. | lia]. }
      constructor; [by constructor |]. constructor; [done |].
      eapply Forall_impl; [exact Hy |]. intros z Hz.
      by eapply not_older_trans.
Qed.

Lemma js_sort_sorted (l : list Notification) :
  Forall (λ n, is_Some (getTime (n_createdAt n))) l →
  StronglySorted (not_older getTime) (js_sort (byCreatedAtDesc getTime) l).
Proof.
  induction l as [|x l IH]; simpl; [constructor |].
  intros [Hx Hl]%Forall_cons. fold (js_sort (byCreatedAtDesc getTime) l).
  apply sort_insert_sorted; [done | | by apply IH].
  by rewrite js_sort_perm.
Qed.

Lemma byCreatedAtDesc_ties (t : Z) (x y : Notification) :
  getTime (n_createdAt x) = Some t → getTime (n_createdAt y) = Some t →
  (byCreatedAtDesc getTime x y ≤ 0)%Z.
Proof. unfold byCreatedAtDesc. intros -> ->. lia. Qed.

End Dated.

Section Generated.

Context (currentUser : User) (users : list User) (readIds : list str).

Lemma commentNotification_props (req : Request) (c : PdfComment)
    (n : Notification) :
  n ∈ commentNotification currentUser users readIds req c →
  n_isRead n = bool_decide (n_id n ∈ readIds)
  ∧ n_createdAt n = c_createdAt c
  ∧ n_requestId n = r_id req.
Proof.
  unfold commentNotification. case_bool_decide; [by intros ?%elem_of_nil |].
  intros ->%list_elem_of_singleton. done.
Qed.

Lemma requestNotifications_props (req : Request) (n : Notification) :
  n ∈ requestNotifications currentUser users readIds req →
  n_isRead n = bool_decide (n_id n ∈ readIds)
  ∧ n_requestId n = r_id req
  ∧ (n_createdAt n = r_createdAt req
     ∨ ∃ c, c ∈ r_pdfComments req ∧ n_createdAt n = c_createdAt c).
Proof.
  unfold requestNotifications. rewrite elem_of_app. intros [H | H].
  - destruct (_ && _); [| by apply elem_of_nil in H].
    destruct (js_index _ _) as [a|]; [| by apply elem_of_nil in H].
    case_bool_decide; [| by apply elem_of_nil in H].
    apply list_elem_of_singleton in H as ->. simpl. auto.
  - case_bool_decide; [| by apply elem_of_nil in H].
    apply elem_of_app in H as [H | H].
    + case_bool_decide; [| by apply elem_of_nil in H].
      apply list_elem_of_singleton in H as ->. simpl. auto.
    + apply list_elem_of_bind in H as (c & Hn & Hc).
      apply commentNotification_props in Hn as (? & ? & ?). eauto 6.
Qed.

Lemma generatedNotifs_props (requests : list Request) (n : Notification) :
  n ∈ generatedNotifs currentUser users readIds requests →
  n_isRead n = bool_decide (n_id n ∈ readIds)
  ∧ ∃ req, req ∈ requests ∧ n_requestId n = r_id req
      ∧ (n_createdAt n = r_createdAt req
         ∨ ∃ c, c ∈ r_pdfComments req ∧ n_createdAt n = c_createdAt c).
Proof.
  unfold generatedNotifs. intros (req & Hn & Hreq)%list_elem_of_bind.
  apply requestNotifications_props in Hn as (? & ? & ?). eauto 6.
Qed.

Lemma generatedNotifs_dated (getTime : str → option Z)
    (requests : list Request) :
  well_dated getTime requests →
  Forall (λ n, is_Some (getTime (n_createdAt n)))
    (generatedNotifs currentUser users readIds requests).
Proof.
  intros Hwd. apply Forall_forall. intros n Hn.
  apply generatedNotifs_props in Hn as (_ & req & Hreq & _ & Hat).
  unfold well_dated in Hwd. rewrite Forall_forall in Hwd.
  destruct (Hwd req Hreq) as [Hr Hc].
  destruct Hat as [-> | (c & Hin & ->)]; [done |].
  rewrite Forall_forall in Hc. by apply Hc.
Qed.

End Generated.

(** C7. The notifications effect is idempotent and order-stable: run on
    its own result, with the same requests, viewer, directory and stored
    seen ids, it gives the same state again, and it leaves [localStorage]
    alone.  For a signed-in viewer the list it sets is a rearrangement of
    the generated notifications in which those with equal timestamps keep
    their order; when every timestamp of the collection parses it is
    sorted newest first; and the [isRead] flag of each item says whether
    its id is among the stored seen ids. *)
Theorem notifications_idempotent_sorted_read :
  ∀ (getTime : str → option Z) (currentUser : option User)
    (users : list User) (requests : list Request) (st : DashboardState),
    notificationsEffect getTime currentUser users requests
      (notificationsEffect getTime currentUser users requests st)
    = notificationsEffect getTime currentUser users requests st
    ∧ localStorage (notificationsEffect getTime currentUser users requests st)
      = localStorage st
    ∧ ∀ cu, currentUser = Some cu →
        let result :=
          notifications
            (notificationsEffect getTime currentUser users requests st) in
        let generated :=
          generatedNotifs cu users (readNotifIds (localStorage st) cu) requests in
        result ≡ₚ generated
        ∧ (∀ t, filter (λ n, getTime (n_createdAt n) = Some t) result
                = filter (λ n, getTime (n_createdAt n) = Some t) generated)
        ∧ (well_dated getTime requests →
           StronglySorted (not_older getTime) result)
        ∧ (∀ n, n ∈ result →
             n_isRead n
             = bool_decide (n_id n ∈ readNotifIds (localStorage st) cu)).
Proof.
  intros. split; [by destruct currentUser |].
  split; [by destruct currentUser |].
  intros cu ->. simpl. unfold sortedNotifs.
  split; [apply js_sort_perm |]. split; [| split].
  - intros t. apply js_sort_filter. intros x y. apply byCreatedAtDesc_ties.
  - intros Hwd. by apply js_sort_sorted, generatedNotifs_dated.
  - intros n Hn. rewrite js_sort_perm in Hn.
    by apply generatedNotifs_props in Hn as [? _].
Qed.

Lemma notifications_idempotent_sorted_read_witness :
  Some dayo = Some dayo
  ∧ well_dated sample_getTime [leave; commented]
  ∧ StronglySorted (not_older sample_getTime)
      (notifications
         (notificationsEffect sample_getTime (Some dayo) directory
            [leave; commented] (mkDashboardState [] ∅))).
Proof.
  assert (Hwd : well_dated sample_getTime [leave; commented]).
  { repeat constructor; vm_compute; eauto. }
  split; [reflexivity |]. split; [exact Hwd |].
  destruct (notifications_idempotent_sorted_read sample_getTime (Some dayo)
              directory [leave; commented] (mkDashboardState [] ∅))
    as (_ & _ & Hlist).
  destruct (Hlist dayo eq_refl) as (_ & _ & Hsorted & _).
  exact (Hsorted Hwd).
Defined.





(** * Properties of the workflow service *)

Lemma js_index_Some {A} (l : list A) (i : Z) (x : A) :
  js_index l i = Some x ↔ (0 ≤ i)%Z ∧ l !! Z.to_nat i = Some x.
Proof.
  unfold js_index. destruct (i <? 0)%Z eqn:Hi.
  - apply Z.ltb_lt in Hi. split; [done | lia].
  - apply Z.ltb_ge in Hi. tauto.
Qed.

Lemma js_index_bounds {A} (l : list A) (i : Z) (x : A) :
  js_index l i = Some x → (0 ≤ i < Z.of_nat (List.length l))%Z.
Proof.
  intros [Hi Hx]%js_index_Some. apply lookup_lt_Some in Hx. lia.
Qed.

Lemma role_field_inr {A} (policy : FieldPolicy) (entitled : bool)
    (field result : option A) :
  role_field policy entitled field = inr result →
  result = None ∨ (result = field ∧ entitled = true).
Proof.
  unfold role_field. destruct field as [v|]; [| intros [= <-]; by left].
  destruct entitled; [intros [= <-]; by right |].
  destruct policy; [intros [= <-]; by left | done].
Qed.

(** What an accepted action was checked against and what it builds. *)
Lemma transition_inr (policy : FieldPolicy) (auditor : option str)
    (request : Request) (actor : str) (action : Action) (payload : Payload)
    (request' : Request) :
  transition policy auditor request actor action payload = inr request' →
  ∃ entry entry',
    r_status request = PENDING
    ∧ js_index (r_approvalQueue request) (r_currentApproverIndex request)
      = Some entry
    ∧ actor = a_userId entry
    ∧ signature payload ≠ []
    ∧ (action = SendBack → comments payload ≠ [])
    ∧ a_userId entry' = a_userId entry
    ∧ a_status entry' = entry_status action
    ∧ a_approvedAt entry' = Some (timestamp payload)
    ∧ (a_hodComments entry' ≠ None → entitled_hod request actor = true)
    ∧ (a_internalAuditComments entry' ≠ None ∨ a_finalAmount entry' ≠ None →
       entitled_auditor auditor actor = true)
    ∧ r_approvalQueue request'
      = <[Z.to_nat (r_currentApproverIndex request) := entry']>
          (r_approvalQueue request)
    ∧ r_currentApproverIndex request'
      = match action with
        | Approve => (r_currentApproverIndex request + 1)%Z
        | _ => r_currentApproverIndex request
        end
    ∧ r_status request'
      = match action with
        | Approve =>
            if (r_currentApproverIndex request + 1
                =? Z.of_nat (List.length (r_approvalQueue request)))%Z
            then APPROVED else PENDING
        | Reject => REJECTED
        | SendBack => SENT_BACK
        end
    ∧ r_id request' = r_id request.
Proof.
  unfold transition.
  case_bool_decide as Hst; simpl; [| done].
  destruct (js_index _ _) as [entry|] eqn:Hentry; [| done].
  case_bool_decide as Hactor; simpl; [| done].
  destruct (truthy_str (signature payload)) eqn:Hsig; simpl; [| done].
  destruct (bool_decide (action = SendBack)
            && negb (truthy_str (comments payload))) eqn:Hcom; [done |].
  destruct (role_field policy (entitled_hod request actor) _)
    as [?|hod] eqn:Hhod; [done |].
  destruct (role_field policy (entitled_auditor auditor actor)
              (auditComments payload)) as [?|ac] eqn:Hac; [done |].
  destruct (role_field policy (entitled_auditor auditor actor)
              (auditAmount payload)) as [?|am] eqn:Ham; [done |].
  intros [= <-].
  exists entry,
    (mkApprover (a_userId entry) (a_userEmail entry) (entry_status action)
       (Some (comments payload)) (Some (timestamp payload))
       (Some (signature payload)) hod ac am).
  simpl.
  apply role_field_inr in Hhod, Hac, Ham.
  repeat match goal with |- _ ∧ _ => split end; try done.
  - by destruct (signature payload).
  - intros ->. rewrite bool_decide_eq_true_2 in Hcom by done.
    by destruct (comments payload).
  - intros Hne. by destruct Hhod as [? | [_ ?]].
  - intros [Hne | Hne]; [by destruct Hac as [? | [_ ?]] |].
    by destruct Ham as [? | [_ ?]].
Qed.

(** An action from the current approver, signed, commented when it sends
    back, and without role-conditioned fields, is accepted. *)
Lemma transition_accepts (policy : FieldPolicy) (auditor : option str)
    (request : Request) (entry : Approver) (action : Action)
    (payload : Payload) :
  r_status request = PENDING →
  js_index (r_approvalQueue request) (r_currentApproverIndex request)
  = Some entry →
  signature payload ≠ [] →
  (action = SendBack → comments payload ≠ []) →
  hodComments payload = None → auditComments payload = None →
  auditAmount payload = None →
  ∃ request',
    transition policy auditor request (a_userId entry) action payload
    = inr request'.
Proof.
  intros Hst Hentry Hsig Hcom Hhod Hac Ham. unfold transition.
  rewrite bool_decide_eq_true_2 by done. simpl. rewrite Hentry.
  rewrite bool_decide_eq_true_2 by done. simpl.
  destruct (signature payload) as [|c s] eqn:Hs; [done |]. simpl.
  rewrite Hhod, Hac, Ham. simpl.
  destruct (bool_decide (action = SendBack)
            && negb (truthy_str (comments payload))) eqn:Hc; [| eauto].
  apply andb_true_iff in Hc as [Ha%bool_decide_eq_true Hc].
  specialize (Hcom Ha). by destruct (comments payload).
Qed.

(** An action from anybody else is refused before anything else about it
    is looked at. *)
Lemma transition_refuses (policy : FieldPolicy) (auditor : option str)
    (request : Request) (entry : Approver) (actor : str) (action : Action)
    (payload : Payload) :
  r_status request = PENDING →
  js_index (r_approvalQueue request) (r_currentApproverIndex request)
  = Some entry →
  actor ≠ a_userId entry →
  transition policy auditor request actor action payload = inl NotAuthorized.
Proof.
  intros Hst Hentry Hne. unfold transition.
  rewrite bool_decide_eq_true_2 by done. simpl. rewrite Hentry.
  by rewrite bool_decide_eq_false_2.
Qed.

(** C3. An accepted action is on a Pending request with its index inside
    the queue, and follows the table.  Approve moves the index on by
    exactly one; on the last entry the status becomes Approved and the
    index equals the length of the queue, on an earlier entry the status
    stays Pending.  Reject and SendBack give the status Rejected and Sent
    Back and leave the index where it was.  The acting entry takes the
    action's status, every other entry is untouched. *)
Theorem transition_follows_table :
  ∀ (policy : FieldPolicy) (auditor : option str) (request : Request)
    (actor : str) (action : Action) (payload : Payload) (request' : Request),
    transition policy auditor request actor action payload = inr request' →
    let index := r_currentApproverIndex request in
    let len := Z.of_nat (List.length (r_approvalQueue request)) in
    r_status request = PENDING
    ∧ (0 ≤ index < len)%Z
    ∧ match action with
      | Approve =>
          r_currentApproverIndex request' = (index + 1)%Z
          ∧ ((index + 1 = len)%Z →
             r_status request' = APPROVED
             ∧ r_currentApproverIndex request' = len)
          ∧ ((index + 1 < len)%Z → r_status request' = PENDING)
      | Reject =>
          r_status request' = REJECTED
          ∧ r_currentApproverIndex request' = index
      | SendBack =>
          r_status request' = SENT_BACK
          ∧ r_currentApproverIndex request' = index
      end
    ∧ (a_status <$> js_index (r_approvalQueue request') index)
      = Some (entry_status action)
    ∧ (∀ j, j ≠ index →
         js_index (r_approvalQueue request') j
         = js_index (r_approvalQueue request) j)
    ∧ List.length (r_approvalQueue request')
      = List.length (r_approvalQueue request).
Proof.
  intros * Ht. simpl.
  apply transition_inr in Ht
    as (entry & entry' & Hst & Hentry & _ & _ & _ & _ & Hes & _ & _ & _
        & Hq & Hi & Hs & _).
  pose proof (js_index_bounds _ _ _ Hentry) as Hb.
  split; [done |]. split; [done |]. split; [| split; [| split]].
  - destruct action; rewrite Hi, Hs; [| done..].
    split; [done |]. split.
    + intros Hlast. apply Z.eqb_eq in Hlast as Hlast'. by rewrite Hlast'.
    + intros Hlt. by rewrite (proj2 (Z.eqb_neq _ _)) by lia.
  - rewrite Hq. unfold js_index. rewrite (proj2 (Z.ltb_ge _ _)) by lia.
    rewrite list_lookup_insert_eq by lia. simpl. by rewrite Hes.
  - intros j Hj. rewrite Hq. unfold js_index.
    destruct (j <? 0)%Z eqn:Hneg; [done |]. apply Z.ltb_ge in Hneg.
    apply list_lookup_insert_ne. lia.
  - by rewrite Hq, length_insert.
Qed.

Lemma transition_follows_table_witness :
  transition IgnoreField (AUDITOR_ID directory) procurement (u_id alice)
    Approve (signed "") = inr approved_once
  ∧ r_status procurement = PENDING
  ∧ (0 ≤ r_currentApproverIndex procurement
     < Z.of_nat (List.length (r_approvalQueue procurement)))%Z
  ∧ (r_currentApproverIndex approved_once
     = (r_currentApproverIndex procurement + 1)%Z
     ∧ ((r_currentApproverIndex procurement + 1
         = Z.of_nat (List.length (r_approvalQueue procurement)))%Z →
        r_status approved_once = APPROVED
        ∧ r_currentApproverIndex approved_once
          = Z.of_nat (List.length (r_approvalQueue procurement)))
     ∧ ((r_currentApproverIndex procurement + 1
         < Z.of_nat (List.length (r_approvalQueue procurement)))%Z →
        r_status approved_once = PENDING))
  ∧ (a_status <$> js_index (r_approvalQueue approved_once)
                    (r_currentApproverIndex procurement))
    = Some (entry_status Approve)
  ∧ (∀ j, j ≠ r_currentApproverIndex procurement →
       js_index (r_approvalQueue approved_once) j
       = js_index (r_approvalQueue procurement) j)
  ∧ List.length (r_approvalQueue approved_once)
    = List.length (r_approvalQueue procurement).
Proof.
  split; [reflexivity |].
  apply (transition_follows_table IgnoreField (AUDITOR_ID directory)
           procurement (u_id alice) Approve (signed "") approved_once).
  reflexivity.
Defined.

(** ** Who may act *)

Lemma commit_fresh (policy : FieldPolicy) (auditor : option str)
    (call : ApplyCall) (request request' : Request)
    (store : gmap str Request) :
  store !! call_requestId call = Some request →
  transition policy auditor request (actorId (call_session call))
    (call_action call) (call_payload call) = inr request' →
  commit policy auditor call (Some request) store
  = (<[call_requestId call := request']> store, inr request').
Proof.
  intros Hstore Ht. unfold commit, conditionalUpdate.
  rewrite Ht, Hstore. by rewrite !bool_decide_eq_true_2.
Qed.

(** C2. On a Pending request only the identity in the queue entry at
    [currentApproverIndex] can act.  A call of [apply] from any other
    session, an administrator's included, ends in [NotAuthorized] and
    leaves the store as it was; a signed call from that identity (with
    comments, and without role-conditioned fields) is accepted and
    stored; and whenever a call is accepted, its actor is that identity.
    The modal's own test, [isCurrentUserApprover], lets the same identity
    through and nobody else. *)
Theorem only_current_approver_may_act :
  ∀ (policy : FieldPolicy) (auditor : option str)
    (store : gmap str Request) (call : ApplyCall) (request : Request)
    (entry : Approver),
    store !! call_requestId call = Some request →
    r_status request = PENDING →
    js_index (r_approvalQueue request) (r_currentApproverIndex request)
    = Some entry →
    (actorId (call_session call) ≠ a_userId entry →
     apply policy auditor call store = (store, inl NotAuthorized))
    ∧ (actorId (call_session call) = a_userId entry →
       signature (call_payload call) ≠ [] →
       comments (call_payload call) ≠ [] →
       hodComments (call_payload call) = None →
       auditComments (call_payload call) = None →
       auditAmount (call_payload call) = None →
       ∃ request',
         apply policy auditor call store
         = (<[call_requestId call := request']> store, inr request'))
    ∧ (∀ request',
         (apply policy auditor call store).2 = inr request' →
         actorId (call_session call) = a_userId entry)
    ∧ (∀ cu : User,
         isCurrentUserApprover (Some cu) request = true →
         u_id cu = a_userId entry)
    ∧ (∀ cu : User,
         r_type request ≠ ITEM → u_id cu = a_userId entry →
         isCurrentUserApprover (Some cu) request = true).
Proof.
  intros * Hstore Hst Hentry. unfold apply, load. rewrite Hstore.
  split; [| split; [| split; [| split]]].
  - intros Hne. unfold commit.
    by rewrite (transition_refuses _ _ _ entry) by done.
  - intros Hactor Hsig Hcom Hhod Hac Ham.
    destruct (transition_accepts policy auditor request entry
                (call_action call) (call_payload call))
      as [request' Ht]; try done.
    exists request'. apply commit_fresh; [done |]. by rewrite Hactor.
  - intros request' Hok.
    destruct (decide (actorId (call_session call) = a_userId entry))
      as [| Hne]; [done |].
    unfold commit in Hok.
    by rewrite (transition_refuses _ _ _ entry) in Hok by done.
  - intros cu (_ & _ & entry0 & Hentry0 & <-)%isCurrentUserApprover_spec.
    congruence.
  - intros cu Htype Hcu. unfold isCurrentUserApprover.
    rewrite bool_decide_eq_true_2 by done. simpl.
    rewrite bool_decide_eq_false_2 by done.
    pose proof (js_index_bounds _ _ _ Hentry) as Hb.
    unfold length_le. rewrite (proj2 (Z.leb_gt _ _)) by lia.
    rewrite Hentry. by apply bool_decide_eq_true_2.
Qed.

Lemma only_current_approver_may_act_witness :
  sample_store !! call_requestId (approval_by dayo) = Some procurement
  ∧ r_status procurement = PENDING
  ∧ js_index (r_approvalQueue procurement)
      (r_currentApproverIndex procurement) = Some (pending_entry alice)
  ∧ u_role (session_user (call_session (approval_by dayo))) = ADMIN
  ∧ actorId (call_session (approval_by dayo)) ≠ a_userId (pending_entry alice)
  ∧ apply IgnoreField (AUDITOR_ID directory) (approval_by dayo) sample_store
    = (sample_store, inl NotAuthorized).
Proof.
  assert (Hstore : sample_store !! call_requestId (approval_by dayo)
                   = Some procurement) by reflexivity.
  assert (Hne : actorId (call_session (approval_by dayo))
                ≠ a_userId (pending_entry alice)) by discriminate.
  split; [exact Hstore |]. split; [reflexivity |]. split; [reflexivity |].
  split; [reflexivity |]. split; [exact Hne |].
  destruct (only_current_approver_may_act IgnoreField (AUDITOR_ID directory)
              sample_store (approval_by dayo) procurement (pending_entry alice)
              Hstore eq_refl eq_refl) as [Hrefused _].
  exact (Hrefused Hne).
Defined.

(** ** Resubmission *)

(** Every resubmission [updateRequest] sends carries the queue of the
    edited request, in order, with every entry Pending. *)
Lemma updateRequest_calls {Db} (server : Call → Db → Db * Outcome) (db : Db)
    (offline : bool) (getPublicUrl : str → str) (now : str)
    (currentUser : option User) (users : list User)
    (updatedRequestData : Request) (file : option File)
    (args : ResubmitArgs) :
  rpc_resubmit_request_as_admin args
  ∈ calls server
      (updateRequest offline getPublicUrl now currentUser users
         updatedRequestData file) db →
  rs_request_id args = r_id updatedRequestData
  ∧ user_id <$> rs_approval_queue args
    = a_userId <$> r_approvalQueue updatedRequestData
  ∧ Forall (λ a, status a = PENDING) (rs_approval_queue args).
Proof.
  unfold updateRequest. destruct currentUser as [cu|]; simpl;
    [| by intros ?%elem_of_nil].
  assert (Hsent : ∀ fileURL fileName db0,
    rpc_resubmit_request_as_admin args
    ∈ calls server
        (Await
           (rpc_resubmit_request_as_admin {|
              rs_request_id := r_id updatedRequestData;
              rs_requester_name := r_requesterName updatedRequestData;
              rs_details := r_details updatedRequestData;
              rs_approval_queue :=
                (λ approver,
                   {| user_id := a_userId approver;
                      user_email :=
                        or_else
                          (u_email <$> getUserById users (a_userId approver))
                          (a_userEmail approver);
                      status := PENDING |})
                <$> r_approvalQueue updatedRequestData;
              rs_vendor_id := or_else (r_vendorId updatedRequestData) None;
              rs_file_url := or_else (Some fileURL) None;
              rs_file_name := or_else (Some fileName) None;
              rs_requester_signature :=
                r_requesterSignature updatedRequestData |})
           (λ o, Ret (report offline (lit "update request") o))) db0 →
    rs_request_id args = r_id updatedRequestData
    ∧ user_id <$> rs_approval_queue args
      = a_userId <$> r_approvalQueue updatedRequestData
    ∧ Forall (λ a, status a = PENDING) (rs_approval_queue args)).
  { intros fileURL fileName db0. simpl.
    destruct (server _ db0) as [db1 o]. simpl.
    intros [[= ->] | []%elem_of_nil]%elem_of_cons. simpl.
    split; [done |]. split.
    - rewrite <- list_fmap_compose. by apply list_fmap_ext.
    - apply Forall_fmap, Forall_true. done. }
  unfold with_upload. destruct file as [f|]; [| apply Hsent].
  simpl. destruct (server _ db) as [db1 o].
  intros [[=] | H]%elem_of_cons.
  destruct o as [[e|]|e]; [by apply elem_of_nil in H | | by apply elem_of_nil in H].
  by apply Hsent in H.
Qed.

Lemma showsEditRequest_spec (currentUser : option User) (request : Request)
    (onEdit : bool) :
  showsEditRequest currentUser request onEdit = true →
  (∃ cu, currentUser = Some cu ∧ u_role cu = ADMIN)
  ∧ r_status request = SENT_BACK.
Proof.
  unfold showsEditRequest, isAdmin.
  rewrite !andb_true_iff, bool_decide_eq_true. intros [[Hadmin Hst] _].
  split; [| done]. destruct currentUser as [cu|]; [| done].
  apply bool_decide_eq_true in Hadmin. eauto.
Qed.

Lemma conditionalUpdate_other (store : gmap str Request) (requestId id : str)
    (expectedIndex : Z) (expectedStatus : ApprovalStatus)
    (mutator : Request → Request) :
  id ≠ requestId →
  (conditionalUpdate store requestId expectedIndex expectedStatus mutator).1
    !! id
  = store !! id.
Proof.
  intros Hne. unfold conditionalUpdate.
  destruct (store !! requestId) as [current|]; [| done].
  destruct (_ && _); [| done]. simpl. by rewrite lookup_insert_ne.
Qed.

Lemma conditionalUpdate_same (store : gmap str Request) (requestId : str)
    (expectedIndex : Z) (expectedStatus : ApprovalStatus)
    (mutator : Request → Request) (current : Request) :
  store !! requestId = Some current →
  (conditionalUpdate store requestId expectedIndex expectedStatus mutator).1
    !! requestId = Some current
  ∨ (conditionalUpdate store requestId expectedIndex expectedStatus mutator).1
      !! requestId = Some (mutator current).
Proof.
  intros Hcur. unfold conditionalUpdate. rewrite Hcur.
  destruct (_ && _); simpl; [right; apply lookup_insert_eq | by left].
Qed.

Lemma fresh_entries_pending (queue : list ApproverForDb) :
  Forall (λ a, a_status a = PENDING) (fresh_entry <$> queue).
Proof. apply Forall_fmap, Forall_true. done. Qed.

(** What a successful resubmission was checked against and what it
    stores. *)
Lemma resubmit_inr (session : Session) (draft : ResubmitArgs)
    (store : gmap str Request) (request' : Request) :
  (resubmit session draft store).2 = inr request' →
  u_role (session_user session) = ADMIN
  ∧ (∃ current,
       store !! rs_request_id draft = Some current
       ∧ r_status current = SENT_BACK)
  ∧ (resubmit session draft store).1 !! rs_request_id draft = Some request'
  ∧ r_status request' = PENDING
  ∧ r_currentApproverIndex request' = 0%Z
  ∧ Forall (λ a, a_status a = PENDING) (r_approvalQueue request')
  ∧ composition request' = user_id <$> rs_approval_queue draft.
Proof.
  unfold resubmit, conditionalUpdate.
  destruct (store !! rs_request_id draft) as [current|] eqn:Hcur; [| done].
  case_bool_decide as Hadmin; simpl; [| done].
  case_bool_decide as Hst; simpl; [| done].
  rewrite ?bool_decide_eq_true_2 by done. simpl.
  intros [= <-]. simpl. rewrite lookup_insert_eq.
  repeat match goal with |- _ ∧ _ => split end; try done.
  - eauto.
  - apply fresh_entries_pending.
  - unfold composition. simpl. rewrite <- list_fmap_compose.
    by apply list_fmap_ext.
Qed.

Lemma resubmit_permitted (session : Session) (draft : ResubmitArgs)
    (store : gmap str Request) (current : Request) :
  store !! rs_request_id draft = Some current →
  u_role (session_user session) = ADMIN →
  r_status current = SENT_BACK →
  ∃ request', (resubmit session draft store).2 = inr request'.
Proof.
  intros Hcur Hadmin Hst. unfold resubmit, conditionalUpdate.
  rewrite !Hcur. rewrite !bool_decide_eq_true_2 by done. simpl.
  rewrite ?Hst. rewrite ?bool_decide_eq_true_2 by done. simpl. eauto.
Qed.

Lemma resubmit_refused (session : Session) (draft : ResubmitArgs)
    (store : gmap str Request) (current : Request) :
  store !! rs_request_id draft = Some current →
  u_role (session_user session) ≠ ADMIN ∨ r_status current ≠ SENT_BACK →
  ∃ e, resubmit session draft store = (store, inl e).
Proof.
  intros Hcur Hno. unfold resubmit. rewrite Hcur.
  case_bool_decide as Hadmin; simpl; [| eauto].
  case_bool_decide as Hst; simpl; [| eauto].
  destruct Hno; done.
Qed.

Lemma transition_composition (policy : FieldPolicy) (auditor : option str)
    (request : Request) (actor : str) (action : Action) (payload : Payload)
    (request' : Request) :
  transition policy auditor request actor action payload = inr request' →
  composition request' = composition request.
Proof.
  intros (entry & entry' & _ & Hentry & _ & _ & _ & Hid & _ & _ & _ & _
          & Hq & _)%transition_inr.
  apply js_index_Some in Hentry as [_ Hentry].
  unfold composition. rewrite Hq, list_fmap_insert, Hid.
  apply list_insert_id. by rewrite list_lookup_fmap, Hentry.
Qed.

(** No operation other than a resubmission of that request changes who is
    in the queue of a stored request. *)
Lemma exec_composition (policy : FieldPolicy) (auditor : option str)
    (op : Operation) (store : gmap str Request) (id : str)
    (request : Request) :
  store !! id = Some request →
  ∃ request',
    (exec policy auditor op store).1 !! id = Some request'
    ∧ (composition request' ≠ composition request →
       ∃ session draft, op = OpResubmit session draft ∧ rs_request_id draft = id).
Proof.
  intros Hreq. destruct op as [newId createdAt draft | call | session draft
                               | session requestId newStatus]; simpl.
  - unfold submit. destruct (store !! newId) as [taken|] eqn:Hnew; simpl.
    + by exists request.
    + exists request. split; [| done].
      rewrite lookup_insert_ne; [done | congruence].
  - unfold apply, load, commit.
    destruct (store !! call_requestId call) as [loaded|] eqn:Hload;
      [| by exists request].
    destruct (transition _ _ _ _ _ _) as [e|loaded'] eqn:Ht;
      [by exists request |].
    destruct (decide (id = call_requestId call)) as [-> | Hne].
    + rewrite Hreq in Hload. injection Hload as <-.
      destruct (conditionalUpdate_same store (call_requestId call)
                  (r_currentApproverIndex request) (r_status request)
                  (λ _, loaded') request Hreq) as [-> | ->].
      * by exists request.
      * exists loaded'. split; [done |].
        by rewrite (transition_composition _ _ _ _ _ _ _ Ht).
    + rewrite conditionalUpdate_other by done. by exists request.
  - destruct (decide (id = rs_request_id draft)) as [-> | Hne].
    + unfold resubmit. rewrite Hreq.
      destruct (negb _); [by exists request; eauto |].
      destruct (negb _); [by exists request; eauto |].
      destruct (conditionalUpdate_same store (rs_request_id draft)
                  (r_currentApproverIndex request) SENT_BACK
                  (λ stored,
                     {| r_id := r_id stored;
                        r_requesterId := r_requesterId stored;
                        r_requesterName := rs_requester_name draft;
                        r_type := r_type stored;
                        r_details := rs_details draft;
                        r_status := PENDING;
                        r_approvalQueue := fresh_entry <$> rs_approval_queue draft;
                        r_currentApproverIndex := 0;
                        r_createdAt := r_createdAt stored;
                        r_fileName := rs_file_name draft;
                        r_fileURL := rs_file_url draft;
                        r_pdfComments := r_pdfComments stored;
                        r_requesterSignature := rs_requester_signature draft;
                        r_vendorId := rs_vendor_id draft |})
                  request Hreq) as [H | H]; rewrite H;
        (eexists; split; [reflexivity | intros _; eauto]).
    + exists request. split; [| done]. unfold resubmit.
      destruct (store !! rs_request_id draft) as [current|]; [| done].
      destruct (negb _); [done |]. destruct (negb _); [done |].
      by rewrite conditionalUpdate_other.
  - unfold resolveAdHocItem.
    destruct (store !! requestId) as [current|] eqn:Hcur; [| by exists request].
    destruct (negb _); [by exists request |].
    destruct (negb _); [by exists request |].
    destruct (decide (id = requestId)) as [-> | Hne].
    + rewrite Hreq in Hcur. injection Hcur as <-.
      destruct (conditionalUpdate_same store requestId
                  (r_currentApproverIndex request) (r_status request)
                  (λ stored,
                     {| r_id := r_id stored;
                        r_requesterId := r_requesterId stored;
                        r_requesterName := r_requesterName stored;
                        r_type := r_type stored;
                        r_details := r_details stored;
                        r_status := COMPLETED;
                        r_approvalQueue := r_approvalQueue stored;
                        r_currentApproverIndex := r_currentApproverIndex stored;
                        r_createdAt := r_createdAt stored;
                        r_fileName := r_fileName stored;
                        r_fileURL := r_fileURL stored;
                        r_pdfComments := r_pdfComments stored;
                        r_requesterSignature := r_requesterSignature stored;
                        r_vendorId := r_vendorId stored |})
                  request Hreq) as [H | H]; rewrite H;
        (eexists; split; [reflexivity | intros Hc; by destruct Hc]).
    + rewrite conditionalUpdate_other by done. by exists request.
Qed.

(** C4. Resubmission is permitted only for an administrator and only on
    a request that was sent back; refused, it changes nothing.  Accepted,
    it stores the request with status Pending, index 0 and every queue
    entry Pending, whatever the entries were before, the queue being the
    one of the draft.  No other operation of the service changes who is
    in the queue of a stored request.  On the client, every resubmission
    [updateRequest] sends carries the edited queue with each entry
    Pending, and the modal offers the edit only to an administrator on a
    request that was sent back. *)
Theorem resubmission_restarts_workflow :
  ∀ (policy : FieldPolicy) (auditor : option str) (session : Session)
    (draft : ResubmitArgs) (store : gmap str Request) (current : Request),
    store !! rs_request_id draft = Some current →
    ((∃ request', (resubmit session draft store).2 = inr request')
     ↔ u_role (session_user session) = ADMIN ∧ r_status current = SENT_BACK)
    ∧ (u_role (session_user session) ≠ ADMIN ∨ r_status current ≠ SENT_BACK →
       (resubmit session draft store).1 = store)
    ∧ (∀ request',
         (resubmit session draft store).2 = inr request' →
         (resubmit session draft store).1 !! rs_request_id draft
         = Some request'
         ∧ r_status request' = PENDING
         ∧ r_currentApproverIndex request' = 0%Z
         ∧ Forall (λ a, a_status a = PENDING) (r_approvalQueue request')
         ∧ composition request' = user_id <$> rs_approval_queue draft)
    ∧ (∀ (op : Operation) (id : str) (request : Request),
         store !! id = Some request →
         ∃ request',
           (exec policy auditor op store).1 !! id = Some request'
           ∧ (composition request' ≠ composition request →
              ∃ session' draft',
                op = OpResubmit session' draft' ∧ rs_request_id draft' = id))
    ∧ (∀ (Db : Type) (server : Call → Db → Db * Outcome) (db : Db)
         (offline : bool) (getPublicUrl : str → str) (now : str)
         (currentUser : option User) (users : list User)
         (updatedRequestData : Request) (file : option File)
         (args : ResubmitArgs),
         rpc_resubmit_request_as_admin args
         ∈ calls server
             (updateRequest offline getPublicUrl now currentUser users
                updatedRequestData file) db →
         rs_request_id args = r_id updatedRequestData
         ∧ user_id <$> rs_approval_queue args
           = a_userId <$> r_approvalQueue updatedRequestData
         ∧ Forall (λ a, status a = PENDING) (rs_approval_queue args))
    ∧ (∀ (currentUser : option User) (request : Request) (onEdit : bool),
         showsEditRequest currentUser request onEdit = true →
         (∃ cu, currentUser = Some cu ∧ u_role cu = ADMIN)
         ∧ r_status request = SENT_BACK).
Proof.
  intros * Hcur.
  split; [| split; [| split; [| split; [| split]]]].
  - split.
    + intros [request' Hok].
      apply resubmit_inr in Hok as (Hadmin & (c & Hc & Hst) & _).
      split; [done |]. congruence.
    + intros [Hadmin Hst]. by eapply resubmit_permitted.
  - intros Hno.
    by destruct (resubmit_refused session draft store current Hcur Hno)
      as [e ->].
  - intros request' Hok.
    by apply resubmit_inr in Hok as (_ & _ & ? & ? & ? & ? & ?).
  - intros op id request. apply exec_composition.
  - intros Db server db offline getPublicUrl now currentUser users
      updatedRequestData file args. apply updateRequest_calls.
  - apply showsEditRequest_spec.
Qed.

Lemma resubmission_restarts_workflow_witness :
  sent_back_store !! rs_request_id corrected = Some sent_back
  ∧ (a_status <$> r_approvalQueue sent_back) = [SENT_BACK; PENDING; PENDING]
  ∧ u_role (session_user (mkSession dayo)) = ADMIN
  ∧ r_status sent_back = SENT_BACK
  ∧ ∃ request',
      (resubmit (mkSession dayo) corrected sent_back_store).2 = inr request'
      ∧ (resubmit (mkSession dayo) corrected sent_back_store).1
          !! rs_request_id corrected = Some request'
      ∧ r_status request' = PENDING
      ∧ r_currentApproverIndex request' = 0%Z
      ∧ Forall (λ a, a_status a = PENDING) (r_approvalQueue request')
      ∧ composition request' = user_id <$> rs_approval_queue corrected.
Proof.
  assert (Hcur : sent_back_store !! rs_request_id corrected = Some sent_back)
    by reflexivity.
  split; [exact Hcur |]. split; [reflexivity |]. split; [reflexivity |].
  split; [reflexivity |].
  destruct (resubmission_restarts_workflow IgnoreField (AUDITOR_ID directory)
              (mkSession dayo) corrected sent_back_store sent_back Hcur)
    as (Hpermitted & _ & Hresets & _).
  destruct (proj2 Hpermitted (conj eq_refl eq_refl)) as [request' Hok].
  exists request'. split; [exact Hok |]. exact (Hresets request' Hok).
Defined.

(** The scenario of a three-entry queue: the first approver approves, the
    second sends back, the administrator resubmits with the first and the
    third, who then approve in turn. *)
Example three_entry_scenario :
  (λ '(final, answers),
     (progress <$> final !! r_id procurement,
      (λ answer, match answer with
                 | inr r => inr (r_status r, r_currentApproverIndex r)
                 | inl e => inl e
                 end) <$> answers))
    (exec_all IgnoreField (AUDITOR_ID directory)
       [ act alice Approve "";
         act bola SendBack "fix budget";
         act chidi Approve "";
         OpResubmit (mkSession bola) corrected;
         OpResubmit (mkSession dayo) corrected;
         act alice Approve "";
         act bola Approve "";
         act chidi Approve "" ]
       sample_store)
  = (Some (APPROVED, 2%Z, [(u_id alice, APPROVED); (u_id chidi, APPROVED)]),
     [ inr (PENDING, 1%Z);
       inr (SENT_BACK, 1%Z);
       inl InvalidTransition;
       inl NotAuthorized;
       inr (PENDING, 0%Z);
       inr (PENDING, 1%Z);
       inl NotAuthorized;
       inr (APPROVED, 2%Z) ]).
Proof. vm_compute. reflexivity. Qed.

(** ** Concurrent calls *)

(** An accepted action always changes the index or the status, so the
    token it was keyed on is spent. *)
Lemma transition_spends_token (policy : FieldPolicy) (auditor : option str)
    (request : Request) (actor : str) (action : Action) (payload : Payload)
    (request' : Request) :
  transition policy auditor request actor action payload = inr request' →
  r_currentApproverIndex request' ≠ r_currentApproverIndex request
  ∨ r_status request' ≠ r_status request.
Proof.
  intros (entry & entry' & Hst & _ & _ & _ & _ & _ & _ & _ & _ & _ & _
          & Hi & Hs & _)%transition_inr.
  rewrite Hi, Hs, Hst. destruct action; [left; lia | by right..].
Qed.

(** A commit keyed on a spent token is refused and changes nothing. *)
Lemma commit_stale (policy : FieldPolicy) (auditor : option str)
    (call : ApplyCall) (snapshot current request' : Request)
    (store : gmap str Request) :
  store !! call_requestId call = Some current →
  transition policy auditor snapshot (actorId (call_session call))
    (call_action call) (call_payload call) = inr request' →
  r_currentApproverIndex current ≠ r_currentApproverIndex snapshot
  ∨ r_status current ≠ r_status snapshot →
  commit policy auditor call (Some snapshot) store = (store, inl StaleState).
Proof.
  intros Hstore Ht Hspent. unfold commit, conditionalUpdate.
  rewrite Ht, Hstore.
  destruct Hspent as [Hi | Hs].
  - by rewrite (bool_decide_eq_false_2 _ Hi).
  - rewrite (bool_decide_eq_false_2 _ Hs). by rewrite andb_false_r.
Qed.

Lemma token_eq (a b : Request) :
  token a = token b
  ↔ r_currentApproverIndex a = r_currentApproverIndex b
    ∧ r_status a = r_status b.
Proof. unfold token. split; [by intros [= -> ->] | by intros [-> ->]]. Qed.

Lemma token_ne (a b : Request) :
  token a ≠ token b
  ↔ r_currentApproverIndex a ≠ r_currentApproverIndex b
    ∨ r_status a ≠ r_status b.
Proof.
  rewrite token_eq.
  destruct (decide (r_currentApproverIndex a = r_currentApproverIndex b));
    destruct (decide (r_status a = r_status b)); tauto.
Qed.

(** What an accepted conditional write found and did. *)
Lemma conditionalUpdate_inr (store store' : gmap str Request)
    (requestId : str) (expectedIndex : Z) (expectedStatus : ApprovalStatus)
    (mutator : Request → Request) (request' : Request) :
  conditionalUpdate store requestId expectedIndex expectedStatus mutator
  = (store', inr request') →
  ∃ current,
    store !! requestId = Some current
    ∧ r_currentApproverIndex current = expectedIndex
    ∧ r_status current = expectedStatus
    ∧ request' = mutator current
    ∧ store' = <[requestId := request']> store.
Proof.
  unfold conditionalUpdate.
  destruct (store !! requestId) as [current|]; [| done].
  case_bool_decide as Hi; simpl; [| done].
  case_bool_decide as Hs; simpl; [| done].
  intros [= <- <-]. by exists current.
Qed.

Lemma conditionalUpdate_inl (store store' : gmap str Request)
    (requestId : str) (expectedIndex : Z) (expectedStatus : ApprovalStatus)
    (mutator : Request → Request) (e : ErrorKind) :
  conditionalUpdate store requestId expectedIndex expectedStatus mutator
  = (store', inl e) →
  store' = store.
Proof.
  unfold conditionalUpdate.
  destruct (store !! requestId) as [current|]; [| by intros [= <-]].
  destruct (_ && _); [done | by intros [= <-]].
Qed.

(** Run on what the store holds now, the two halves of an operation are
    the operation run without interference. *)
Lemma finish_unraced (policy : FieldPolicy) (auditor : option str)
    (op : Operation) (store : gmap str Request) :
  finish policy auditor op (store !! target op) store
  = exec policy auditor op store.
Proof. destruct op; reflexivity. Qed.

(** A refused operation writes nothing. *)
Lemma finish_inl (policy : FieldPolicy) (auditor : option str)
    (op : Operation) (loaded : option Request)
    (store store' : gmap str Request) (e : ErrorKind) :
  finish policy auditor op loaded store = (store', inl e) → store' = store.
Proof.
  destruct op as [newId createdAt draft | call | session draft
                  | session requestId newStatus]; simpl.
  - unfold submit. destruct (store !! newId); [by intros [= <-] | done].
  - unfold commit. destruct loaded as [snapshot|]; [| by intros [= <-]].
    destruct (transition _ _ _ _ _ _); [by intros [= <-] |].
    apply conditionalUpdate_inl.
  - destruct loaded as [snapshot|]; [| by intros [= <-]].
    destruct (negb _); [by intros [= <-] |].
    destruct (negb _); [by intros [= <-] |].
    apply conditionalUpdate_inl.
  - destruct loaded as [snapshot|]; [| by intros [= <-]].
    destruct (negb _); [by intros [= <-] |].
    destruct (negb _); [by intros [= <-] |].
    apply conditionalUpdate_inl.
Qed.

(** What an accepted operation found in the store and what it wrote. *)
Lemma finish_inr (policy : FieldPolicy) (auditor : option str)
    (op : Operation) (loaded : option Request)
    (store store' : gmap str Request) (request' : Request) :
  finish policy auditor op loaded store = (store', inr request') →
  store' = <[target op := request']> store
  ∧ match op with
    | OpSubmit _ _ _ =>
        store !! target op = None
        ∧ r_status request' = PENDING
        ∧ r_currentApproverIndex request' = 0%Z
    | OpApply call =>
        ∃ snapshot current,
          loaded = Some snapshot
          ∧ store !! target op = Some current
          ∧ token current = token snapshot
          ∧ transition policy auditor snapshot (actorId (call_session call))
              (call_action call) (call_payload call) = inr request'
    | OpResubmit session draft =>
        ∃ snapshot current,
          loaded = Some snapshot
          ∧ store !! target op = Some current
          ∧ token current = token snapshot
          ∧ r_status snapshot = SENT_BACK
          ∧ request' = resubmitted draft current
    | OpResolveAdHocItem session requestId newStatus =>
        ∃ snapshot current,
          loaded = Some snapshot
          ∧ store !! target op = Some current
          ∧ token current = token snapshot
          ∧ request' = resolved current
    end.
Proof.
  destruct op as [newId createdAt draft | call | session draft
                  | session requestId newStatus]; simpl.
  - unfold submit. destruct (store !! newId) eqn:Hnew; [done |].
    intros [= <- <-]. by repeat split.
  - unfold commit. destruct loaded as [snapshot|]; [| done].
    destruct (transition _ _ _ _ _ _) as [e|r] eqn:Ht; [done |].
    intros (current & Hcur & Hi & Hs & -> & ->)%conditionalUpdate_inr.
    split; [done |]. exists snapshot, current.
    split; [done |]. split; [done |]. split; [by apply token_eq | done].
  - destruct loaded as [snapshot|]; [| done].
    destruct (negb _); [done |].
    case_bool_decide as Hst; simpl; [| done].
    intros (current & Hcur & Hi & Hs & -> & ->)%conditionalUpdate_inr.
    split; [done |]. exists snapshot, current.
    split; [done |]. split; [done |].
    split; [apply token_eq; by rewrite Hst |]. done.
  - destruct loaded as [snapshot|]; [| done].
    destruct (negb _); [done |]. destruct (negb _); [done |].
    intros (current & Hcur & Hi & Hs & -> & ->)%conditionalUpdate_inr.
    split; [done |]. exists snapshot, current.
    split; [done |]. split; [done |]. split; [by apply token_eq | done].
Qed.

Lemma count_answers_snoc (p : Answer → bool) (answers : list Answer)
    (a : Answer) :
  count_answers p (answers ++ [a])
  = (count_answers p answers + (if p a then 1 else 0))%nat.
Proof.
  unfold count_answers. rewrite filter_app, length_app. f_equal.
  rewrite filter_cons, filter_nil.
  destruct (decide (p a = true)) as [-> | Hno]; [done |].
  by destruct (p a).
Qed.

Lemma run_events_snoc (policy : FieldPolicy) (auditor : option str)
    (events : list Event) (e : Event) (s : Service) :
  run_events policy auditor (events ++ [e]) s
  = event_step policy auditor (run_events policy auditor events s) e.
Proof. unfold run_events. by rewrite foldl_app. Qed.

Lemma run_events_app (policy : FieldPolicy) (auditor : option str)
    (events1 events2 : list Event) (s : Service) :
  run_events policy auditor (events1 ++ events2) s
  = run_events policy auditor events2 (run_events policy auditor events1 s).
Proof. unfold run_events. by rewrite foldl_app. Qed.

Lemma position_spent_le (current : option Request) (index : Z) :
  (position_spent current index ≤ 1)%nat.
Proof. destruct current; simpl; [destruct (_ && _) |]; lia. Qed.

Lemma position_spent_token (a b : Request) (index : Z) :
  token a = token b →
  position_spent (Some a) index = position_spent (Some b) index.
Proof. intros [Hi Hs]%token_eq. simpl. by rewrite Hi, Hs. Qed.

(** An accepted action at a position spends it, and leaves every spent
    position spent. *)
Lemma transition_position (policy : FieldPolicy) (auditor : option str)
    (snapshot : Request) (actor : str) (action : Action) (payload : Payload)
    (request' : Request) (index : Z) :
  transition policy auditor snapshot actor action payload = inr request' →
  r_status snapshot = PENDING
  ∧ (position_spent (Some snapshot) index
     + (if bool_decide (r_currentApproverIndex snapshot = index)
        then 1 else 0)
     ≤ position_spent (Some request') index)%nat.
Proof.
  intros (_ & _ & Hpending & _ & _ & _ & _ & _ & _ & _ & _ & _ & _
          & Hi & Hs & _)%transition_inr.
  split; [done |]. simpl. rewrite Hi, Hs, Hpending.
  rewrite (bool_decide_eq_true_2 (PENDING = PENDING)) by done. simpl.
  case_bool_decide as Hidx.
  - subst index. rewrite Z.leb_refl.
    destruct action; simpl; [| lia..].
    destruct (_ =? _)%Z; simpl; [lia |].
    rewrite (proj2 (Z.leb_gt _ _)) by lia. lia.
  - destruct (r_currentApproverIndex snapshot <=? index)%Z eqn:Hle;
      [lia |].
    apply Z.leb_gt in Hle.
    destruct action; simpl; [| lia..].
    destruct (_ =? _)%Z; simpl; [lia |].
    rewrite (proj2 (Z.leb_gt _ _)) by lia. lia.
Qed.

(** A direct resolution spends every position. *)
Lemma resolved_position (current : Request) (index : Z) :
  position_spent (Some (resolved current)) index = 1%nat
  ∧ (r_currentApproverIndex current = index → r_status current = PENDING →
     position_spent (Some current) index = 0%nat).
Proof.
  split; [done |]. intros <- Hs. simpl.
  rewrite bool_decide_eq_true_2 by done. by rewrite Z.leb_refl.
Qed.

(** One step keeps the accepted transitions at a position within the
    accepted resubmissions plus what the store shows as spent. *)
Lemma event_step_rounds (policy : FieldPolicy) (auditor : option str)
    (s : Service) (e : Event) (id : str) (index : Z) :
  (count_answers (accepted_at id index) (sv_answers s)
   ≤ count_answers (resubmission_of id) (sv_answers s)
     + position_spent (sv_store s !! id) index)%nat →
  (count_answers (accepted_at id index)
     (sv_answers (event_step policy auditor s e))
   ≤ count_answers (resubmission_of id)
       (sv_answers (event_step policy auditor s e))
     + position_spent (sv_store (event_step policy auditor s e) !! id) index)%nat.
Proof.
  intros Hinv. destruct e as [caller op | caller]; simpl; [done |].
  destruct (sv_inflight s !! caller) as [[op loaded]|]; [| done].
  destruct (finish policy auditor op loaded (sv_store s))
    as [store' [e | request']] eqn:Hfinish; simpl.
  { apply finish_inl in Hfinish as ->.
    rewrite !count_answers_snoc.
    replace (accepted_at id index (mkAnswer caller op loaded (inl e)))
      with false by by destruct op, loaded.
    replace (resubmission_of id (mkAnswer caller op loaded (inl e)))
      with false by by destruct op.
    lia. }
  apply finish_inr in Hfinish as [-> Hfound].
  rewrite !count_answers_snoc.
  set (a := mkAnswer caller op loaded (inr request')).
  destruct (decide (target op = id)) as [<- | Hne].
  2: { rewrite lookup_insert_ne by done.
       replace (accepted_at id index a) with false
         by (unfold accepted_at; simpl; destruct op, loaded; simpl; try done;
             by rewrite (bool_decide_eq_false_2 _ Hne)).
       replace (resubmission_of id a) with false
         by (unfold resubmission_of; simpl; destruct op; simpl; try done;
             by rewrite (bool_decide_eq_false_2 _ Hne)).
       lia. }
  rewrite lookup_insert_eq.
  pose proof (position_spent_le (sv_store s !! target op) index) as Hle.
  destruct op as [newId createdAt draft | call | session draft
                  | session requestId newStatus]; cbn [target] in *.
  - replace (accepted_at newId index a)
      with false by by destruct loaded.
    replace (resubmission_of newId a)
      with false by done.
    destruct Hfound as (Hnone & _). rewrite Hnone in Hinv.
    simpl in Hinv. lia.
  - destruct Hfound as (snapshot & current & -> & Hcur & Htok & Ht).
    replace (accepted_at (call_requestId call) index a)
      with (bool_decide (r_currentApproverIndex snapshot = index)).
    2: { pose proof (transition_position _ _ _ _ _ _ _ index Ht) as [Hp _].
         unfold accepted_at. simpl.
         rewrite (bool_decide_eq_true_2 (call_requestId call = _)) by done.
         rewrite (bool_decide_eq_true_2 (r_status snapshot = PENDING)) by done.
         by rewrite andb_true_r. }
    replace (resubmission_of (call_requestId call) a) with false by done.
    rewrite Hcur, (position_spent_token _ _ index Htok) in Hinv.
    pose proof (transition_position _ _ _ _ _ _ _ index Ht) as [_ Hmove].
    lia.
  - destruct Hfound as (snapshot & current & -> & Hcur & _ & _ & ->).
    replace (accepted_at (rs_request_id draft) index a)
      with false by done.
    replace (resubmission_of (rs_request_id draft) a)
      with true
      by (unfold resubmission_of; simpl; by rewrite bool_decide_eq_true_2).
    lia.
  - destruct Hfound as (snapshot & current & -> & Hcur & Htok & ->).
    replace (resubmission_of requestId a) with false by done.
    destruct (resolved_position current index) as [-> Hzero].
    destruct (accepted_at _ index a) eqn:Hacc; [| lia].
    unfold accepted_at in Hacc. simpl in Hacc.
    apply andb_true_iff in Hacc as [[_ Hi%bool_decide_eq_true]%andb_true_iff
                                      Hs%bool_decide_eq_true].
    apply token_eq in Htok as [Hi' Hs'].
    rewrite Hcur, Hzero in Hinv by congruence. lia.
Qed.

Lemma run_events_rounds (policy : FieldPolicy) (auditor : option str)
    (events : list Event) (s : Service) (id : str) (index : Z) :
  (count_answers (accepted_at id index) (sv_answers s)
   ≤ count_answers (resubmission_of id) (sv_answers s)
     + position_spent (sv_store s !! id) index)%nat →
  (count_answers (accepted_at id index)
     (sv_answers (run_events policy auditor events s))
   ≤ count_answers (resubmission_of id)
       (sv_answers (run_events policy auditor events s))
     + position_spent (sv_store (run_events policy auditor events s) !! id)
         index)%nat.
Proof.
  revert s. induction events as [|e events IH]; intros s Hinv; [done |].
  apply IH. by apply event_step_rounds.
Qed.
(** A conditional write keyed on a token the store no longer holds is
    refused: with [StaleState], unless the operation is refused on what
    it loaded, whatever the store holds. *)
Lemma finish_stale (policy : FieldPolicy) (auditor : option str)
    (op : Operation) (snapshot current : Request)
    (store : gmap str Request) :
  (∀ newId createdAt draft, op ≠ OpSubmit newId createdAt draft) →
  store !! target op = Some current →
  token current ≠ token snapshot →
  ∃ e,
    finish policy auditor op (Some snapshot) store = (store, inl e)
    ∧ (e = StaleState
       ∨ ∀ store0,
           finish policy auditor op (Some snapshot) store0 = (store0, inl e)).
Proof.
  intros Hop Hcur Htok. apply token_ne in Htok.
  assert (Hstale : ∀ mutator,
    conditionalUpdate store (target op) (r_currentApproverIndex snapshot)
      (r_status snapshot) mutator = (store, inl StaleState)).
  { intros mutator. unfold conditionalUpdate. rewrite Hcur.
    destruct Htok as [Hi | Hs].
    - by rewrite (bool_decide_eq_false_2 _ Hi).
    - rewrite (bool_decide_eq_false_2 _ Hs). by rewrite andb_false_r. }
  destruct op as [newId createdAt draft | call | session draft
                  | session requestId newStatus]; simpl in *.
  - by destruct (Hop newId createdAt draft).
  - unfold commit.
    destruct (transition _ _ _ _ _ _) as [e|r]; [by eauto |].
    rewrite Hstale. eauto.
  - destruct (negb _); [by eauto |].
    case_bool_decide as Hst; simpl; [| by eauto].
    rewrite <- Hst. rewrite Hstale. eauto.
  - destruct (negb _); [by eauto |]. destruct (negb _); [by eauto |].
    rewrite Hstale. eauto.
Qed.

(** Beginning loads and touches nothing else. *)
Lemma run_begins (policy : FieldPolicy) (auditor : option str)
    (racers : list (nat * ApplyCall)) (s : Service) :
  sv_store (run_events policy auditor
              ((λ r, Begin r.1 (OpApply r.2)) <$> racers) s)
  = sv_store s
  ∧ sv_answers (run_events policy auditor
                  ((λ r, Begin r.1 (OpApply r.2)) <$> racers) s)
    = sv_answers s
  ∧ (NoDup racers.*1 →
     ∀ c call, (c, call) ∈ racers →
       sv_inflight (run_events policy auditor
                      ((λ r, Begin r.1 (OpApply r.2)) <$> racers) s) !! c
       = Some (OpApply call, sv_store s !! call_requestId call)).
Proof.
  induction racers as [|[c0 call0] racers (IHstore & IHanswers & IHin)]
    using rev_ind; [by split; [| split; [| intros _ ?? ?%elem_of_nil]] |].
  rewrite fmap_app, run_events_app. simpl.
  split; [done |]. split; [done |].
  rewrite fmap_app. simpl. intros [Hnd [Hfresh _]]%NoDup_app c call Hin.
  rewrite IHstore.
  apply elem_of_app in Hin as [Hin | [= -> ->]%list_elem_of_singleton].
  - rewrite lookup_insert_ne; [by apply IHin |].
    intros <-. apply (Hfresh c0); [| by left].
    apply list_elem_of_fmap. by exists (c0, call).
  - apply lookup_insert_eq.
Qed.

Lemma run_events_cons (policy : FieldPolicy) (auditor : option str)
    (e : Event) (events : list Event) (s : Service) :
  run_events policy auditor (e :: events) s
  = run_events policy auditor events (event_step policy auditor s e).
Proof. done. Qed.

Lemma event_step_finish (policy : FieldPolicy) (auditor : option str)
    (s : Service) (caller : nat) (op : Operation) (loaded : option Request)
    (store' : gmap str Request) (result : ErrorKind + Request) :
  sv_inflight s !! caller = Some (op, loaded) →
  finish policy auditor op loaded (sv_store s) = (store', result) →
  event_step policy auditor s (Finish caller)
  = {| sv_store := store';
       sv_inflight := delete caller (sv_inflight s);
       sv_answers := sv_answers s ++ [mkAnswer caller op loaded result] |}.
Proof. intros Hflight Hfinish. simpl. by rewrite Hflight, Hfinish. Qed.

(** Calls keyed on a spent token finish with [StaleState], one after the
    other, and the store stays as it is. *)
Lemma run_finishes_stale (policy : FieldPolicy) (auditor : option str)
    (order : list nat) (s : Service) (id : str) (request current : Request) :
  NoDup order →
  sv_store s !! id = Some current →
  token current ≠ token request →
  (∀ c, c ∈ order →
     ∃ call r,
       sv_inflight s !! c = Some (OpApply call, Some request)
       ∧ call_requestId call = id
       ∧ transition policy auditor request (actorId (call_session call))
           (call_action call) (call_payload call) = inr r) →
  sv_store (run_events policy auditor (Finish <$> order) s) = sv_store s
  ∧ results (run_events policy auditor (Finish <$> order) s)
    = results s ++ ((λ c, (c, inl StaleState)) <$> order).
Proof.
  revert s. induction order as [|c order IH]; intros s Hnd Hcur Htok Hin.
  { simpl. by rewrite app_nil_r. }
  apply NoDup_cons in Hnd as [Hc Hnd].
  destruct (Hin c) as (call & r & Hflight & Hid & Ht); [by left |].
  rewrite fmap_cons, run_events_cons.
  rewrite (event_step_finish policy auditor s c (OpApply call) (Some request)
             (sv_store s) (inl StaleState) Hflight)
    by (apply (commit_stale policy auditor call request current r);
        rewrite ?Hid; try done; by apply token_ne).
  destruct (IH (mkService (sv_store s) (delete c (sv_inflight s))
                  (sv_answers s
                   ++ [mkAnswer c (OpApply call) (Some request)
                         (inl StaleState)])))
    as [Hstore Hresults]; [done | done | done | |].
  { intros c' Hc'. destruct (Hin c') as (call' & r' & Hflight' & ?);
      [by right |].
    exists call', r'. split; [| done]. simpl.
    rewrite lookup_delete_ne; [done |]. by intros ->. }
  split; [exact Hstore |]. rewrite Hresults. unfold results. simpl.
  rewrite fmap_app. simpl. by rewrite <- app_assoc.
Qed.

(** Any number of calls that have loaded the same request, each
    acceptable on its own, finish in any order: the first is accepted and
    stored, every other one receives [StaleState]. *)
Lemma race_one_winner (policy : FieldPolicy) (auditor : option str)
    (store : gmap str Request)
    (inflight : gmap nat (Operation * option Request)) (id : str)
    (request : Request) (racers : list (nat * ApplyCall))
    (first : nat) (rest : list nat) :
  NoDup racers.*1 →
  store !! id = Some request →
  (∀ c call, (c, call) ∈ racers →
     call_requestId call = id
     ∧ ∃ r, transition policy auditor request (actorId (call_session call))
              (call_action call) (call_payload call) = inr r) →
  first :: rest ≡ₚ racers.*1 →
  ∃ call r,
    (first, call) ∈ racers
    ∧ transition policy auditor request (actorId (call_session call))
        (call_action call) (call_payload call) = inr r
    ∧ sv_store
        (run_events policy auditor
           (((λ r, Begin r.1 (OpApply r.2)) <$> racers)
            ++ (Finish <$> first :: rest))
           (mkService store inflight []))
      = <[id := r]> store
    ∧ results
        (run_events policy auditor
           (((λ r, Begin r.1 (OpApply r.2)) <$> racers)
            ++ (Finish <$> first :: rest))
           (mkService store inflight []))
      = (first, inr r) :: ((λ c, (c, inl StaleState)) <$> rest).
Proof.
  intros Hnd Hstore Hracers Horder.
  assert (Hnd' : NoDup (first :: rest)) by by rewrite Horder.
  assert (Hmember : ∀ c, c ∈ first :: rest → ∃ call, (c, call) ∈ racers).
  { intros c Hc. rewrite Horder in Hc.
    apply list_elem_of_fmap in Hc as ([c' call] & -> & Hin). eauto. }
  destruct (run_begins policy auditor racers (mkService store inflight []))
    as (Hbstore & Hbanswers & Hbflight).
  specialize (Hbflight Hnd). simpl in Hbstore, Hbanswers, Hbflight.
  rewrite run_events_app.
  set (begun := run_events policy auditor _ (mkService store inflight [])) in *.
  destruct (Hmember first) as [call Hcall]; [by left |].
  destruct (Hracers first call Hcall) as [Hid [r Ht]].
  exists call, r. split; [done |]. split; [done |].
  apply NoDup_cons in Hnd' as [Hfirst Hrest].
  rewrite fmap_cons, run_events_cons.
  assert (Hflight : sv_inflight begun !! first
                    = Some (OpApply call, Some request))
    by by rewrite (Hbflight first call Hcall), Hid, Hstore.
  assert (Hfinish : finish policy auditor (OpApply call) (Some request)
                      (sv_store begun) = (<[id := r]> store, inr r)).
  { rewrite Hbstore, <- Hid. apply commit_fresh; by rewrite ?Hid. }
  rewrite (event_step_finish policy auditor begun first (OpApply call)
             (Some request) (<[id := r]> store) (inr r) Hflight Hfinish).
  rewrite Hbanswers. simpl.
  destruct (run_finishes_stale policy auditor rest
              (mkService (<[id := r]> store) (delete first (sv_inflight begun))
                 [mkAnswer first (OpApply call) (Some request) (inr r)])
              id request r)
    as [Hfstore Hfresults]; [done | apply lookup_insert_eq | | |].
  - apply token_ne. by eapply transition_spends_token.
  - intros c Hc. destruct (Hmember c) as [call' Hcall']; [by right |].
    destruct (Hracers c call' Hcall') as [Hid' [r' Ht']].
    exists call', r'. split; [| done]. simpl.
    rewrite lookup_delete_ne by (by intros ->).
    by rewrite (Hbflight c call' Hcall'), Hid', Hstore.
  - split; [exact Hfstore | exact Hfresults].
Qed.
(** C1, as stated, fails: the key of the conditional write does not tell
    a request that was sent back and resubmitted from the request as it
    was before.  The first approver's approval, begun before the request
    was sent back and resubmitted with a shorter queue, still finds index
    0 and Pending when it finishes: it is accepted, no caller receives
    [StaleState], position 0 of the request has two accepted transitions,
    and the stored queue is the old one, not the resubmitted one. *)
Lemma stale_write_accepted_after_resubmission :
  (λ '(caller, result),
     (caller, match result with
              | inr request => inr (progress request)
              | inl e => inl e
              end)) <$> results late_approval_outcome
  = [ (2%nat, inr (SENT_BACK, 0%Z,
                   [ (u_id alice, SENT_BACK); (u_id bola, PENDING);
                     (u_id chidi, PENDING) ]));
      (3%nat, inr (PENDING, 0%Z,
                   [ (u_id alice, PENDING); (u_id chidi, PENDING) ]));
      (1%nat, inr (PENDING, 1%Z,
                   [ (u_id alice, APPROVED); (u_id bola, PENDING);
                     (u_id chidi, PENDING) ])) ]
  ∧ count_answers (accepted_at (r_id procurement) 0)
      (sv_answers late_approval_outcome) = 2%nat
  ∧ composition <$> sv_store late_approval_outcome !! r_id procurement
    = Some [u_id alice; u_id bola; u_id chidi]
  ∧ composition <$> sv_store late_approval_outcome !! r_id procurement
    ≠ Some (user_id <$> rs_approval_queue corrected).
Proof.
  split; [vm_compute; reflexivity |]. split; [vm_compute; reflexivity |].
  split; [vm_compute; reflexivity |]. vm_compute. discriminate.
Qed.

(** C1, amended.  Every mutating operation is one conditional write keyed
    on the request id and on the index and status the operation had
    loaded: it is accepted only if the store still holds that index and
    status, it then writes that one request, and a refused operation
    writes nothing.  An accepted action or resubmission changes the key; a
    resolution sets Completed.  An operation whose key the store no longer
    holds receives [StaleState], unless it is refused on what it loaded.
    Hence, for any number of callers and any order of their steps, the
    accepted transitions of a request at one queue position never
    outnumber its accepted resubmissions by more than one: at most one
    per position and round of the workflow.  Of any number of calls that
    have loaded the same request, each acceptable on its own, and then
    finish in any order, the first is accepted and every other receives
    [StaleState]; for Approve calls the stored index is the loaded index
    plus one. *)
Theorem one_accepted_transition_per_round :
  ∀ (policy : FieldPolicy) (auditor : option str),
    (∀ op loaded store store' request',
       finish policy auditor op loaded store = (store', inr request') →
       store' = <[target op := request']> store
       ∧ match op with
         | OpSubmit _ _ _ => store !! target op = None
         | OpApply _ | OpResubmit _ _ =>
             ∃ snapshot current,
               loaded = Some snapshot
               ∧ store !! target op = Some current
               ∧ token current = token snapshot
               ∧ token request' ≠ token snapshot
         | OpResolveAdHocItem _ _ _ =>
             ∃ snapshot current,
               loaded = Some snapshot
               ∧ store !! target op = Some current
               ∧ token current = token snapshot
               ∧ r_status request' = COMPLETED
         end)
    ∧ (∀ op loaded store store' e,
         finish policy auditor op loaded store = (store', inl e) →
         store' = store)
    ∧ (∀ op snapshot current store,
         (∀ newId createdAt draft, op ≠ OpSubmit newId createdAt draft) →
         store !! target op = Some current →
         token current ≠ token snapshot →
         ∃ e,
           finish policy auditor op (Some snapshot) store = (store, inl e)
           ∧ (e = StaleState
              ∨ ∀ store0,
                  finish policy auditor op (Some snapshot) store0
                  = (store0, inl e)))
    ∧ (∀ op store,
         finish policy auditor op (store !! target op) store
         = exec policy auditor op store)
    ∧ (∀ events store inflight id index,
         (count_answers (accepted_at id index)
            (sv_answers
               (run_events policy auditor events (mkService store inflight [])))
          ≤ 1 + count_answers (resubmission_of id)
                  (sv_answers
                     (run_events policy auditor events
                        (mkService store inflight []))))%nat)
    ∧ (∀ store inflight id request (racers : list (nat * ApplyCall))
         first rest,
         NoDup racers.*1 →
         store !! id = Some request →
         (∀ c call, (c, call) ∈ racers →
            call_requestId call = id
            ∧ ∃ r, transition policy auditor request
                     (actorId (call_session call)) (call_action call)
                     (call_payload call) = inr r) →
         first :: rest ≡ₚ racers.*1 →
         ∃ call r,
           (first, call) ∈ racers
           ∧ transition policy auditor request (actorId (call_session call))
               (call_action call) (call_payload call) = inr r
           ∧ sv_store
               (run_events policy auditor
                  (((λ r, Begin r.1 (OpApply r.2)) <$> racers)
                   ++ (Finish <$> first :: rest))
                  (mkService store inflight []))
             = <[id := r]> store
           ∧ results
               (run_events policy auditor
                  (((λ r, Begin r.1 (OpApply r.2)) <$> racers)
                   ++ (Finish <$> first :: rest))
                  (mkService store inflight []))
             = (first, inr r) :: ((λ c, (c, inl StaleState)) <$> rest)
           ∧ r_currentApproverIndex r
             = match call_action call with
               | Approve => (r_currentApproverIndex request + 1)%Z
               | _ => r_currentApproverIndex request
               end).
Proof.
  intros policy auditor.
  split; [| split; [| split; [| split; [| split]]]].
  - intros op loaded store store' request' Hfinish.
    apply finish_inr in Hfinish as [-> Hfound]. split; [done |].
    destruct op as [newId createdAt draft | call | session draft
                    | session requestId newStatus].
    + by destruct Hfound as [? _].
    + destruct Hfound as (snapshot & current & -> & Hcur & Htok & Ht).
      exists snapshot, current. split; [done |]. split; [done |].
      split; [done |]. apply token_ne.
      by eapply transition_spends_token.
    + destruct Hfound as (snapshot & current & -> & Hcur & Htok & Hst & ->).
      exists snapshot, current. split; [done |]. split; [done |].
      split; [done |]. apply token_ne. right. simpl. by rewrite Hst.
    + destruct Hfound as (snapshot & current & -> & Hcur & Htok & ->).
      by exists snapshot, current.
  - intros op loaded store store' e. apply finish_inl.
  - intros op snapshot current store. apply finish_stale.
  - intros op store. apply finish_unraced.
  - intros events store inflight id index.
    pose proof (run_events_rounds policy auditor events
                  (mkService store inflight []) id index) as Hrounds.
    simpl in Hrounds. specialize (Hrounds ltac:(unfold count_answers; simpl; lia)).
    pose proof (position_spent_le
                  (sv_store (run_events policy auditor events
                               (mkService store inflight [])) !! id) index).
    lia.
  - intros store inflight id request racers first rest Hnd Hstore Hracers
      Horder.
    destruct (race_one_winner policy auditor store inflight id request racers
                first rest Hnd Hstore Hracers Horder)
      as (call & r & Hin & Ht & Hfinal & Hresults).
    exists call, r. split; [done |]. split; [done |]. split; [done |].
    split; [done |].
    by apply transition_inr in Ht
      as (_ & _ & _ & _ & _ & _ & _ & _ & _ & _ & _ & _ & _ & ? & _).
Qed.

Lemma one_accepted_transition_per_round_witness :
  NoDup racing_approvals.*1
  ∧ sample_store !! r_id procurement = Some procurement
  ∧ [2; 1]%nat ≡ₚ racing_approvals.*1
  ∧ ∃ r,
      results
        (run_events IgnoreField (AUDITOR_ID directory)
           (((λ r, Begin r.1 (OpApply r.2)) <$> racing_approvals)
            ++ (Finish <$> [2; 1]%nat))
           (mkService sample_store ∅ []))
      = [(2%nat, inr r); (1%nat, inl StaleState)]
      ∧ r_currentApproverIndex r
        = (r_currentApproverIndex procurement + 1)%Z.
Proof.
  assert (Hnd : NoDup racing_approvals.*1).
  { apply NoDup_cons. split; [| apply NoDup_singleton].
    intros [=]%list_elem_of_singleton. }
  assert (Horder : [2; 1]%nat ≡ₚ racing_approvals.*1) by apply Permutation_swap.
  assert (Hracers : ∀ c call, (c, call) ∈ racing_approvals →
    call_requestId call = r_id procurement
    ∧ ∃ r, transition IgnoreField (AUDITOR_ID directory) procurement
             (actorId (call_session call)) (call_action call)
             (call_payload call) = inr r).
  { intros c call Hin.
    apply elem_of_cons in Hin as [[= -> ->] | Hin];
      [by split; [| eexists] |].
    apply list_elem_of_singleton in Hin as [= -> ->].
    by split; [| eexists]. }
  split; [exact Hnd |]. split; [reflexivity |]. split; [exact Horder |].
  destruct (one_accepted_transition_per_round IgnoreField
              (AUDITOR_ID directory))
    as (_ & _ & _ & _ & _ & Hrace).
  destruct (Hrace sample_store ∅ (r_id procurement) procurement
              racing_approvals 2%nat [1%nat] Hnd eq_refl Hracers Horder)
    as (call & r & Hin & Ht & _ & Hresults & Hindex).
  exists r. split; [exact Hresults |].
  rewrite Hindex.
  apply elem_of_cons in Hin as [[=] | Hin].
  by apply list_elem_of_singleton in Hin as [= ->].
Defined.

(** ** Role-conditioned fields *)









(** The first approver of a procurement request is neither a head of
    department nor the auditor: role-conditioned fields sent under that
    session are dropped from the stored entry, or make the action fail,
    by policy. *)
Example unentitled_fields_dropped_or_rejected :
  (λ '(store', answer),
     (match answer with
      | inr r => inr (r_status r, r_currentApproverIndex r)
      | inl e => inl e
      end,
      (λ r, (λ a, (a_userId a, a_status a, a_hodComments a,
                  a_internalAuditComments a, a_finalAmount a))
            <$> js_index (r_approvalQueue r) 0)
      <$> store' !! r_id procurement))
    (apply IgnoreField (AUDITOR_ID directory)
       (approval_with_role_fields alice procurement) sample_store)
  = (inr (PENDING, 1%Z),
     Some (Some (u_id alice, APPROVED, None, None, None)))
  ∧ apply RejectAction (AUDITOR_ID directory)
      (approval_with_role_fields alice procurement) sample_store
    = (sample_store, inl NotAuthorized).
Proof. split; vm_compute; reflexivity. Qed.

(** ** The list view after a final approval *)

(** The entry an accepted action writes. *)
Lemma transition_entry (policy : FieldPolicy) (auditor : option str)
    (request : Request) (actor : str) (action : Action) (payload : Payload)
    (request' : Request) (entry : Approver) :
  transition policy auditor request actor action payload = inr request' →
  js_index (r_approvalQueue request) (r_currentApproverIndex request)
  = Some entry →
  ∃ hod ac am,
    r_approvalQueue request'
    = <[Z.to_nat (r_currentApproverIndex request) :=
          mkApprover (a_userId entry) (a_userEmail entry)
            (entry_status action) (Some (comments payload))
            (Some (timestamp payload)) (Some (signature payload)) hod ac am]>
        (r_approvalQueue request).
Proof.
  unfold transition. intros Ht Hentry. rewrite Hentry in Ht.
  destruct (negb (bool_decide (r_status request = PENDING))); [done |].
  destruct (negb (bool_decide (actor = a_userId entry))); [done |].
  destruct (negb (truthy_str (signature payload))); [done |].
  destruct (_ && _); [done |].
  destruct (role_field policy (entitled_hod request actor) _)
    as [?|hod]; [done |].
  destruct (role_field policy (entitled_auditor auditor actor)
              (auditComments payload)) as [?|ac]; [done |].
  destruct (role_field policy (entitled_auditor auditor actor)
              (auditAmount payload)) as [?|am]; [done |].
  injection Ht as <-. simpl. eauto.
Qed.

(** Once the last entry has approved, [renderWorkflowStatus] shows that
    entry as the final approver. *)
Lemma final_approval_is_displayed (policy : FieldPolicy)
    (auditor : option str) (request : Request) (actor : str)
    (payload : Payload) (request' : Request) (entry : Approver) :
  transition policy auditor request actor Approve payload = inr request' →
  js_index (r_approvalQueue request) (r_currentApproverIndex request)
  = Some entry →
  (r_currentApproverIndex request + 1
   = Z.of_nat (List.length (r_approvalQueue request)))%Z →
  renderWorkflowStatus request'
  = Some (lit "Final Approver", or_default (a_userEmail entry) (lit "N/A")).
Proof.
  intros Ht Hentry Hlast.
  pose proof Ht as (_ & _ & _ & _ & _ & _ & _ & _ & _ & _ & _
                    & _ & _ & _ & Hs & _)%transition_inr.
  destruct (transition_entry _ _ _ _ _ _ _ _ Ht Hentry)
    as (hod & ac & am & Hq).
  apply Z.eqb_eq in Hlast as Hlast'. rewrite Hlast' in Hs.
  unfold renderWorkflowStatus. rewrite Hs, Hq.
  pose proof (js_index_bounds _ _ _ Hentry) as Hb.
  destruct (<[_ := _]> (r_approvalQueue request)) as [|a q] eqn:Hq';
    [apply (f_equal List.length) in Hq'; rewrite length_insert in Hq';
     simpl in Hq'; lia |].
  rewrite <- Hq', last_lookup, length_insert.
  replace (Nat.pred (List.length (r_approvalQueue request)))
    with (Z.to_nat (r_currentApproverIndex request)) by lia.
  by rewrite list_lookup_insert_eq by lia.
Qed.

(** ** The definitions at work *)

Example trim_strips_both_ends :
  trim (lit "  fix budget ") = lit "fix budget" ∧ trim (lit " ") = [].
Proof. split; reflexivity. Qed.

Example parseFloat_dec_examples :
  parseFloat_dec (lit "0") = Dec 0 0
  ∧ parseFloat_dec (lit "1500.50") = Dec 150050 (-2)
  ∧ parseFloat_dec (lit " -12.5e3 NGN") = Dec (-125) 2
  ∧ parseFloat_dec (lit "") = NaN
  ∧ parseFloat_dec (lit "abc") = NaN.
Proof. repeat split; reflexivity. Qed.

Example administrator_notifications :
  (λ n, (n_id n, n_isRead n))
    <$> sortedNotifs sample_getTime dayo directory
          [lit "notif-req-1-Sent Back for Correction"]
          [sent_back; commented]
  = [ (lit "notif-comment-req-1-2024-03-01T10:00:00Z", false);
      (lit "notif-comment-req-1-2024-03-01T10:00:00Z", false);
      (lit "notif-req-1-Sent Back for Correction", true) ].
Proof. vm_compute. reflexivity. Qed.

Example approver_notifications :
  n_id <$> sortedNotifs sample_getTime bola directory [] [procurement; leave]
  = [ lit "notif-req-2-Pending-u-bola" ].
Proof. vm_compute. reflexivity. Qed.

(** In edit mode the form rebuilds the queue from the selected users:
    every entry is Pending and carries nothing of an earlier round. *)
Lemma handleSubmit_updatedRequest_queue (requestToEdit : Request)
    (requestType : RequestType) (requesterName : str)
    (requestDetails : gmap str any) (approvalQueue : list User)
    (signature vendorId : str) :
  r_approvalQueue
    (handleSubmit_updatedRequest requestToEdit requestType requesterName
       requestDetails approvalQueue signature vendorId)
  = (λ u, mkApprover (u_id u) (Some (u_email u)) PENDING
            None None None None None None) <$> approvalQueue
  ∧ r_id (handleSubmit_updatedRequest requestToEdit requestType requesterName
            requestDetails approvalQueue signature vendorId)
    = r_id requestToEdit.
Proof. done. Qed.

(** * Further properties of the client *)

#[local] Arguments lit : simpl never.

(** ** Fetched comments *)

Lemma commentsByRequestId_fold (rows : list PdfCommentRow)
    (acc : gmap str (list PdfComment)) (id : str) :
  default []
    (foldl
       (λ acc c,
          <[pc_request_id c :=
              default [] (acc !! pc_request_id c)
              ++ [ {| c_id := pc_id c; c_requestId := pc_request_id c;
                      c_userId := pc_user_id c; c_userEmail := pc_user_email c;
                      c_comment := pc_comment c;
                      c_createdAt := pc_created_at c |} ]]> acc)
       acc rows !! id)
  = default [] (acc !! id)
    ++ ((λ c, {| c_id := pc_id c; c_requestId := pc_request_id c;
                 c_userId := pc_user_id c; c_userEmail := pc_user_email c;
                 c_comment := pc_comment c; c_createdAt := pc_created_at c |})
          <$> filter (λ c, pc_request_id c = id) rows).
Proof.
  revert acc. induction rows as [|c rows IH]; intros acc; simpl.
  - by rewrite app_nil_r.
  - rewrite IH, filter_cons.
    destruct (decide (pc_request_id c = id)) as [<- | Hne].
    + rewrite lookup_insert_eq. simpl. by rewrite <- app_assoc.
    + by rewrite lookup_insert_ne.
Qed.

(** The comments [fetchData] attaches to a request are exactly the
    fetched comments that name it, in the order in which they were
    fetched; a request nobody commented on gets the empty list. *)
Theorem fetched_comments_grouped :
  ∀ (rows : list PdfCommentRow) (id : str),
    fetched_pdfComments rows id
    = (λ c, {| c_id := pc_id c; c_requestId := pc_request_id c;
               c_userId := pc_user_id c; c_userEmail := pc_user_email c;
               c_comment := pc_comment c; c_createdAt := pc_created_at c |})
        <$> filter (λ c, pc_request_id c = id) rows.
Proof.
  intros. unfold fetched_pdfComments, commentsByRequestId.
  by rewrite commentsByRequestId_fold, lookup_empty.
Qed.

(** ** Calls of [addRequest] and [updateRequest] *)

Lemma calls_bind {Db A B} (server : Call → Db → Db * Outcome) (c : Client A)
    (f : A → Client B) (db : Db) :
  calls server (bind c f) db
  = calls server c db
    ++ calls server (f (run server c db).2) (run server c db).1.
Proof.
  revert db. induction c as [a | call k IH]; intros db; simpl; [done |].
  destruct (server call db) as [db' o]. simpl. by rewrite IH.
Qed.

Lemma run_bind {Db A B} (server : Call → Db → Db * Outcome) (c : Client A)
    (f : A → Client B) (db : Db) :
  run server (bind c f) db
  = run server (f (run server c db).2) (run server c db).1.
Proof.
  revert db. induction c as [a | call k IH]; intros db; simpl; [done |].
  destruct (server call db) as [db' o]. apply IH.
Qed.

(** The row [addRequest] inserts, whatever came before the insert. *)
Lemma addRequest_row {Db} (server : Call → Db → Db * Outcome) (db : Db)
    (offline : bool) (getPublicUrl : str → str) (now : str)
    (currentUser : option User) (users : list User) (draft : Request)
    (file : option File) (row : RequestForDb) :
  insert_request row
  ∈ calls server
      (addRequest offline getPublicUrl now currentUser users draft file) db →
  ∃ fileURL fileName,
    row = {| requester_id := r_requesterId draft;
             requester_name := r_requesterName draft;
             db_type := r_type draft;
             db_details := r_details draft;
             db_status := PENDING;
             approval_queue :=
               (λ approver,
                  {| user_id := a_userId approver;
                     user_email :=
                       or_else (a_userEmail approver)
                         (u_email <$> getUserById users (a_userId approver));
                     status := a_status approver |})
               <$> r_approvalQueue draft;
             current_approver_index := 0;
             file_url := fileURL;
             db_file_name := fileName;
             requester_signature := r_requesterSignature draft;
             vendor_id := r_vendorId draft |}.
Proof.
  unfold addRequest. destruct currentUser as [cu|]; simpl;
    [| by intros ?%elem_of_nil].
  unfold with_upload. destruct file as [f|]; simpl.
  - destruct (server _ db) as [db1 o].
    intros [[=] | H]%elem_of_cons.
    destruct o as [[e|]|e]; simpl in H;
      [by apply elem_of_nil in H | | by apply elem_of_nil in H].
    destruct (server _ db1) as [db2 o2]. simpl in H.
    apply elem_of_cons in H as [[= ->] | []%elem_of_nil]. eauto.
  - destruct (server _ db) as [db1 o]. simpl.
    intros [[= ->] | []%elem_of_nil]%elem_of_cons. eauto.
Qed.

(** [addRequest] creates nothing unless it can.  Without a signed-in user
    it makes no call.  With an attachment it uploads first, and when the
    upload fails it stops there and reports failure; otherwise it inserts
    exactly one row, which is Pending with index 0, keeps the queue of the
    draft in order, and names the uploaded file, or no file. *)
Theorem addRequest_inserts_once :
  ∀ (Db : Type) (server : Call → Db → Db * Outcome) (db : Db)
    (offline : bool) (getPublicUrl : str → str) (now : str) (cu : User)
    (users : list User) (draft : Request) (f : File),
    let path := u_id cu ++ lit "/" ++ now ++ lit "_" ++ file_name f in
    let inserted (row : RequestForDb) (url name : str) :=
      db_status row = PENDING
      ∧ current_approver_index row = 0%Z
      ∧ user_id <$> approval_queue row = a_userId <$> r_approvalQueue draft
      ∧ status <$> approval_queue row = a_status <$> r_approvalQueue draft
      ∧ file_url row = url ∧ db_file_name row = name in
    calls server (addRequest offline getPublicUrl now None users draft (Some f)) db
    = []
    ∧ (∃ row,
         calls server
           (addRequest offline getPublicUrl now (Some cu) users draft None) db
         = [insert_request row]
         ∧ inserted row [] [])
    ∧ match (server (storage_upload path f) db).2 with
      | Answered None =>
          ∃ row,
            calls server
              (addRequest offline getPublicUrl now (Some cu) users draft
                 (Some f)) db
            = [storage_upload path f; insert_request row]
            ∧ inserted row (getPublicUrl path) (file_name f)
      | _ =>
          calls server
            (addRequest offline getPublicUrl now (Some cu) users draft
               (Some f)) db
          = [storage_upload path f]
          ∧ success
              (run server
                 (addRequest offline getPublicUrl now (Some cu) users draft
                    (Some f)) db).2 = false
      end.
Proof.
  intros. split; [done |]. split.
  - unfold addRequest, with_upload. cbn.
    destruct (server _ db) as [db1 o]. cbn.
    eexists. split; [reflexivity |]. subst inserted. cbn.
    repeat split; rewrite <- list_fmap_compose; by apply list_fmap_ext.
  - unfold addRequest, with_upload. cbn. fold path.
    destruct (server (storage_upload path f) db) as [db1 [[e|]|e]]; cbn;
      [done | | done].
    destruct (server _ db1) as [db2 o2]. cbn.
    eexists. split; [reflexivity |]. subst inserted. cbn.
    repeat split; rewrite <- list_fmap_compose; by apply list_fmap_ext.
Qed.

(** [updateRequest] resubmits nothing unless it can.  Without a signed-in
    user it makes no call.  Without a new attachment it sends the stored
    file URL and name again, or null where they are empty.  With one it
    uploads first; when the upload fails it stops there and reports
    failure, otherwise the resubmission names the uploaded file. *)
Theorem updateRequest_resubmits_once :
  ∀ (Db : Type) (server : Call → Db → Db * Outcome) (db : Db)
    (offline : bool) (getPublicUrl : str → str) (now : str) (cu : User)
    (users : list User) (updated : Request) (f : File),
    let path := u_id cu ++ lit "/" ++ now ++ lit "_" ++ file_name f in
    calls server
      (updateRequest offline getPublicUrl now None users updated (Some f)) db
    = []
    ∧ (∃ args,
         calls server
           (updateRequest offline getPublicUrl now (Some cu) users updated None)
           db
         = [rpc_resubmit_request_as_admin args]
         ∧ rs_file_url args = or_else (r_fileURL updated) None
         ∧ rs_file_name args = or_else (r_fileName updated) None)
    ∧ match (server (storage_upload path f) db).2 with
      | Answered None =>
          ∃ args,
            calls server
              (updateRequest offline getPublicUrl now (Some cu) users updated
                 (Some f)) db
            = [storage_upload path f; rpc_resubmit_request_as_admin args]
            ∧ rs_file_url args = or_else (Some (getPublicUrl path)) None
            ∧ rs_file_name args = or_else (Some (file_name f)) None
      | _ =>
          calls server
            (updateRequest offline getPublicUrl now (Some cu) users updated
               (Some f)) db
          = [storage_upload path f]
          ∧ success
              (run server
                 (updateRequest offline getPublicUrl now (Some cu) users
                    updated (Some f)) db).2 = false
      end.
Proof.
  intros. split; [done |]. split.
  - unfold updateRequest, with_upload. cbn.
    destruct (server _ db) as [db1 o]. cbn.
    eexists. split; [reflexivity |]. cbn.
    split; [by destruct (r_fileURL updated) as [[|??]|]
           | by destruct (r_fileName updated) as [[|??]|]].
  - unfold updateRequest, with_upload. cbn. fold path.
    destruct (server (storage_upload path f) db) as [db1 [[e|]|e]]; cbn;
      [done | | done].
    destruct (server _ db1) as [db2 o2]. cbn.
    eexists. split; [reflexivity |]. done.
Qed.

(** ** Submitting the form *)

(** When [handleSubmit] gets as far as calling the context, every check of
    the form has passed. *)
Lemma handleSubmit_calls {Db} (server : Call → Db → Db * Outcome) (db : Db)
    (offline : bool) (getPublicUrl : str → str) (now : str)
    (currentUser : option User) (users : list User)
    (requestType : RequestType) (requestToEdit : option Request)
    (grandTotal : number) (f : FormState) (call : Call) :
  call ∈ calls server
           (handleSubmit offline getPublicUrl now currentUser users
              requestType requestToEdit grandTotal f) db →
  ∃ cu signature,
    currentUser = Some cu
    ∧ f_signature f = Some signature ∧ signature ≠ []
    ∧ f_dateError f = []
    ∧ (requestType ≠ ITEM → f_approvalQueue f ≠ [])
    ∧ (requestType = STORE → f_selectedStoreItems f ≠ ∅)
    ∧ (requestType = LEAVE →
       f_selectedHODId f ≠ []
       ∧ truthy_detail (f_details f !! lit "daysRemaining") = true)
    ∧ call ∈ calls server
               match requestToEdit with
               | Some toEdit =>
                   updateRequest offline getPublicUrl now currentUser users
                     (handleSubmit_updatedRequest toEdit requestType
                        (f_requesterName f)
                        (handleSubmit_requestDetails requestType grandTotal f)
                        (f_approvalQueue f) signature (f_vendorId f))
                     (f_file f)
               | None =>
                   addRequest offline getPublicUrl now currentUser users
                     (handleSubmit_newRequest cu requestType
                        (f_requesterName f)
                        (handleSubmit_requestDetails requestType grandTotal f)
                        (f_approvalQueue f) signature (f_vendorId f))
                     (f_file f)
               end db.
Proof.
  unfold handleSubmit. destruct currentUser as [cu|];
    [| by intros ?%elem_of_nil].
  destruct (truthy_str (f_dateError f)) eqn:Hdate;
    [by intros ?%elem_of_nil |].
  destruct (negb (bool_decide (requestType = ITEM))
            && bool_decide (f_approvalQueue f = [])) eqn:Hqueue;
    [by intros ?%elem_of_nil |].
  destruct (bool_decide (requestType = STORE)
            && bool_decide (f_selectedStoreItems f = ∅)) eqn:Hstore;
    [by intros ?%elem_of_nil |].
  destruct (bool_decide (requestType = LEAVE)
            && negb (truthy_str (f_selectedHODId f))) eqn:Hhod;
    [by intros ?%elem_of_nil |].
  destruct (bool_decide (requestType = LEAVE)
            && negb (truthy_detail (f_details f !! lit "daysRemaining")))
    eqn:Hdays; [by intros ?%elem_of_nil |].
  destruct (f_signature f) as [[|c s]|] eqn:Hsig;
    [by intros ?%elem_of_nil | | by intros ?%elem_of_nil].
  rewrite calls_bind. intros Hcall. apply elem_of_app in Hcall as [Hcall | Hcall].
  - exists cu, (c :: s). split; [done |]. split; [done |]. split; [done |].
    split; [by destruct (f_dateError f) |].
    split.
    { intros Hne Hq. rewrite bool_decide_eq_false_2 in Hqueue by done.
      by rewrite bool_decide_eq_true_2 in Hqueue. }
    split.
    { intros -> Hs. by rewrite !bool_decide_eq_true_2 in Hstore. }
    split; [| done].
    intros ->. rewrite bool_decide_eq_true_2 in Hhod, Hdays by done.
    simpl in Hhod, Hdays. apply negb_false_iff in Hhod, Hdays.
    split; [by destruct (f_selectedHODId f) | done].
  - destruct (success _); by apply elem_of_nil in Hcall.
Qed.

(** A request created through the form: whenever [handleSubmit] inserts
    a row, a user is signed in, the form has no date error, and the row
    carries the user's id and a non-empty signature.  An item request
    goes out with an empty queue; every other type goes out with exactly
    the selected approvers, at least one, each entry Pending.  A leave
    request names a head of department.  The vendor is sent for diesel
    and procurement requests only.  Creating never resubmits. *)
Theorem handleSubmit_creates_valid_request :
  ∀ (Db : Type) (server : Call → Db → Db * Outcome) (db : Db)
    (offline : bool) (getPublicUrl : str → str) (now : str)
    (currentUser : option User) (users : list User)
    (requestType : RequestType) (grandTotal : number) (f : FormState)
    (row : RequestForDb),
    insert_request row
    ∈ calls server
        (handleSubmit offline getPublicUrl now currentUser users requestType
           None grandTotal f) db →
    (∃ cu signature,
       currentUser = Some cu ∧ requester_id row = u_id cu
       ∧ f_signature f = Some signature ∧ signature ≠ []
       ∧ requester_signature row = Some signature)
    ∧ f_dateError f = []
    ∧ db_type row = requestType
    ∧ db_status row = PENDING
    ∧ current_approver_index row = 0%Z
    ∧ (requestType = ITEM → approval_queue row = [])
    ∧ (requestType ≠ ITEM →
       approval_queue row ≠ []
       ∧ user_id <$> approval_queue row = u_id <$> f_approvalQueue f)
    ∧ Forall (λ a, status a = PENDING) (approval_queue row)
    ∧ (requestType = LEAVE →
       f_selectedHODId f ≠ []
       ∧ db_details row !! lit "selectedHODId"
         = Some (AnyString (f_selectedHODId f)))
    ∧ (requestType = STORE → f_selectedStoreItems f ≠ ∅)
    ∧ vendor_id row
      = (if bool_decide (requestType ∈ [DIESEL; PROCUREMENT])
         then Some (f_vendorId f) else None)
    ∧ (∀ args,
         rpc_resubmit_request_as_admin args
         ∉ calls server
             (handleSubmit offline getPublicUrl now currentUser users
                requestType None grandTotal f) db).
Proof.
  intros * Hrow.
  pose proof (handleSubmit_calls _ _ _ _ _ _ _ _ _ _ _ _ Hrow)
    as (cu & sig & -> & Hsig & Hne & Hdate & Hqueue & Hstore & Hleave & Hin).
  assert (Hnever : ∀ args,
    rpc_resubmit_request_as_admin args
    ∉ calls server
        (handleSubmit offline getPublicUrl now (Some cu) users requestType
           None grandTotal f) db).
  { intros args Hargs.
    apply handleSubmit_calls in Hargs
      as (cu' & sig' & _ & _ & _ & _ & _ & _ & _ & Hargs).
    unfold addRequest, with_upload in Hargs.
    destruct (f_file f) as [file|]; cbn in Hargs.
    - destruct (server _ db) as [db1 o].
      apply elem_of_cons in Hargs as [[=] | Hargs].
      destruct o as [[e|]|e]; cbn in Hargs;
        [by apply elem_of_nil in Hargs | | by apply elem_of_nil in Hargs].
      destruct (server _ db1) as [db2 o2].
      by apply elem_of_cons in Hargs as [[=] | ?%elem_of_nil].
    - destruct (server _ db) as [db1 o].
      by apply elem_of_cons in Hargs as [[=] | ?%elem_of_nil]. }
  revert Hnever.
  generalize (calls server
                (handleSubmit offline getPublicUrl now (Some cu) users
                   requestType None grandTotal f) db).
  intros cs Hnever.
  apply addRequest_row in Hin as (fileURL & fileName & ->). cbn.
  split; [by exists cu, sig |]. split; [done |]. split; [done |].
  split; [done |]. split; [done |]. split.
  { intros ->. by rewrite bool_decide_eq_true_2. }
  split.
  { intros Hty. rewrite bool_decide_eq_false_2 by done. split.
    - destruct (f_approvalQueue f); [by destruct (Hqueue Hty) | done].
    - rewrite <- !list_fmap_compose. by apply list_fmap_ext. }
  split.
  { apply Forall_fmap. case_bool_decide; [constructor |].
    apply Forall_fmap, Forall_true. done. }
  split.
  { intros ->. destruct (Hleave eq_refl) as [Hhod _]. split; [done |].
    unfold handleSubmit_requestDetails.
    rewrite (bool_decide_eq_true_2 (LEAVE = LEAVE)) by done.
    rewrite (bool_decide_eq_false_2 (LEAVE = STORE)) by done.
    destruct (f_leaveDays f).
    - rewrite lookup_insert_ne by done. apply lookup_insert_eq.
    - rewrite lookup_delete_ne by done. apply lookup_insert_eq. }
  split; [done |]. split; [done |]. exact Hnever.
Qed.

Lemma handleSubmit_creates_valid_request_witness :
  ∃ row,
    insert_request row
    ∈ calls sample_server
        (handleSubmit false sample_getPublicUrl (lit "1709287200000")
           (Some dayo) directory LEAVE None (Dec 0 0) leave_form) 0%nat
    ∧ db_type row = LEAVE
    ∧ db_status row = PENDING
    ∧ current_approver_index row = 0%Z
    ∧ user_id <$> approval_queue row = [u_id bola; u_id chidi]
    ∧ db_details row !! lit "selectedHODId" = Some (AnyString (u_id bola))
    ∧ vendor_id row = None.
Proof.
  assert (Hex : ∃ row,
    calls sample_server
      (handleSubmit false sample_getPublicUrl (lit "1709287200000")
         (Some dayo) directory LEAVE None (Dec 0 0) leave_form) 0%nat
    = [storage_upload (lit "u-dayo/1709287200000_handover.pdf")
         (mkFile (lit "handover.pdf"));
       insert_request row])
    by (eexists; vm_compute; reflexivity).
  destruct Hex as [row Hrow]. exists row.
  assert (Hin : insert_request row
    ∈ calls sample_server
        (handleSubmit false sample_getPublicUrl (lit "1709287200000")
           (Some dayo) directory LEAVE None (Dec 0 0) leave_form) 0%nat)
    by (rewrite Hrow; right; left).
  split; [exact Hin |].
  destruct (handleSubmit_creates_valid_request nat sample_server 0%nat false
              sample_getPublicUrl (lit "1709287200000") (Some dayo) directory
              LEAVE (Dec 0 0) leave_form row Hin)
    as (_ & _ & Hty & Hst & Hidx & _ & Hqueue & _ & Hleave & _ & Hvendor & _).
  split; [exact Hty |]. split; [exact Hst |]. split; [exact Hidx |].
  split; [exact (proj2 (Hqueue ltac:(discriminate))) |].
  split; [exact (proj2 (Hleave eq_refl)) | exact Hvendor].
Defined.

(** The resubmission [updateRequest] sends, whatever came before it. *)
Lemma updateRequest_args {Db} (server : Call → Db → Db * Outcome) (db : Db)
    (offline : bool) (getPublicUrl : str → str) (now : str)
    (currentUser : option User) (users : list User) (updated : Request)
    (file : option File) (call : Call) :
  call ∈ calls server
           (updateRequest offline getPublicUrl now currentUser users updated
              file) db →
  (∃ path f, call = storage_upload path f)
  ∨ ∃ fileURL fileName,
      call = rpc_resubmit_request_as_admin {|
        rs_request_id := r_id updated;
        rs_requester_name := r_requesterName updated;
        rs_details := r_details updated;
        rs_approval_queue :=
          (λ approver,
             {| user_id := a_userId approver;
                user_email :=
                  or_else (u_email <$> getUserById users (a_userId approver))
                    (a_userEmail approver);
                status := PENDING |})
          <$> r_approvalQueue updated;
        rs_vendor_id := or_else (r_vendorId updated) None;
        rs_file_url := or_else (Some fileURL) None;
        rs_file_name := or_else (Some fileName) None;
        rs_requester_signature := r_requesterSignature updated |}.
Proof.
  unfold updateRequest. destruct currentUser as [cu|]; cbn;
    [| by intros ?%elem_of_nil].
  unfold with_upload. destruct file as [f|]; cbn.
  - destruct (server _ db) as [db1 o].
    intros [-> | H]%elem_of_cons; [left; eauto |].
    destruct o as [[e|]|e]; cbn in H;
      [by apply elem_of_nil in H | | by apply elem_of_nil in H].
    destruct (server _ db1) as [db2 o2]. cbn in H.
    apply elem_of_cons in H as [-> | []%elem_of_nil]. right. eauto.
  - destruct (server _ db) as [db1 o]. cbn.
    intros [-> | []%elem_of_nil]%elem_of_cons. right. eauto.
Qed.

(** A request resubmitted through the form: whenever [handleSubmit], in
    edit mode, sends a resubmission, it is for the edited request, signed
    afresh, with exactly the approvers selected in the form, each entry
    Pending, and at least one unless it is an item request.  Editing never
    inserts a new request. *)
Theorem handleSubmit_resubmits_edited_request :
  ∀ (Db : Type) (server : Call → Db → Db * Outcome) (db : Db)
    (offline : bool) (getPublicUrl : str → str) (now : str)
    (currentUser : option User) (users : list User)
    (requestType : RequestType) (toEdit : Request) (grandTotal : number)
    (f : FormState) (args : ResubmitArgs),
    rpc_resubmit_request_as_admin args
    ∈ calls server
        (handleSubmit offline getPublicUrl now currentUser users requestType
           (Some toEdit) grandTotal f) db →
    (∃ signature,
       f_signature f = Some signature ∧ signature ≠ []
       ∧ rs_requester_signature args = Some signature)
    ∧ is_Some currentUser
    ∧ f_dateError f = []
    ∧ rs_request_id args = r_id toEdit
    ∧ user_id <$> rs_approval_queue args = u_id <$> f_approvalQueue f
    ∧ Forall (λ a, status a = PENDING) (rs_approval_queue args)
    ∧ (requestType ≠ ITEM → rs_approval_queue args ≠ [])
    ∧ rs_details args = handleSubmit_requestDetails requestType grandTotal f
    ∧ (∀ row,
         insert_request row
         ∉ calls server
             (handleSubmit offline getPublicUrl now currentUser users
                requestType (Some toEdit) grandTotal f) db).
Proof.
  intros * Hargs.
  pose proof (handleSubmit_calls _ _ _ _ _ _ _ _ _ _ _ _ Hargs)
    as (cu & sig & -> & Hsig & Hne & Hdate & Hqueue & _ & _ & Hin).
  assert (Hnever : ∀ row,
    insert_request row
    ∉ calls server
        (handleSubmit offline getPublicUrl now (Some cu) users requestType
           (Some toEdit) grandTotal f) db).
  { intros row Hrow.
    apply handleSubmit_calls in Hrow
      as (cu' & sig' & _ & _ & _ & _ & _ & _ & _ & Hrow).
    by apply updateRequest_args in Hrow as [(? & ? & [=]) | (? & ? & [=])]. }
  revert Hnever.
  generalize (calls server
                (handleSubmit offline getPublicUrl now (Some cu) users
                   requestType (Some toEdit) grandTotal f) db).
  intros cs Hnever.
  apply updateRequest_args in Hin as [(? & ? & [=]) | (fileURL & fileName & [= ->])].
  cbn. split; [by exists sig |]. split; [done |]. split; [done |].
  split; [done |]. split.
  { rewrite <- !list_fmap_compose. by apply list_fmap_ext. }
  split; [apply Forall_fmap, Forall_fmap, Forall_true; done |].
  split.
  { intros Hty. destruct (f_approvalQueue f); [by destruct (Hqueue Hty) | done]. }
  split; [done | exact Hnever].
Qed.

Lemma handleSubmit_resubmits_edited_request_witness :
  ∃ args,
    rpc_resubmit_request_as_admin args
    ∈ calls sample_server
        (handleSubmit false sample_getPublicUrl (lit "1709287200000")
           (Some dayo) directory PROCUREMENT (Some sent_back) (Dec 0 0)
           procurement_form) 0%nat
    ∧ rs_request_id args = r_id procurement
    ∧ user_id <$> rs_approval_queue args = [u_id alice; u_id chidi]
    ∧ Forall (λ a, status a = PENDING) (rs_approval_queue args)
    ∧ rs_requester_signature args = drawn.
Proof.
  assert (Hex : ∃ args,
    calls sample_server
      (handleSubmit false sample_getPublicUrl (lit "1709287200000")
         (Some dayo) directory PROCUREMENT (Some sent_back) (Dec 0 0)
         procurement_form) 0%nat
    = [rpc_resubmit_request_as_admin args])
    by (eexists; vm_compute; reflexivity).
  destruct Hex as [args Hargs]. exists args.
  assert (Hin : rpc_resubmit_request_as_admin args
    ∈ calls sample_server
        (handleSubmit false sample_getPublicUrl (lit "1709287200000")
           (Some dayo) directory PROCUREMENT (Some sent_back) (Dec 0 0)
           procurement_form) 0%nat)
    by (rewrite Hargs; left).
  split; [exact Hin |].
  destruct (handleSubmit_resubmits_edited_request nat sample_server 0%nat
              false sample_getPublicUrl (lit "1709287200000") (Some dayo)
              directory PROCUREMENT sent_back (Dec 0 0) procurement_form args
              Hin)
    as ((sig & Hsig & _ & Hsigned) & _ & _ & Hid & Hqueue & Hpending & _).
  split; [exact Hid |]. split; [exact Hqueue |]. split; [exact Hpending |].
  rewrite Hsigned. symmetry. exact Hsig.
Defined.

(** ** Choosing the approvers *)

Lemma existsb_id_false (id : str) (l : list User) :
  existsb (λ selected, bool_decide (u_id selected = id)) l = false
  ↔ id ∉ u_id <$> l.
Proof.
  induction l as [|u l IH]; simpl.
  - split; [intros _; apply not_elem_of_nil | done].
  - rewrite orb_false_iff, IH, not_elem_of_cons, bool_decide_eq_false.
    split; intros [? ?]; split; try done; by intros ?.
Qed.

(** The queue built with the selector never names anybody twice and only
    names approvers it was offered: an available approver is not yet
    selected, adding one keeps the ids distinct and puts the newcomer
    last, and removing that id again gives back the queue as it was.
    Removing an id leaves the others in their order. *)
Theorem selector_keeps_queue_distinct :
  ∀ (offered selected : list User) (approver : User),
    NoDup (u_id <$> selected) →
    approver ∈ availableApprovers offered selected →
    approver ∈ offered
    ∧ (∀ users, offered = approvers users → u_role approver = APPROVER)
    ∧ (u_id approver ∉ (u_id <$> selected))
    ∧ NoDup (u_id <$> addApprover approver selected)
    ∧ last (addApprover approver selected) = Some approver
    ∧ removeApprover (u_id approver) (addApprover approver selected) = selected
    ∧ (∀ id, (id ∉ (u_id <$> removeApprover id selected))
             ∧ (removeApprover id selected `sublist_of` selected)
             ∧ NoDup (u_id <$> removeApprover id selected)).
Proof.
  intros * Hnd Hav. unfold availableApprovers in Hav.
  apply list_elem_of_filter in Hav as [Hfree Hin].
  apply existsb_id_false in Hfree.
  split; [done |]. split.
  { intros users ->. unfold approvers in Hin.
    by apply list_elem_of_filter in Hin as [? _]. }
  split; [done |]. split; [| split; [| split]].
  - unfold addApprover. rewrite fmap_app. simpl.
    apply NoDup_app. split; [done |]. split; [| apply NoDup_singleton].
    intros id Hid ->%list_elem_of_singleton. done.
  - unfold addApprover. by rewrite last_snoc.
  - unfold removeApprover, addApprover. rewrite filter_app, filter_cons.
    rewrite decide_False by (intros H; by apply H). rewrite filter_nil, app_nil_r.
    clear Hnd. induction selected as [|u l IH]; [done |].
    simpl in Hfree. apply not_elem_of_cons in Hfree as [Hne Hfree].
    rewrite filter_cons, decide_True by done. by rewrite IH.
  - intros id. unfold removeApprover. split; [| split].
    + intros (u & -> & Hu)%list_elem_of_fmap.
      by apply list_elem_of_filter in Hu as [Hu _].
    + apply sublist_filter.
    + eapply sublist_NoDup; [exact Hnd |].
      apply fmap_sublist, sublist_filter.
Qed.

Lemma selector_keeps_queue_distinct_witness :
  NoDup (u_id <$> [alice])
  ∧ bola ∈ availableApprovers (approvers directory) [alice]
  ∧ u_role bola = APPROVER
  ∧ NoDup (u_id <$> addApprover bola [alice])
  ∧ removeApprover (u_id bola) (addApprover bola [alice]) = [alice].
Proof.
  assert (Hnd : NoDup (u_id <$> [alice])) by apply NoDup_singleton.
  assert (Hav : bola ∈ availableApprovers (approvers directory) [alice])
    by (vm_compute; left).
  split; [exact Hnd |]. split; [exact Hav |].
  destruct (selector_keeps_queue_distinct (approvers directory) [alice] bola
              Hnd Hav)
    as (_ & Hrole & _ & Hadded & _ & Hremoved & _).
  split; [exact (Hrole directory eq_refl) |].
  split; [exact Hadded | exact Hremoved].
Defined.

(** ** Choosing store items *)

Lemma handleAddStoreItems_lookup (itemIds : list str)
    (selected : gmap str number) (id : str) :
  handleAddStoreItems itemIds selected !! id
  = match selected !! id with
    | Some q => Some q
    | None => if bool_decide (id ∈ itemIds) then Some (Dec 1 0) else None
    end.
Proof.
  unfold handleAddStoreItems. revert selected.
  induction itemIds as [|i ids IH]; intros selected; simpl.
  - by destruct (selected !! id).
  - rewrite IH. destruct (selected !! i) as [qi|] eqn:Hi.
    + destruct (selected !! id) as [q|] eqn:Hid; [done |].
      assert (id ≠ i) by congruence.
      destruct (decide (id ∈ ids)) as [Hin | Hout].
      * by rewrite !bool_decide_eq_true_2 by (try right; done).
      * rewrite !bool_decide_eq_false_2; [done | | done].
        by intros [?|?]%elem_of_cons.
    + destruct (decide (id = i)) as [-> | Hne].
      * rewrite lookup_insert_eq, Hi.
        by rewrite bool_decide_eq_true_2 by left.
      * rewrite lookup_insert_ne by done.
        destruct (selected !! id) as [q|]; [done |].
        destruct (decide (id ∈ ids)) as [Hin | Hout].
        -- by rewrite !bool_decide_eq_true_2 by (try right; done).
        -- rewrite !bool_decide_eq_false_2; [done | | done].
           by intros [?|?]%elem_of_cons.
Qed.

(** The selection of store items.  Typing a quantity stores, under the
    typed item, 0 when the input does not parse or is negative and the
    parsed number otherwise, and changes no other item; adding items
    gives the new ones quantity 1 and leaves the quantities already
    chosen alone; removing an item takes just that item out, and removing
    an item just added gives back the selection.  So a selection that
    only holds quantities that are numbers and not negative keeps doing
    so. *)
Theorem store_selection_quantities :
  ∀ (parseInt : str → number) (selected : gmap str number)
    (itemId quantity : str) (itemIds : list str),
    map_Forall (λ _ q, num_ge0 q = true) selected →
    map_Forall (λ _ q, num_ge0 q = true)
      (handleStoreItemQuantityChange parseInt itemId quantity selected)
    ∧ map_Forall (λ _ q, num_ge0 q = true)
        (handleAddStoreItems itemIds selected)
    ∧ map_Forall (λ _ q, num_ge0 q = true)
        (handleRemoveStoreItem itemId selected)
    ∧ (∀ id q, selected !! id = Some q →
         handleAddStoreItems itemIds selected !! id = Some q)
    ∧ (∀ id, selected !! id = None → id ∈ itemIds →
         handleAddStoreItems itemIds selected !! id = Some (Dec 1 0))
    ∧ (∀ id, is_Some (handleAddStoreItems itemIds selected !! id)
             ↔ is_Some (selected !! id) ∨ id ∈ itemIds)
    ∧ (selected !! itemId = None →
       handleRemoveStoreItem itemId (handleAddStoreItems [itemId] selected)
       = selected)
    ∧ (∀ id, id ≠ itemId →
         handleStoreItemQuantityChange parseInt itemId quantity selected !! id
         = selected !! id)
    ∧ handleStoreItemQuantityChange parseInt itemId quantity selected !! itemId
      = Some (if isNaN (parseInt quantity) || num_lt0 (parseInt quantity)
              then Dec 0 0 else parseInt quantity)
    ∧ (isNaN (parseInt quantity) = true ∨ num_lt0 (parseInt quantity) = true →
       handleStoreItemQuantityChange parseInt itemId quantity selected
         !! itemId
       = Some (Dec 0 0))
    ∧ (isNaN (parseInt quantity) = false →
       num_lt0 (parseInt quantity) = false →
       handleStoreItemQuantityChange parseInt itemId quantity selected
         !! itemId
       = Some (parseInt quantity))
    ∧ handleRemoveStoreItem itemId selected !! itemId = None
    ∧ (∀ id, id ≠ itemId →
         handleRemoveStoreItem itemId selected !! id = selected !! id).
Proof.
  intros * Hok.
  assert (Hstored :
    handleStoreItemQuantityChange parseInt itemId quantity selected !! itemId
    = Some (if isNaN (parseInt quantity) || num_lt0 (parseInt quantity)
            then Dec 0 0 else parseInt quantity)).
  { unfold handleStoreItemQuantityChange.
    destruct (_ || _); apply lookup_insert_eq. }
  split; [| split; [| split; [| split; [| split; [| split; [| split;
    [| split; [| split; [| split; [| split; [| split]]]]]]]]]]].
  - unfold handleStoreItemQuantityChange.
    destruct (isNaN (parseInt quantity) || num_lt0 (parseInt quantity)) eqn:Hbad.
    + by apply map_Forall_insert_2.
    + apply map_Forall_insert_2; [| done].
      apply orb_false_iff in Hbad as [Hnan Hneg].
      destruct (parseInt quantity) as [| [] | m e]; simpl in *; try done.
      apply Z.ltb_ge in Hneg. by apply Z.leb_le.
  - intros id q. rewrite handleAddStoreItems_lookup.
    destruct (selected !! id) as [q'|] eqn:Hid.
    + intros [= <-]. by eapply Hok.
    + case_bool_decide; [by intros [= <-] | done].
  - unfold handleRemoveStoreItem. by apply map_Forall_delete.
  - intros id q Hid. by rewrite handleAddStoreItems_lookup, Hid.
  - intros id Hid Hin. rewrite handleAddStoreItems_lookup, Hid.
    by rewrite bool_decide_eq_true_2.
  - intros id. rewrite handleAddStoreItems_lookup.
    destruct (selected !! id) as [q|]; [split; eauto |].
    case_bool_decide as Hin; split; [eauto | eauto | by intros [? ?] |].
    intros [[? ?] | ?]; done.
  - intros Hfree. unfold handleRemoveStoreItem, handleAddStoreItems. simpl.
    rewrite Hfree. by rewrite delete_insert_id.
  - intros id Hne. unfold handleStoreItemQuantityChange.
    destruct (_ || _); by rewrite lookup_insert_ne.
  - exact Hstored.
  - intros Hbad. rewrite Hstored.
    by destruct Hbad as [-> | ->]; rewrite ?orb_true_r.
  - intros Hnan Hneg. by rewrite Hstored, Hnan, Hneg.
  - unfold handleRemoveStoreItem. apply lookup_delete_eq.
  - intros id Hne. unfold handleRemoveStoreItem. by apply lookup_delete_ne.
Qed.

Lemma store_selection_quantities_witness :
  map_Forall (λ _ q, num_ge0 q = true) sample_selection
  ∧ map_Forall (λ _ q, num_ge0 q = true)
      (handleStoreItemQuantityChange sample_parseInt (lit "item-1") (lit "-3")
         sample_selection)
  ∧ handleStoreItemQuantityChange sample_parseInt (lit "item-1") (lit "-3")
      sample_selection !! lit "item-1"
    = Some (Dec 0 0)
  ∧ handleRemoveStoreItem (lit "item-1") sample_selection !! lit "item-1"
    = None
  ∧ handleAddStoreItems [lit "item-1"; lit "item-2"]
      sample_selection !! lit "item-1"
    = Some (Dec 2 0)
  ∧ handleAddStoreItems [lit "item-1"; lit "item-2"]
      sample_selection !! lit "item-2"
    = Some (Dec 1 0).
Proof.
  assert (Hok : map_Forall (λ _ q, num_ge0 q = true)
                  sample_selection)
    by (by apply map_Forall_singleton).
  split; [exact Hok |].
  destruct (store_selection_quantities sample_parseInt
              sample_selection (lit "item-1") (lit "-3")
              [lit "item-1"; lit "item-2"] Hok)
    as (Htyped & _ & _ & Hkept & Hnew & _ & _ & _ & _ & Hzero & _ & Hgone & _).
  split; [exact Htyped |].
  split; [apply Hzero; right; vm_compute; reflexivity |].
  split; [exact Hgone |].
  split; [apply Hkept; vm_compute; reflexivity |].
  apply Hnew; [vm_compute; reflexivity | right; left].
Defined.

Example typed_quantities :
  handleStoreItemQuantityChange sample_parseInt (lit "item-1") (lit "4")
    sample_selection !! lit "item-1" = Some (Dec 4 0)
  ∧ handleStoreItemQuantityChange sample_parseInt (lit "item-1") (lit "abc")
      sample_selection !! lit "item-1" = Some (Dec 0 0).
Proof. split; vm_compute; reflexivity. Qed.

(** ** The request list *)

Lemma filter_throwing_Some {A} (p : A → option bool) (l r : list A) :
  filter_throwing p l = Some r →
  r = filter (λ x, p x = Some true) l ∧ Forall (λ x, is_Some (p x)) l.
Proof.
  revert r. induction l as [|x l IH]; intros r; simpl.
  - intros [= <-]. by split.
  - destruct (p x) as [b|] eqn:Hx; simpl; [| done].
    destruct (filter_throwing p l) as [rest|]; simpl; [| done].
    intros [= <-]. destruct (IH rest eq_refl) as [-> Hall].
    split; [| constructor; [by rewrite Hx | done]].
    rewrite filter_cons. rewrite Hx.
    destruct b; [by rewrite decide_True | by rewrite decide_False].
Qed.

Lemma filter_throwing_total {A} (p : A → option bool) (l : list A) :
  Forall (λ x, is_Some (p x)) l → is_Some (filter_throwing p l).
Proof.
  induction 1 as [|x l [b Hx] _ [rest IH]]; simpl; [by eexists |].
  rewrite Hx, IH. simpl. by eexists.
Qed.

Lemma filter_sublist_impl {A} (P Q : A → Prop) `{!∀ x, Decision (P x)}
    `{!∀ x, Decision (Q x)} (l : list A) :
  (∀ x, P x → Q x) → filter P l `sublist_of` filter Q l.
Proof.
  intros Himpl. induction l as [|x l IH]; [done |].
  rewrite !filter_cons.
  destruct (decide (P x)) as [HP | HP].
  - rewrite decide_True by auto. by constructor.
  - destruct (decide (Q x)); [by constructor | done].
Qed.

Lemma matchesSearch_blank (toLowerCase : str → str) (searchQuery : str)
    (req : Request) :
  trim (toLowerCase searchQuery) = [] →
  matchesSearch toLowerCase searchQuery req = Some true.
Proof. unfold matchesSearch. by intros ->. Qed.

(** The entry the pending tab looks at is the one the modal looks at. *)
Lemma pending_filter_is_approver (cu : User) (req : Request) :
  r_type req ≠ ITEM →
  (r_status req = PENDING
   ∧ a_userId <$> js_index (r_approvalQueue req) (r_currentApproverIndex req)
     = Some (u_id cu))
  ↔ isCurrentUserApprover (Some cu) req = true.
Proof.
  intros Hty. split.
  - intros [Hst Hentry]. unfold isCurrentUserApprover.
    rewrite bool_decide_eq_true_2 by done. simpl.
    rewrite bool_decide_eq_false_2 by done.
    destruct (js_index _ _) as [entry|] eqn:He; [| done].
    pose proof (js_index_bounds _ _ _ He) as Hb.
    unfold length_le. rewrite (proj2 (Z.leb_gt _ _)) by lia.
    injection Hentry as Hentry. by apply bool_decide_eq_true_2.
  - intros (Hst & _ & entry & He & Hid)%isCurrentUserApprover_spec.
    split; [done |]. by rewrite He, <- Hid.
Qed.

(** What the list shows is always a selection of the fetched requests in
    their order, without item requests, and nothing without a signed-in
    user.  With a blank search the list never fails.  For an approver
    the pending tab shows exactly the requests that match the search and
    on which the modal lets that approver act. *)
Theorem list_shows_actionable_requests :
  ∀ (toLowerCase : str → str) (requests : list Request)
    (currentUser : option User) (activeTab : Tab) (searchQuery : str),
    (∀ shown,
       filteredRequests toLowerCase requests currentUser activeTab searchQuery
       = Some shown →
       shown `sublist_of` requests
       ∧ Forall (λ req, r_type req ≠ ITEM) shown
       ∧ Forall (λ req, matchesSearch toLowerCase searchQuery req = Some true)
           shown
       ∧ (currentUser = None → shown = []))
    ∧ (trim (toLowerCase searchQuery) = [] →
       is_Some (filteredRequests toLowerCase requests currentUser activeTab
                  searchQuery))
    ∧ (∀ cu shown,
         currentUser = Some cu → u_role cu = APPROVER →
         filteredRequests toLowerCase requests currentUser (TabStatus PENDING)
           searchQuery = Some shown →
         shown
         = filter
             (λ req, isCurrentUserApprover (Some cu) req = true
                     ∧ matchesSearch toLowerCase searchQuery req = Some true)
             requests).
Proof.
  intros. split; [| split].
  - intros shown. unfold filteredRequests.
    destruct (filter_throwing _ _) as [searched|] eqn:Hs; simpl; [| done].
    apply filter_throwing_Some in Hs as [-> _].
    set (base := filter (λ x, matchesSearch toLowerCase searchQuery x = Some true)
                   (filter (λ req, r_type req ≠ ITEM) requests)).
    assert (Hbase : ∀ l, l `sublist_of` base →
      l `sublist_of` requests
      ∧ Forall (λ req, r_type req ≠ ITEM) l
      ∧ Forall (λ req, matchesSearch toLowerCase searchQuery req = Some true) l).
    { intros l Hl. split; [| split].
      - etrans; [exact Hl |]. subst base.
        etrans; apply sublist_filter.
      - apply Forall_forall. intros x Hx.
        eapply elem_of_sublist in Hx; [| exact Hl]. subst base.
        apply list_elem_of_filter in Hx as [_ Hx].
        by apply list_elem_of_filter in Hx as [? _].
      - apply Forall_forall. intros x Hx.
        eapply elem_of_sublist in Hx; [| exact Hl]. subst base.
        by apply list_elem_of_filter in Hx as [? _]. }
    destruct currentUser as [cu|].
    + intros Hshown.
      assert (Hsub : shown `sublist_of` base).
      { destruct (u_role cu), activeTab as [|[]]; injection Hshown as <-;
          (reflexivity || apply sublist_filter). }
      destruct (Hbase shown Hsub) as (? & ? & ?). by repeat split.
    + intros [= <-]. repeat split; try constructor. apply sublist_nil_l.
  - intros Hblank. unfold filteredRequests.
    destruct (filter_throwing_total (matchesSearch toLowerCase searchQuery)
                (filter (λ req, r_type req ≠ ITEM) requests)) as [searched ->].
    { apply Forall_forall. intros x _.
      by rewrite matchesSearch_blank. }
    simpl. destruct currentUser as [cu|]; [| by eexists].
    destruct (u_role cu), activeTab as [|[]]; by eexists.
  - intros cu shown -> Hrole. unfold filteredRequests. rewrite Hrole.
    destruct (filter_throwing _ _) as [searched|] eqn:Hs; simpl; [| done].
    apply filter_throwing_Some in Hs as [-> _]. intros [= <-].
    induction requests as [|req requests IH]; [done |].
    rewrite !(filter_cons _ req).
    destruct (decide (r_type req ≠ ITEM)) as [Hty | Hty].
    + rewrite !filter_cons.
      destruct (decide (matchesSearch toLowerCase searchQuery req = Some true))
        as [Hm | Hm].
      * rewrite filter_cons.
        destruct (decide (r_status req = PENDING ∧ _)) as [Hp | Hp].
        -- rewrite decide_True
             by (split; [by apply pending_filter_is_approver | done]).
           by rewrite IH.
        -- rewrite decide_False; [done |].
           intros [Ha _]. by apply pending_filter_is_approver in Ha.
      * rewrite decide_False by (by intros [_ ?]). done.
    + rewrite decide_False; [done |].
      intros [(_ & Hne & _)%isCurrentUserApprover_spec _]. done.
Qed.

Lemma list_shows_actionable_requests_witness :
  filteredRequests sample_toLowerCase [procurement; leave; approved_once; item]
    (Some alice) (TabStatus PENDING) (lit "REQ")
  = Some [procurement]
  ∧ [procurement] `sublist_of` [procurement; leave; approved_once; item]
  ∧ [procurement]
    = filter
        (λ req, isCurrentUserApprover (Some alice) req = true
                ∧ matchesSearch sample_toLowerCase (lit "REQ") req = Some true)
        [procurement; leave; approved_once; item].
Proof.
  assert (Hshown :
    filteredRequests sample_toLowerCase
      [procurement; leave; approved_once; item] (Some alice)
      (TabStatus PENDING) (lit "REQ")
    = Some [procurement]) by (vm_compute; reflexivity).
  split; [exact Hshown |].
  destruct (list_shows_actionable_requests sample_toLowerCase
              [procurement; leave; approved_once; item] (Some alice)
              (TabStatus PENDING) (lit "REQ"))
    as (Hsel & _ & Hpending).
  split; [exact (proj1 (Hsel _ Hshown)) |].
  exact (Hpending alice _ eq_refl eq_refl Hshown).
Defined.

(** For every signed-in user, what a status tab shows is part of what
    the tab for all requests shows, in the same order. *)
Theorem status_tabs_within_all_tab :
  ∀ (toLowerCase : str → str) (requests : list Request) (cu : User)
    (tab : ApprovalStatus) (searchQuery : str) (shown all : list Request),
    filteredRequests toLowerCase requests (Some cu) (TabStatus tab)
      searchQuery = Some shown →
    filteredRequests toLowerCase requests (Some cu) TabAll searchQuery
    = Some all →
    shown `sublist_of` all.
Proof.
  intros *. unfold filteredRequests.
  destruct (filter_throwing _ _) as [searched|]; simpl; [| done].
  destruct (u_role cu).
  - intros [= <-] [= <-]. apply sublist_filter.
  - destruct tab; intros [= <-] [= <-]; apply filter_sublist_impl.
    + intros req [_ Hentry].
      destruct (js_index _ _) as [entry|] eqn:He; [| done].
      injection Hentry as Hentry.
      apply js_index_Some in He as [_ He].
      apply existsb_exists. exists entry.
      split; [by eapply list_elem_of_In, list_elem_of_lookup_2 |].
      by apply bool_decide_eq_true_2.
    + intros req (a & Hin & (Ha & _)%andb_true_iff)%existsb_exists.
      apply existsb_exists. eauto.
    + intros req (a & Hin & (Ha & _)%andb_true_iff)%existsb_exists.
      apply existsb_exists. eauto.
    + intros req (a & Hin & (Ha & _)%andb_true_iff)%existsb_exists.
      apply existsb_exists. eauto.
    + intros req (a & Hin & (Ha & _)%andb_true_iff)%existsb_exists.
      apply existsb_exists. eauto.
Qed.

Lemma status_tabs_within_all_tab_witness :
  filteredRequests sample_toLowerCase [procurement; leave; approved_once; item]
    (Some alice) (TabStatus PENDING) (lit "REQ")
  = Some [procurement]
  ∧ filteredRequests sample_toLowerCase
      [procurement; leave; approved_once; item] (Some alice) TabAll (lit "REQ")
    = Some [procurement; approved_once]
  ∧ [procurement] `sublist_of` [procurement; approved_once].
Proof.
  assert (Hshown :
    filteredRequests sample_toLowerCase
      [procurement; leave; approved_once; item] (Some alice)
      (TabStatus PENDING) (lit "REQ")
    = Some [procurement]) by (vm_compute; reflexivity).
  assert (Hall :
    filteredRequests sample_toLowerCase
      [procurement; leave; approved_once; item] (Some alice) TabAll
      (lit "REQ")
    = Some [procurement; approved_once]) by (vm_compute; reflexivity).
  split; [exact Hshown |]. split; [exact Hall |].
  exact (status_tabs_within_all_tab sample_toLowerCase
           [procurement; leave; approved_once; item] alice PENDING (lit "REQ")
           [procurement] [procurement; approved_once] Hshown Hall).
Defined.

(** ** Reading a notification *)

Lemma sort_insert_fmap {A} (cmp : A → A → Z) (g : A → A) (x : A)
    (l : list A) :
  (∀ a b, cmp (g a) (g b) = cmp a b) →
  sort_insert cmp (g x) (g <$> l) = g <$> sort_insert cmp x l.
Proof.
  intros Hcmp. induction l as [|y l IH]; [done |].
  cbn. rewrite Hcmp. destruct (0 <? cmp x y)%Z; [| done].
  by rewrite IH.
Qed.

Lemma js_sort_fmap {A} (cmp : A → A → Z) (g : A → A) (l : list A) :
  (∀ a b, cmp (g a) (g b) = cmp a b) →
  js_sort cmp (g <$> l) = g <$> js_sort cmp l.
Proof.
  intros Hcmp. induction l as [|x l IH]; [done |].
  cbn. fold (js_sort cmp (g <$> l)). fold (js_sort cmp l).
  by rewrite IH, sort_insert_fmap.
Qed.

Lemma markRead_createdAt (id : str) (n : Notification) :
  n_createdAt (markRead id n) = n_createdAt n.
Proof. unfold markRead. by case_bool_decide. Qed.

Lemma bool_decide_snoc (x id : str) (readIds : list str) :
  bool_decide (x ∈ readIds ++ [id])
  = bool_decide (x ∈ readIds) || bool_decide (x = id).
Proof.
  apply eq_true_iff_eq.
  rewrite orb_true_iff, !bool_decide_eq_true, elem_of_app,
    list_elem_of_singleton.
  done.
Qed.

(** Deriving with one more seen id is deriving and then marking that id
    as read. *)
Lemma generatedNotifs_snoc (currentUser : User) (users : list User)
    (readIds : list str) (id : str) (requests : list Request) :
  generatedNotifs currentUser users (readIds ++ [id]) requests
  = markRead id <$> generatedNotifs currentUser users readIds requests.
Proof.
  assert (Hmark : ∀ nid msg rid at_,
    {| n_id := nid; n_message := msg; n_requestId := rid;
       n_isRead := bool_decide (nid ∈ readIds ++ [id]); n_createdAt := at_ |}
    = markRead id
        {| n_id := nid; n_message := msg; n_requestId := rid;
           n_isRead := bool_decide (nid ∈ readIds); n_createdAt := at_ |}).
  { intros. unfold markRead. cbn. rewrite bool_decide_snoc.
    destruct (bool_decide (nid = id));
      [by rewrite orb_true_r | by rewrite orb_false_r]. }
  unfold generatedNotifs.
  induction requests as [|req requests IH]; [done |].
  change ((req :: requests) ≫= ?g) with (g req ++ requests ≫= g).
  rewrite IH, fmap_app. f_equal. clear IH.
  unfold requestNotifications. rewrite fmap_app. f_equal.
  - destruct (_ && _); [| done].
    destruct (match js_index _ _ with Some _ => _ | None => _ end); [| done].
    cbn. by rewrite Hmark.
  - case_bool_decide; [| done]. rewrite fmap_app. f_equal.
    + case_bool_decide; [| done]. cbn. by rewrite Hmark.
    + induction (r_pdfComments req) as [|c cs IHc]; [done |].
      change ((c :: cs) ≫= ?g) with (g c ++ cs ≫= g).
      rewrite IHc, fmap_app. f_equal.
      unfold commentNotification. case_bool_decide; [done |].
      cbn. by rewrite Hmark.
Qed.

(** Reading a notification agrees with the derivation.  If the list on
    screen is the one the notifications effect derived, then after a
    click on any notification the list on screen is already the one the
    effect derives from the updated seen ids: running the effect again
    changes nothing. *)
Theorem click_agrees_with_derivation :
  ∀ (getTime : str → option Z) (cu : User) (users : list User)
    (requests : list Request) (notification : Notification)
    (st : DashboardState) (inModal : option Request) (open : bool),
    let derived := notificationsEffect getTime (Some cu) users requests st in
    let clicked :=
      handleNotificationClick (Some cu) requests notification
        (mkDashboardView derived inModal open) in
    notificationsEffect getTime (Some cu) users requests (view_state clicked)
    = view_state clicked
    ∧ n_id notification
      ∈ readNotifIds (localStorage (view_state clicked)) cu
    ∧ (∀ n, n ∈ notifications (view_state clicked) →
         n_isRead n
         = bool_decide
             (n_id n ∈ readNotifIds (localStorage (view_state clicked)) cu)).
Proof.
  intros. subst derived clicked. cbn.
  set (readIds := readNotifIds (localStorage st) cu).
  assert (Hresult : ∀ ids n,
    n ∈ sortedNotifs getTime cu users ids requests →
    n_isRead n = bool_decide (n_id n ∈ ids)).
  { intros ids n Hn. unfold sortedNotifs in Hn. rewrite js_sort_perm in Hn.
    by apply generatedNotifs_props in Hn as [? _]. }
  case_bool_decide as Hseen.
  - cbn. split; [done |]. split; [done |]. apply Hresult.
  - cbn.
    assert (Hread :
      readNotifIds
        (<[lit "zmc-read-notifs-" ++ u_id cu :=
             readIds ++ [n_id notification]]> (localStorage st)) cu
      = readIds ++ [n_id notification]).
    { unfold readNotifIds at 1. by rewrite lookup_insert_eq. }
    rewrite !Hread.
    assert (Hlist :
      markRead (n_id notification)
        <$> sortedNotifs getTime cu users readIds requests
      = sortedNotifs getTime cu users (readIds ++ [n_id notification]) requests).
    { unfold sortedNotifs. rewrite generatedNotifs_snoc.
      symmetry. apply js_sort_fmap. intros a b. unfold byCreatedAtDesc.
      by rewrite !markRead_createdAt. }
    rewrite Hlist. split; [done |].
    split; [apply elem_of_app; right; by apply list_elem_of_singleton |].
    apply Hresult.
Qed.

Lemma find_id_spec (requests : list Request) (id : str) (r : Request) :
  js_find (λ r, bool_decide (r_id r = id)) requests = Some r →
  r ∈ requests ∧ r_id r = id.
Proof.
  unfold js_find. intros [Hin Hid]%find_some.
  split; [by apply list_elem_of_In | by apply bool_decide_eq_true in Hid].
Qed.

(** A click marks once.  Clicking the same notification again changes
    nothing; the stored seen ids only grow, by the clicked id, and stay
    free of duplicates; the seen ids of other users are untouched; the
    panel closes; and the modal opens on a fetched request with the id
    the notification names, or stays as it was.  Without a signed-in user
    a click does nothing. *)
Theorem click_marks_once :
  ∀ (cu : User) (requests : list Request) (notification : Notification)
    (view : DashboardView),
    let clicked :=
      handleNotificationClick (Some cu) requests notification view in
    let before := readNotifIds (localStorage (view_state view)) cu in
    let after := readNotifIds (localStorage (view_state clicked)) cu in
    handleNotificationClick (Some cu) requests notification clicked = clicked
    ∧ (after = before ∨ after = before ++ [n_id notification])
    ∧ n_id notification ∈ after
    ∧ (NoDup before → NoDup after)
    ∧ (∀ other, u_id other ≠ u_id cu →
         readNotifIds (localStorage (view_state clicked)) other
         = readNotifIds (localStorage (view_state view)) other)
    ∧ isNotificationsOpen clicked = false
    ∧ (∀ r, requestInModal clicked = Some r →
         requestInModal view = Some r
         ∨ (r ∈ requests ∧ r_id r = n_requestId notification))
    ∧ handleNotificationClick None requests notification view = view.
Proof.
  intros. subst clicked before after. cbn.
  set (readIds := readNotifIds (localStorage (view_state view)) cu).
  assert (Hread :
    readNotifIds
      (<[lit "zmc-read-notifs-" ++ u_id cu :=
           readIds ++ [n_id notification]]> (localStorage (view_state view))) cu
    = readIds ++ [n_id notification]).
  { unfold readNotifIds at 1. by rewrite lookup_insert_eq. }
  assert (Hmodal :
    match js_find (λ r, bool_decide (r_id r = n_requestId notification))
            requests with
    | Some requestToView => Some requestToView
    | None =>
        match js_find (λ r, bool_decide (r_id r = n_requestId notification))
                requests with
        | Some requestToView => Some requestToView
        | None => requestInModal view
        end
    end
    = match js_find (λ r, bool_decide (r_id r = n_requestId notification))
              requests with
      | Some requestToView => Some requestToView
      | None => requestInModal view
      end) by by destruct (js_find _ _).
  split; [| split; [| split; [| split; [| split; [| split; [| split]]]]]].
  - rewrite Hmodal. f_equal.
    destruct (bool_decide (n_id notification ∈ readIds)) eqn:Hseen; cbn.
    + fold readIds. by rewrite Hseen.
    + rewrite Hread. rewrite bool_decide_eq_true_2; [done |].
      apply elem_of_app. right. by apply list_elem_of_singleton.
  - case_bool_decide; cbn; [by left | right; by rewrite Hread].
  - case_bool_decide; cbn; [done |]. rewrite Hread.
    apply elem_of_app. right. by apply list_elem_of_singleton.
  - intros Hnd. case_bool_decide as Hseen; cbn; [done |]. rewrite Hread.
    apply NoDup_app. split; [done |]. split; [| apply NoDup_singleton].
    intros x Hx ->%list_elem_of_singleton. done.
  - intros other Hne. case_bool_decide; cbn; [done |].
    unfold readNotifIds. rewrite lookup_insert_ne; [done |].
    intros Heq. by apply app_inv_head in Heq.
  - done.
  - intros r. destruct (js_find _ _) as [found|] eqn:Hfind; [| by left].
    intros [= <-]. right. by apply find_id_spec.
  - done.
Qed.

Lemma click_marks_once_witness :
  NoDup (readNotifIds (localStorage (view_state alice_view)) alice)
  ∧ NoDup (readNotifIds
             (localStorage
                (view_state
                   (handleNotificationClick (Some alice) [procurement; leave]
                      alice_notification alice_view))) alice)
  ∧ requestInModal
      (handleNotificationClick (Some alice) [procurement; leave]
         alice_notification alice_view)
    = Some procurement
  ∧ (Some procurement = requestInModal alice_view
     ∨ (procurement ∈ [procurement; leave]
        ∧ r_id procurement = n_requestId alice_notification)).
Proof.
  assert (Hnd : NoDup (readNotifIds (localStorage (view_state alice_view))
                         alice)) by (vm_compute; constructor).
  assert (Hmodal :
    requestInModal
      (handleNotificationClick (Some alice) [procurement; leave]
         alice_notification alice_view)
    = Some procurement) by (vm_compute; reflexivity).
  destruct (click_marks_once alice [procurement; leave] alice_notification
              alice_view)
    as (_ & _ & _ & Hkeeps & _ & _ & Hopens & _).
  split; [exact Hnd |]. split; [exact (Hkeeps Hnd) |].
  split; [exact Hmodal |].
  destruct (Hopens procurement Hmodal) as [Hsame | Hfound];
    [left; symmetry; exact Hsame | right; exact Hfound].
Defined.

Lemma markRead_isRead (id : str) (n : Notification) :
  n_isRead (markRead id n) = false ↔ n_isRead n = false ∧ n_id n ≠ id.
Proof.
  unfold markRead. case_bool_decide; cbn; [split; [done | by intros [_ ?]] |].
  split; [done | by intros [? _]].
Qed.

Lemma unreadCount_markRead (id : str) (l : list Notification) :
  (unreadCount (markRead id <$> l) ≤ unreadCount l)%nat
  ∧ ((∃ n, n ∈ l ∧ n_id n = id ∧ n_isRead n = false) →
     (unreadCount (markRead id <$> l) < unreadCount l)%nat).
Proof.
  unfold unreadCount. induction l as [|n l [IHle IHlt]].
  - split; [done |]. by intros (n & ?%elem_of_nil & _).
  - rewrite fmap_cons, !(filter_cons (λ n, n_isRead n = false)).
    set (a := List.length (filter _ (markRead id <$> l))) in *.
    set (b := List.length (filter _ l)) in *.
    destruct (decide (n_isRead (markRead id n) = false)) as [Hm | Hm];
      destruct (decide (n_isRead n = false)) as [Hn | Hn]; cbn.
    + apply markRead_isRead in Hm as [_ Hid]. split; [lia |].
      intros (m & [-> | Hin]%elem_of_cons & Hmid & Hunread); [done |].
      apply ->Nat.succ_lt_mono. apply IHlt. eauto.
    + by apply markRead_isRead in Hm as [? _].
    + split; [lia |]. intros _. lia.
    + split; [lia |].
      intros (m & [-> | Hin]%elem_of_cons & Hmid & Hunread); [done |].
      apply IHlt. eauto.
Qed.

(** The badge never counts up on a click, and clicking a notification
    that is shown as unread and not yet among the seen ids lowers it. *)
Theorem click_lowers_unread_count :
  ∀ (cu : User) (requests : list Request) (notification : Notification)
    (view : DashboardView),
    let clicked :=
      handleNotificationClick (Some cu) requests notification view in
    (unreadCount (notifications (view_state clicked))
     ≤ unreadCount (notifications (view_state view)))%nat
    ∧ (notification ∈ notifications (view_state view) →
       n_isRead notification = false →
       n_id notification ∉ readNotifIds (localStorage (view_state view)) cu →
       (unreadCount (notifications (view_state clicked))
        < unreadCount (notifications (view_state view)))%nat).
Proof.
  intros. subst clicked. cbn. split.
  - case_bool_decide; cbn; [done |]. apply unreadCount_markRead.
  - intros Hin Hunread Hseen. rewrite bool_decide_eq_false_2 by done. cbn.
    apply unreadCount_markRead. eauto.
Qed.

Lemma click_lowers_unread_count_witness :
  alice_notification ∈ notifications (view_state alice_view)
  ∧ n_isRead alice_notification = false
  ∧ (n_id alice_notification
     ∉ readNotifIds (localStorage (view_state alice_view)) alice)
  ∧ (unreadCount
       (notifications
          (view_state
             (handleNotificationClick (Some alice) [procurement; leave]
                alice_notification alice_view)))
     < unreadCount (notifications (view_state alice_view)))%nat.
Proof.
  assert (Hin : alice_notification ∈ notifications (view_state alice_view))
    by (vm_compute; left).
  assert (Hseen : n_id alice_notification
                  ∉ readNotifIds (localStorage (view_state alice_view)) alice)
    by (vm_compute; apply not_elem_of_nil).
  split; [exact Hin |]. split; [reflexivity |]. split; [exact Hseen |].
  destruct (click_lowers_unread_count alice [procurement; leave]
              alice_notification alice_view) as [_ Hlower].
  exact (Hlower Hin eq_refl Hseen).
Defined.

(** ** The modal's footers and the document viewer *)

(** The modal never stacks two footers: the action panel, the edit
    button and the create-procurement button exclude one another, and an
    item request never gets the action panel. *)
Theorem modal_footers_exclusive :
  ∀ (currentUser : option User) (request : Request)
    (onEdit onCreateProcurement : bool),
    showsTakeAction currentUser request
    && showsEditRequest currentUser request onEdit = false
    ∧ showsTakeAction currentUser request
      && showsCreateProcurement currentUser request onCreateProcurement = false
    ∧ showsEditRequest currentUser request onEdit
      && showsCreateProcurement currentUser request onCreateProcurement = false
    ∧ bool_decide (r_type request = ITEM)
      && showsTakeAction currentUser request = false.
Proof.
  intros. unfold showsTakeAction, showsEditRequest, showsCreateProcurement.
  destruct currentUser as [cu|]; [| cbn; by rewrite andb_false_r].
  destruct (isCurrentUserApprover (Some cu) request) eqn:Happ.
  - apply isCurrentUserApprover_spec in Happ as (Hst & Hty & _).
    rewrite Hst. rewrite (bool_decide_eq_false_2 (r_type request = ITEM)) by done.
    rewrite (bool_decide_eq_false_2 (PENDING = SENT_BACK)) by done.
    by rewrite !andb_false_r.
  - cbn. rewrite andb_false_r. repeat split.
    destruct (bool_decide (u_role cu = ADMIN)); [| done].
    destruct (r_status request); cbn; rewrite ?andb_false_r; done.
Qed.

(** Commenting on the document.  Whoever may act on a request may
    comment on it, and a signed-in user who may comment does so on a
    Pending request, as an administrator or as the approver whose turn it
    is; for a user who is not an administrator, on a request that is not
    an item request, commenting and acting are allowed together.  What
    [handleAddComment] sends is never blank and always goes under the
    signed-in user's own id and address; without a user it sends
    nothing, even where the form is shown. *)
Theorem comments_follow_the_turn :
  ∀ (currentUser : option User) (cu : User) (request : Request)
    (newComment : str),
    (isCurrentUserApprover (Some cu) request = true →
     canComment (Some cu) request = true)
    ∧ (canComment (Some cu) request = true →
       r_status request = PENDING
       ∧ (u_role cu = ADMIN
          ∨ a_userId <$> js_index (r_approvalQueue request)
                           (r_currentApproverIndex request)
            = Some (u_id cu)))
    ∧ (u_role cu ≠ ADMIN → r_type request ≠ ITEM →
       canComment (Some cu) request = isCurrentUserApprover (Some cu) request)
    ∧ (∀ sent,
         handleAddComment currentUser request newComment = Some sent →
         ∃ user, currentUser = Some user
           ∧ sent = (r_id request, u_id user, u_email user, newComment)
           ∧ ¬ Forall (λ c, is_js_whitespace c = true) newComment)
    ∧ handleAddComment None request newComment = None
    ∧ canComment None request
      = bool_decide (r_status request = PENDING)
        && bool_decide (js_index (r_approvalQueue request)
                          (r_currentApproverIndex request) = None).
Proof.
  intros. split; [| split; [| split; [| split; [| split]]]].
  - intros (Hst & Hty & entry & He & Hid)%isCurrentUserApprover_spec.
    unfold canComment. rewrite Hst, He. cbn.
    rewrite (bool_decide_eq_true_2 (PENDING = PENDING)) by done.
    rewrite (bool_decide_eq_true_2 (Some _ = Some _)) by (by rewrite Hid).
    by rewrite orb_true_r.
  - unfold canComment, isAdmin. intros [H | H]%orb_true_iff;
      apply andb_true_iff in H as [H1 H2];
      apply bool_decide_eq_true in H1, H2; auto.
  - intros Hrole Hty. unfold canComment, isAdmin.
    rewrite (bool_decide_eq_false_2 (u_role cu = ADMIN)) by done. cbn.
    apply eq_true_iff_eq.
    rewrite andb_true_iff, !bool_decide_eq_true.
    exact (pending_filter_is_approver cu request Hty).
  - intros sent. unfold handleAddComment.
    destruct (truthy_str (trim newComment)) eqn:Htrim; [| done]. cbn.
    destruct currentUser as [user|]; [| done]. intros [= <-].
    exists user. split; [done |]. split; [done |].
    rewrite <- truthy_trim. by rewrite Htrim.
  - unfold handleAddComment. by destruct (negb _).
  - unfold canComment. cbn.
    destruct (js_index _ _); cbn; by case_bool_decide.
Qed.

Lemma comments_follow_the_turn_witness :
  isCurrentUserApprover (Some alice) procurement = true
  ∧ canComment (Some alice) procurement = true
  ∧ handleAddComment (Some alice) procurement (lit "see page 2")
    = Some (r_id procurement, u_id alice, u_email alice, lit "see page 2")
  ∧ ¬ Forall (λ c, is_js_whitespace c = true) (lit "see page 2").
Proof.
  assert (Hturn : isCurrentUserApprover (Some alice) procurement = true)
    by (vm_compute; reflexivity).
  assert (Hsent :
    handleAddComment (Some alice) procurement (lit "see page 2")
    = Some (r_id procurement, u_id alice, u_email alice, lit "see page 2"))
    by (vm_compute; reflexivity).
  destruct (comments_follow_the_turn (Some alice) alice procurement
              (lit "see page 2"))
    as (Hmay & _ & _ & Hsends & _).
  split; [exact Hturn |]. split; [exact (Hmay Hturn) |].
  split; [exact Hsent |].
  destruct (Hsends _ Hsent) as (user & _ & _ & Hblank). exact Hblank.
Defined.

(** ** The head of department *)

(** The head of department of a leave request only gets to comment when
    in the queue: if the id the request names is not among its approvers,
    then, wherever the request stands, nobody is its HOD in the modal and
    no action ever carries HOD comments. *)
Theorem hod_outside_queue_never_comments :
  ∀ (parseFloat : str → number) (offline : bool) (currentUser : option User)
    (users : list User) (request : Request) (st : ModalState)
    (status : ApprovalStatus) (hod : str),
    selectedHODId request = Some hod →
    hod ∉ (a_userId <$> r_approvalQueue request) →
    isHOD currentUser request = false
    ∧ ∀ call,
        awaited (handleAction parseFloat offline currentUser users request st
                   status) = Some call →
        ∃ args, call = rpc_handle_request_action args
                ∧ p_hod_comments args = None.
Proof.
  intros * Hhod Hout.
  assert (Hno : isHOD currentUser request = false).
  { destruct currentUser as [cu|];
      [| unfold isHOD, isCurrentUserApprover; by rewrite andb_false_r].
    destruct (isHOD (Some cu) request) eqn:H; [| done].
    apply isHOD_spec in H as (_ & Hsel & Happ).
    apply isCurrentUserApprover_spec in Happ as (_ & _ & entry & He & Hid).
    apply js_index_Some in He as [_ He].
    destruct Hout. rewrite Hhod in Hsel. injection Hsel as ->.
    apply list_elem_of_fmap. exists entry.
    split; [done |]. by eapply list_elem_of_lookup_2. }
  split; [done |]. intros call Hcall.
  apply handleAction_awaited in Hcall as (cu & sig & -> & _ & _ & _ & ->).
  eexists. split; [reflexivity |]. cbn. by rewrite Hno.
Qed.

Lemma hod_outside_queue_never_comments_witness :
  selectedHODId leave_without_hod = Some (u_id alice)
  ∧ (u_id alice ∉ (a_userId <$> r_approvalQueue leave_without_hod))
  ∧ isHOD (Some alice) leave_without_hod = false
  ∧ ∃ args,
      awaited (handleAction parseFloat_dec false (Some bola) directory
                 leave_without_hod
                 (mkModalState [] (lit "cover arranged") [] [] drawn)
                 APPROVED)
      = Some (rpc_handle_request_action args)
      ∧ p_hod_comments args = None.
Proof.
  assert (Hhod : selectedHODId leave_without_hod = Some (u_id alice))
    by (vm_compute; reflexivity).
  assert (Hout : u_id alice ∉ (a_userId <$> r_approvalQueue leave_without_hod)).
  { intros Hin. vm_compute in Hin.
    apply elem_of_cons in Hin as [Heq | Hin]; [discriminate |].
    apply elem_of_cons in Hin as [Heq | Hin]; [discriminate |].
    by apply elem_of_nil in Hin. }
  split; [exact Hhod |]. split; [exact Hout |].
  split.
  - exact (proj1 (hod_outside_queue_never_comments parseFloat_dec false
                    (Some alice) directory leave_without_hod
                    (mkModalState [] (lit "cover arranged") [] [] drawn)
                    APPROVED (u_id alice) Hhod Hout)).
  - destruct (hod_outside_queue_never_comments parseFloat_dec false
                (Some bola) directory leave_without_hod
                (mkModalState [] (lit "cover arranged") [] [] drawn)
                APPROVED (u_id alice) Hhod Hout) as [_ Hcall].
    destruct (awaited (handleAction parseFloat_dec false (Some bola) directory
                         leave_without_hod
                         (mkModalState [] (lit "cover arranged") [] [] drawn)
                         APPROVED)) as [call|] eqn:Hawaited;
      [| vm_compute in Hawaited; discriminate].
    destruct (Hcall call eq_refl) as (args & -> & Hnone).
    exists args. split; [reflexivity | exact Hnone].
Defined.

(** ** Notifications of an approver *)

(** An approver is notified of exactly the requests waiting for them:
    when item requests have no queue, the requests named by the
    notifications derived for an approver are, in order, the fetched
    requests on which the modal lets that approver act. *)
Theorem approver_notified_of_actionable_requests :
  ∀ (cu : User) (users : list User) (readIds : list str)
    (requests : list Request),
    u_role cu = APPROVER →
    Forall (λ req, r_type req = ITEM → r_approvalQueue req = []) requests →
    n_requestId <$> generatedNotifs cu users readIds requests
    = r_id <$> filter (λ req, isCurrentUserApprover (Some cu) req = true)
                 requests.
Proof.
  intros * Hrole Hitems. unfold generatedNotifs.
  induction Hitems as [|req requests Hitem _ IH]; [done |].
  change ((req :: requests) ≫= ?g) with (g req ++ requests ≫= g).
  rewrite fmap_app, IH, filter_cons. clear IH.
  unfold requestNotifications. rewrite Hrole.
  rewrite (bool_decide_eq_true_2 (APPROVER = APPROVER)) by done.
  rewrite (bool_decide_eq_false_2 (APPROVER = ADMIN)) by done.
  rewrite app_nil_r. cbn [andb].
  destruct (decide (isCurrentUserApprover (Some cu) req = true)) as [Ha | Ha].
  - apply isCurrentUserApprover_spec in Ha as (Hst & _ & entry & He & Hid).
    pose proof (js_index_bounds _ _ _ He) as Hb.
    rewrite bool_decide_eq_true_2 by done.
    rewrite (proj2 (Z.ltb_lt _ _)) by lia. cbn [andb].
    rewrite He. by rewrite bool_decide_eq_true_2.
  - destruct (bool_decide (r_status req = PENDING)
              && (r_currentApproverIndex req
                  <? Z.of_nat (List.length (r_approvalQueue req)))%Z) eqn:Hc;
      [| done].
    destruct (js_index _ _) as [entry|] eqn:He; [| done].
    destruct (bool_decide (a_userId entry = u_id cu)) eqn:Hid; [| done].
    apply bool_decide_eq_true in Hid.
    destruct Ha. apply andb_true_iff in Hc as [Hst%bool_decide_eq_true _].
    apply pending_filter_is_approver.
    + intros Hty. rewrite (Hitem Hty) in He.
      apply js_index_Some in He as [_ He]. done.
    + split; [done |]. rewrite He. cbn. by rewrite Hid.
Qed.

Lemma approver_notified_of_actionable_requests_witness :
  u_role alice = APPROVER
  ∧ Forall (λ req, r_type req = ITEM → r_approvalQueue req = [])
      [procurement; leave; item]
  ∧ n_requestId <$> generatedNotifs alice directory [] [procurement; leave; item]
    = r_id <$> filter (λ req, isCurrentUserApprover (Some alice) req = true)
                 [procurement; leave; item].
Proof.
  assert (Hitems : Forall (λ req, r_type req = ITEM → r_approvalQueue req = [])
                     [procurement; leave; item]).
  { repeat constructor; try discriminate. }
  split; [reflexivity |]. split; [exact Hitems |].
  exact (approver_notified_of_actionable_requests alice directory []
           [procurement; leave; item] eq_refl Hitems).
Defined.

(** ** Who creates what *)

(** Every request type is offered for creation to exactly one role: item
    requests to approvers, all other types to administrators, and none to
    a visitor who is not signed in. *)
Theorem each_type_has_one_creating_role :
  ∀ (admin approver : User) (type : RequestType),
    u_role admin = ADMIN → u_role approver = APPROVER →
    canCreate (Some admin) type = negb (canCreate (Some approver) type)
    ∧ canCreate (Some approver) type = bool_decide (type = ITEM)
    ∧ canCreate None type = false.
Proof.
  intros * Hadmin Happrover. unfold canCreate, isAdmin.
  rewrite Hadmin, Happrover. by destruct type.
Qed.

Lemma each_type_has_one_creating_role_witness :
  u_role dayo = ADMIN
  ∧ u_role alice = APPROVER
  ∧ canCreate (Some dayo) LEAVE = negb (canCreate (Some alice) LEAVE)
  ∧ canCreate (Some alice) LEAVE = false.
Proof.
  split; [reflexivity |]. split; [reflexivity |].
  destruct (each_type_has_one_creating_role dayo alice LEAVE eq_refl eq_refl)
    as (Hone & Happrover & _).
  split; [exact Hone | exact Happrover].
Defined.

(** ** Item requests *)

(** Every fetched request has one place.  With a blank search, what the
    list shows an administrator under the tab for all requests, together
    with the item requests of the inbox, is a rearrangement of the
    fetched requests, and no request is in both.  An item request is in
    a tab of the inbox exactly when it is Pending or Completed; with any
    other status it is shown nowhere. *)
Theorem item_requests_only_in_inbox :
  ∀ (toLowerCase : str → str) (requests : list Request) (admin : User)
    (searchQuery : str),
    u_role admin = ADMIN →
    trim (toLowerCase searchQuery) = [] →
    ∃ shown,
      filteredRequests toLowerCase requests (Some admin) TabAll searchQuery
      = Some shown
      ∧ itemRequests requests ++ shown ≡ₚ requests
      ∧ (∀ req, req ∈ shown → req ∉ itemRequests requests)
      ∧ (∀ req, req ∈ requests → r_type req = ITEM →
           (∃ tab, tab ∈ inbox_tabs
                   ∧ req ∈ inbox_filteredRequests requests tab)
           ↔ r_status req ∈ inbox_tabs).
Proof.
  intros * Hrole Hblank.
  exists (filter (λ req, r_type req ≠ ITEM) requests).
  split; [| split; [| split]].
  - unfold filteredRequests. rewrite Hrole.
    destruct (filter_throwing_total (matchesSearch toLowerCase searchQuery)
                (filter (λ req, r_type req ≠ ITEM) requests)) as [searched Hs].
    { apply Forall_forall. intros x _. by rewrite matchesSearch_blank. }
    rewrite Hs. cbn. f_equal.
    apply filter_throwing_Some in Hs as [-> _].
    induction (filter _ requests) as [|x l IH]; [done |].
    rewrite filter_cons, decide_True by by apply matchesSearch_blank.
    by rewrite IH.
  - apply filter_app_complement.
  - intros req [Hne _]%list_elem_of_filter [Hty _]%list_elem_of_filter. done.
  - intros req Hin Hty. unfold inbox_filteredRequests, itemRequests. split.
    + intros (tab & Htab & [<- _]%list_elem_of_filter). done.
    + intros Htab. exists (r_status req). split; [done |].
      apply list_elem_of_filter. split; [done |].
      by apply list_elem_of_filter.
Qed.

Lemma item_requests_only_in_inbox_witness :
  u_role dayo = ADMIN
  ∧ trim (sample_toLowerCase (lit "  ")) = []
  ∧ ∃ shown,
      filteredRequests sample_toLowerCase [procurement; item; leave]
        (Some dayo) TabAll (lit "  ")
      = Some shown
      ∧ itemRequests [procurement; item; leave] ++ shown
        ≡ₚ [procurement; item; leave].
Proof.
  assert (Hblank : trim (sample_toLowerCase (lit "  ")) = [])
    by (vm_compute; reflexivity).
  split; [reflexivity |]. split; [exact Hblank |].
  destruct (item_requests_only_in_inbox sample_toLowerCase
              [procurement; item; leave] dayo (lit "  ") eq_refl Hblank)
    as (shown & Hshown & Hsplit & _).
  exists shown. split; [exact Hshown | exact Hsplit].
Defined.
